(** * Yonex catalogue watcher: change detection, size analysis, reports

    A shallow embedding of [yonex_site_checker.py], [talk_to_ai.py],
    [products_into_db.py] and [telegram_notifier.py].

    Conventions of the embedding.
    - A Python [str] is a Rocq [string]; one [ascii] stands for one character.
      Case mapping and white space follow Python on ASCII text; the non-ASCII
      glyphs of literal templates appear as their UTF-8 bytes.
    - A Python [set] of strings is a [gset string]; the order in which Python
      iterates over a set is not fixed by the language, so it is a field of
      the [Runtime] record below.
    - A Python [dict] that is iterated or dumped keeps insertion order and is
      an association list with unique keys.
    - Library calls whose code is not in the repository (the JSON codec, the
      two model clients, the clock) are fields of [Runtime].
    - Code that can raise returns a [result]; [try]/[except] is written out. *)

From Stdlib Require Import Ascii String DecimalString.
From stdpp Require Import gmap strings list sorting.

Local Open Scope string_scope.

(** ** Python string primitives *)

Module PyStr.

Definition code (c : ascii) : nat := nat_of_ascii c.

(** [str.isspace] on ASCII: TAB..CR, FS..US and the blank. *)
Definition is_space (c : ascii) : bool :=
  let n := code c in
  (Nat.leb 9 n && Nat.leb n 13) || (Nat.leb 28 n && Nat.leb n 32).

Definition is_digit (c : ascii) : bool :=
  let n := code c in Nat.leb 48 n && Nat.leb n 57.

Definition lower_char (c : ascii) : ascii :=
  let n := code c in
  if Nat.leb 65 n && Nat.leb n 90 then ascii_of_nat (n + 32) else c.

Definition upper_char (c : ascii) : ascii :=
  let n := code c in
  if Nat.leb 97 n && Nat.leb n 122 then ascii_of_nat (n - 32) else c.

Fixpoint map_chars (f : ascii -> ascii) (s : string) : string :=
  match s with
  | EmptyString => EmptyString
  | String c r => String (f c) (map_chars f r)
  end.

(** [s.lower()] and [s.upper()] *)
Definition lower : string -> string := map_chars lower_char.
Definition upper : string -> string := map_chars upper_char.

Fixpoint lstrip (s : string) : string :=
  match s with
  | EmptyString => EmptyString
  | String c r => if is_space c then lstrip r else s
  end.

Fixpoint rstrip (s : string) : string :=
  match s with
  | EmptyString => EmptyString
  | String c r =>
      match rstrip r with
      | EmptyString => if is_space c then EmptyString else String c EmptyString
      | r' => String c r'
      end
  end.

(** [s.strip()] *)
Definition strip (s : string) : string := rstrip (lstrip s).

(** [s.startswith(p)] *)
Definition startswith (s p : string) : bool := String.prefix p s.

(** [s.replace(old, new)] for a non-empty [old]: occurrences are found from
    the left and do not overlap.  [skip] counts the characters of a matched
    occurrence that are still to be dropped. *)
Fixpoint replace_from (old new : string) (skip : nat) (s : string) : string :=
  match s with
  | EmptyString => EmptyString
  | String c r =>
      match skip with
      | S k => replace_from old new k r
      | O =>
          if String.prefix old s
          then new +:+ replace_from old new (String.length old - 1) r
          else String c (replace_from old new O r)
      end
  end.

Definition replace (s old new : string) : string :=
  replace_from old new 0 s.

(** [sub in s] *)
Fixpoint contains (s sub : string) : bool :=
  String.prefix sub s ||
  match s with
  | EmptyString => false
  | String _ r => contains r sub
  end.

(** [s.find(c)] for a one-character needle; [None] stands for [-1]. *)
Fixpoint find_char (c : ascii) (s : string) : option nat :=
  match s with
  | EmptyString => None
  | String d r =>
      if Ascii.eqb c d then Some 0 else S <$> find_char c r
  end.

(** [s.rfind(c)] for a one-character needle. *)
Fixpoint rfind_char (c : ascii) (s : string) : option nat :=
  match s with
  | EmptyString => None
  | String d r =>
      match rfind_char c r with
      | Some i => Some (S i)
      | None => if Ascii.eqb c d then Some 0 else None
      end
  end.

(** [s[i:j]] for non-negative bounds *)
Definition slice (s : string) (i j : nat) : string :=
  String.substring i (j - i) s.

(** [s.split(sep)] for a one-character separator *)
Fixpoint split_char (sep : ascii) (s : string) : list string :=
  match s with
  | EmptyString => [EmptyString]
  | String c r =>
      if Ascii.eqb c sep then EmptyString :: split_char sep r
      else match split_char sep r with
           | [] => [String c EmptyString]
           | w :: ws => String c w :: ws
           end
  end.

(** [sep.join(parts)] *)
Fixpoint join (sep : string) (parts : list string) : string :=
  match parts with
  | [] => EmptyString
  | [p] => p
  | p :: ps => p +:+ sep +:+ join sep ps
  end.

(** [c * n] *)
Fixpoint repeat_char (c : ascii) (n : nat) : string :=
  match n with
  | O => EmptyString
  | S k => String c (repeat_char c k)
  end.

(** [str(n)] for a non-negative integer *)
Definition of_nat (n : nat) : string := NilZero.string_of_uint (Nat.to_uint n).

(** Truth value of a string: empty is false. *)
Definition truthy (s : string) : bool :=
  match s with EmptyString => false | _ => true end.

End PyStr.

(** ** [yonex_site_checker.normalize_image_url] *)

Definition normalize_image_url (url : string) : string :=
  if negb (PyStr.truthy url) then ""
  else
    let url :=
      if PyStr.startswith url "https://www.yonex.ch"
      then PyStr.replace url "https://www.yonex.ch" ""
      else if PyStr.startswith url "http://www.yonex.ch"
      then PyStr.replace url "http://www.yonex.ch" ""
      else if PyStr.startswith url "//www.yonex.ch"
      then PyStr.replace url "//www.yonex.ch" ""
      else url in
    let url := if negb (PyStr.startswith url "/") then "/" +:+ url else url in
    PyStr.strip (PyStr.lower url).


(** ** Results, the world and the runtime *)

(** Outcome of code that can raise; [Raise msg] carries [str(e)]. *)
Inductive result (A : Type) : Type :=
  | Ok (a : A)
  | Raise (msg : string).
Arguments Ok {A} a.
Arguments Raise {A} msg.

(** What a size dictionary holds under [available] or [sold_out].  The
    dictionaries the program builds hold a list of strings there.  A decoded
    answer is not validated: the key may be absent, and the value may be one
    that [set] rejects (null, a number, a boolean, a list with a list or an
    object among its items); for such a value [shown] is its [str] and
    [rejected] the text of the TypeError that [set] raises.  The items of a
    list that [set] accepts are taken to be strings, as the prompt asks. *)
Inductive Field : Type :=
  | Absent
  | Tokens (xs : list string)
  | Unsettable (shown rejected : string).

(** The dictionary produced by size analysis, read by the code only through
    the keys [available], [sold_out] and [error]; an absent [error] is
    [None]. *)
Record SizeInfo : Type := mkSizeInfo {
  available : Field;
  sold_out : Field;
  error : option string
}.

(** A scraped catalogue entry as stored in a snapshot.  [original_description]
    and [sizes] are optional because the code reads them with [.get] and
    stores [None] in [sizes]. *)
Record Product : Type := mkProduct {
  name : string;
  image_url : string;
  description : string;
  original_description : option string;
  price : string;
  sizes : option string
}.

(** A snapshot: a dictionary from image URL to entry, in insertion order. *)
Definition Snapshot : Type := list (string * Product).

(** A row of the [products] table. *)
Record Row : Type := mkRow {
  row_id : nat;
  row_name : string;
  row_pic_url : string;
  row_description : string;
  row_price : string;
  row_sizes : string;
  row_type : string;
  row_last_seen : string
}.

(** Everything the program can change or observe changing. *)
Record World : Type := mkWorld {
  current_provider : string;       (* talk_to_ai._current_provider *)
  current_model : string;          (* talk_to_ai._current_model *)
  requests : nat;                  (* model requests issued so far *)
  sleeps : list nat;               (* arguments of time.sleep, oldest first *)
  parser_calls : list string;      (* arguments of analyze_sizes, oldest first *)
  files : gmap string string;      (* history files by path *)
  disk_fault : option nat;         (* characters a write accepts before it fails *)
  databases : gmap string (list Row);  (* products table by database path *)
  owner_errors : list string       (* texts given to send_error_to_owner *)
}.

(** Library and platform behaviour that is not code of the repository. *)
Record Runtime : Type := mkRuntime {
  (* iteration order of a set of strings *)
  set_iter : gset string -> list string;
  set_iter_perm : forall X, set_iter X ≡ₚ elements X;
  (* json.loads on a model answer: the decoded object or JSONDecodeError *)
  json_loads : string -> result SizeInfo;
  (* json.dumps of a size dictionary *)
  json_dumps : SizeInfo -> string;
  (* json.load / json.dump(..., indent=2, ensure_ascii=False) of a snapshot *)
  json_load_snapshot : string -> result Snapshot;
  json_dump_snapshot : Snapshot -> string;
  (* the google-genai import succeeded *)
  GEMINI_AVAILABLE : bool;
  (* genai.Client(api_key=...) *)
  genai_Client : result unit;
  (* the n-th request: client.models.generate_content(model, contents).text *)
  generate_content : nat -> string -> string -> result string;
  QWEN_API_KEY : string;
  (* httpx.Client(...) and OpenAI(...) *)
  qwen_Client : result unit;
  (* the n-th request: chat.completions.create(model, messages, streaming?) and
     the text collected from it *)
  chat_completions : nat -> string -> string -> bool -> result string;
  (* get_products_with_image_ids(url): the outcome of its requests and
     BeautifulSoup calls, a keyed snapshot or an exception *)
  get_products_with_image_ids : string -> result Snapshot;
  (* value of CURRENT_TIMESTAMP at an insertion *)
  CURRENT_TIMESTAMP : string
}.

(** State and exceptions: the state survives a raise. *)
Definition M (A : Type) : Type := World -> result A * World.

Definition ret {A} (a : A) : M A := fun w => (Ok a, w).
Definition raise {A} (msg : string) : M A := fun w => (Raise msg, w).
Definition bind {A B} (m : M A) (k : A -> M B) : M B :=
  fun w => match m w with
           | (Ok a, w') => k a w'
           | (Raise e, w') => (Raise e, w')
           end.
(** [try: m except Exception as e: h(e)] *)
Definition try_except {A} (m : M A) (h : string -> M A) : M A :=
  fun w => match m w with
           | (Ok a, w') => (Ok a, w')
           | (Raise e, w') => h e w'
           end.
(** A result that is computed without reading or changing the world. *)
Definition lift {A} (r : result A) : M A := fun w => (r, w).
Definition get_world : M World := fun w => (Ok w, w).
Definition modify (f : World -> World) : M unit := fun w => (Ok tt, f w).

Notation "x <- m ;; k" := (bind m (fun x => k))
  (at level 100, m at next level, right associativity).
Notation "m ;;; k" := (bind m (fun _ => k))
  (at level 100, right associativity).

(** The double quote character and text written with a back quote in its place. *)
Definition dq : ascii := ascii_of_nat 34.
Definition quoted (s : string) : string :=
  PyStr.map_chars (fun c => if Ascii.eqb c "`" then dq else c) s.

(** ** [talk_to_ai] *)

(** The text of [_build_size_prompt] before the description. *)
Definition size_prompt_head : string := quoted
"You are given a product size description written in German.
Task: extract all sizes from the text (shoe sizes, clothing sizes, kids sizes) and determine which are available and which are sold out, based on any annotations in the text (e.g., `(=nur ausverkauft in 46)`, `(=komplett)`, `(=ausverkauft)`).

Rules (apply in order):
1. Extract sizes as individual strings. Recognize:
- Numeric sizes (e.g., `36`, `36.5`, `39,5`, `130`, `140`).
- Normalize decimals written with ',' to '.' (e.g., `39,5` -> `39.5`).
- Clothing sizes such as `XS`, `S`, `M`, `L`, `XL`, `XXL`, `XXXL`, `2XL`, `3XL`, etc.
2. Recognize separators: ',', '/', ';', whitespace, '–', '-', 'bis' and split accordingly. 
- Expand numeric ranges like `36-38`, `36–38`, or `36 bis 38` -> [`36`,`37`,`38`].
- Expand clothing ranges like `S-XXL` into the sequence [`S`,`M`,`L`,`XL`,`XXL`] using the standard size order XS < S < M < L < XL < XXL < XXXL < 2XL < 3XL.
3. Remove duplicates and sort:
- Numeric sizes: sort numerically ascending (`36`,`36.5`,`37`,`130`,`140`).
- Clothing sizes: sort in logical order XS < S < M < L < XL < XXL < XXXL < 2XL < 3XL (etc.).
- Mixed lists: place numeric sizes first, then clothing sizes.
4. Interpret annotations:
- If the text contains `komplett` (case-insensitive), treat it as **all listed sizes are available**: put all extracted sizes into `available` and set `sold_out`:[] — unless explicit sold-out sizes are listed.
- If the text contains `nur ausverkauft in X`, `ausverkauft in X`, or similar, mark those specific sizes as sold_out and the remaining extracted sizes as available.
- If the text contains `ausverkauft` without specific sizes (e.g. `(=ausverkauft)`), treat it as **all listed sizes are sold out**: available=[], sold_out=[all sizes].
- If both `komplett` and explicit sold-out sizes appear, explicit sold-out sizes take precedence.
5. Output EXACTLY one line of valid JSON. No line breaks, no indentation, no extra text. The format must be:
{`available`:[`...`,`...`],`sold_out`:[`...`,`...`]}

Examples:

Input: `Grössen 39.5, 40, 40.5, 41, 42, 43, 44, 44.5, 45, 45.5, 47   (=nur ausverkauft in 46)`
Output: {`available`:[`39.5`,`40`,`40.5`,`41`,`42`,`43`,`44`,`44.5`,`45`,`45.5`,`47`],`sold_out`:[`46`]}

Input: `in den Grössen 36/37/37.5/38/39/39.5/40/40.5/41/42   (=komplett)`
Output: {`available`:[`36`,`37`,`37.5`,`38`,`39`,`39.5`,`40`,`40.5`,`41`,`42`],`sold_out`:[]}

Input: `Kindergrössen 120, 130, 140   (=ausverkauft)`
Output: {`available`:[],`sold_out`:[`120`,`130`,`140`]}

Input: `in den Grössen S, M, L, XL, XXL   (=nur ausverkauft in L)`
Output: {`available`:[`S`,`M`,`XL`,`XXL`],`sold_out`:[`L`]}

Input: `78% Polyester, 22% Modal (Cellulose) S-XXL (ausverkauft in XL)`
Output: {`available`:[`S`,`M`,`L`,`XXL`],`sold_out`:[`XL`]}

Now process the following input and return only the JSON in this compact one-line format:
[".

Definition _build_size_prompt (description : string) : string :=
  size_prompt_head +:+ description +:+ "]".

Definition failure (msg : string) : SizeInfo :=
  {| available := Tokens []; sold_out := Tokens []; error := Some msg |}.

Section TalkToAi.
Context (R : Runtime).

(** Lines 253-257: drop the lines of a fenced block that start with the fence. *)
Definition strip_code_fence (response_text : string) : string :=
  if PyStr.startswith response_text "```" then
    let lines := PyStr.split_char "010" response_text in
    let lines := filter (fun l => negb (PyStr.startswith l "```")) lines in
    PyStr.strip (PyStr.join (String "010" "") lines)
  else response_text.

(** Lines 260-263: the text from the first opening brace to the last closing
    brace, when both characters occur. *)
Definition json_text_of (response_text : string) : option string :=
  match PyStr.find_char "{" response_text, PyStr.rfind_char "}" response_text with
  | Some json_start, Some last =>
      let json_end := last + 1 in
      Some (PyStr.slice response_text json_start json_end)
  | _, _ => None
  end.

Definition _parse_json_response (response_text : string) : SizeInfo :=
  let response_text := PyStr.strip response_text in
  let response_text := strip_code_fence response_text in
  match json_text_of response_text with
  | Some json_text =>
      match json_loads R json_text with
      | Ok size_info => size_info
      | Raise e => failure ("JSON parse error: " +:+ e)
      end
  | None => failure "Invalid JSON response"
  end.

Definition sleep (seconds : nat) : M unit :=
  modify (fun w => mkWorld (current_provider w) (current_model w) (requests w)
                     (sleeps w ++ [seconds]) (parser_calls w) (files w)
                     (disk_fault w) (databases w) (owner_errors w)).

(** One request to a model: the answer is the runtime's for the current
    request number, which is then advanced. *)
Definition request (ask : nat -> string -> result string) : M string :=
  fun w =>
    (ask (requests w) (current_model w),
     mkWorld (current_provider w) (current_model w) (S (requests w))
       (sleeps w) (parser_calls w) (files w) (disk_fault w) (databases w)
       (owner_errors w)).

(** The digits matched by [re.search(r"retryDelay[^0-9]*?(\d+)", s, re.IGNORECASE)] *)
Fixpoint after_first (needle s : string) : option string :=
  if String.prefix needle s
  then Some (String.substring (String.length needle) (String.length s) s)
  else match s with
       | EmptyString => None
       | String _ r => after_first needle r
       end.

Fixpoint drop_non_digits (s : string) : string :=
  match s with
  | EmptyString => EmptyString
  | String c r => if PyStr.is_digit c then s else drop_non_digits r
  end.

Fixpoint leading_int (acc : nat) (s : string) : nat :=
  match s with
  | EmptyString => acc
  | String c r =>
      if PyStr.is_digit c then leading_int (10 * acc + (PyStr.code c - 48)) r
      else acc
  end.

Definition retry_delay_of (error_str : string) : option nat :=
  match after_first "retrydelay" (PyStr.lower error_str) with
  | Some rest =>
      match drop_non_digits rest with
      | EmptyString => None
      | digits => Some (leading_int 0 digits)
      end
  | None => None
  end.

Definition gemini_rate_limited (error_str : string) : bool :=
  PyStr.contains error_str "retryDelay"
  || PyStr.contains error_str "RESOURCE_EXHAUSTED"
  || PyStr.contains error_str "429".

Definition gemini_delay (error_str : string) : nat :=
  let delay_seconds :=
    match retry_delay_of error_str with
    | Some delay_seconds => delay_seconds + 5
    | None => 60
    end in
  Nat.max delay_seconds 15.

(** Lines 137-170: [for attempt in range(max_retries)] and the return after it. *)
Fixpoint gemini_attempts (max_retries : nat) (attempts : list nat)
    (prompt : string) : M SizeInfo :=
  match attempts with
  | [] => ret (failure "Max retries exceeded")
  | attempt :: rest =>
      try_except
        (response_text <- request (fun n model => generate_content R n model prompt) ;;
         ret (_parse_json_response response_text))
        (fun error_str =>
           if gemini_rate_limited error_str then
             let delay_seconds := gemini_delay error_str in
             if Nat.ltb attempt (max_retries - 1) then
               (sleep delay_seconds ;;; gemini_attempts max_retries rest prompt)
             else
               ret (failure ("Rate limited after " +:+ PyStr.of_nat max_retries
                             +:+ " attempts"))
           else raise error_str)
  end.

Definition _send_to_gemini (prompt : string) : M SizeInfo :=
  if negb (GEMINI_AVAILABLE R) then
    ret (failure "Gemini not available (google-genai not installed)")
  else
    try_except
      (match genai_Client R with
       | Raise e => raise e
       | Ok _ =>
           let max_retries := 3 in
           gemini_attempts max_retries (seq 0 max_retries) prompt
       end)
      (fun e => ret (failure e)).

Definition qwen_rate_limited (error_str : string) : bool :=
  PyStr.contains error_str "429" || PyStr.contains (PyStr.lower error_str) "rate".

(** AI_PROVIDERS["qwen"]["thinking_models"] *)
Definition thinking_models : list string := ["qwen-flash"].

Fixpoint qwen_attempts (max_retries : nat) (attempts : list nat)
    (is_thinking_model : bool) (prompt : string) : M SizeInfo :=
  match attempts with
  | [] => ret (failure "Max retries exceeded")
  | attempt :: rest =>
      try_except
        (response_text <-
           request (fun n model => chat_completions R n model prompt is_thinking_model) ;;
         ret (_parse_json_response response_text))
        (fun error_str =>
           if qwen_rate_limited error_str then
             let delay_seconds := 30 in
             if Nat.ltb attempt (max_retries - 1) then
               (sleep delay_seconds ;;;
                qwen_attempts max_retries rest is_thinking_model prompt)
             else
               ret (failure ("Rate limited after " +:+ PyStr.of_nat max_retries
                             +:+ " attempts"))
           else raise error_str)
  end.

Definition _send_to_qwen (prompt : string) : M SizeInfo :=
  if negb (PyStr.truthy (QWEN_API_KEY R)) then
    ret (failure "DASHSCOPE_API_KEY environment variable not set")
  else
    try_except
      (match qwen_Client R with
       | Raise e => raise e
       | Ok _ =>
           w <- get_world ;;
           let is_thinking_model :=
             existsb (String.eqb (current_model w)) thinking_models in
           let max_retries := 3 in
           qwen_attempts max_retries (seq 0 max_retries) is_thinking_model prompt
       end)
      (fun e => ret (failure e)).

(** The call is recorded in [parser_calls] before anything else happens. *)
Definition record_call (description : string) : M unit :=
  modify (fun w => mkWorld (current_provider w) (current_model w) (requests w)
                     (sleeps w) (parser_calls w ++ [description]) (files w)
                     (disk_fault w) (databases w) (owner_errors w)).

Definition analyze_sizes (description : string) : M SizeInfo :=
  record_call description ;;;
  if negb (PyStr.truthy description) then
    ret (failure "No description provided")
  else
    let prompt := _build_size_prompt description in
    w <- get_world ;;
    if String.eqb (current_provider w) "gemini" then _send_to_gemini prompt
    else if String.eqb (current_provider w) "qwen" then _send_to_qwen prompt
    else ret (failure ("Unknown provider: " +:+ current_provider w)).

End TalkToAi.

(** ** [yonex_site_checker]: the size delta and the diff *)

Record SizeAnalysis : Type := mkSizeAnalysis {
  old_sizes : SizeInfo;
  new_sizes : SizeInfo;
  newly_available : list string;
  newly_sold_out : list string;
  no_longer_available : list string;
  no_longer_sold_out : list string;
  has_size_changes : bool
}.

Record Modification : Type := mkModification {
  mod_image_url : string;
  old : Product;
  new : Product;
  size_analysis : option SizeAnalysis
}.

Record Changes : Type := mkChanges {
  removed : list Product;
  added : list Product;
  modified : list Modification;
  total_current : nat;
  total_previous : nat;
  current_products : Snapshot
}.

(** [changes['current_products']] *)
Definition snapshot_of (changes : Changes) : Snapshot := current_products changes.

(** Dictionary access on a snapshot. *)
Module Dict.

Definition keys (d : Snapshot) : list string := map fst d.

Fixpoint get (d : Snapshot) (k : string) : option Product :=
  match d with
  | [] => None
  | (k', p) :: r => if String.eqb k k' then Some p else get r k
  end.

(** [d[k]]: a missing key raises KeyError, whose text is the quoted key. *)
Definition item (d : Snapshot) (k : string) : M Product :=
  match get d k with
  | Some p => ret p
  | None => raise ("'" +:+ k +:+ "'")
  end.

Definition with_sizes (s : string) (p : Product) : Product :=
  mkProduct (name p) (image_url p) (description p) (original_description p)
    (price p) (Some s).

(** [d[k]['sizes'] = s] for a key of [d] *)
Fixpoint set_sizes (d : Snapshot) (k s : string) : Snapshot :=
  match d with
  | [] => []
  | (k', p) :: r =>
      if String.eqb k k' then (k', with_sizes s p) :: r
      else (k', p) :: set_sizes r k s
  end.

End Dict.

(** [set(xs)] and truth of a set *)
Definition py_set (xs : list string) : gset string := list_to_set xs.
Definition nonempty (X : gset string) : bool := bool_decide (X ≠ ∅).

(** The strings of [d.get(key, [])]: those of the list, none where the key is
    absent. *)
Definition get_list (field : Field) : list string :=
  match field with
  | Tokens xs => xs
  | _ => []
  end.

(** [set(d.get(key, []))]: the set of the strings, or the TypeError of a
    value that [set] rejects. *)
Definition set_of (field : Field) : result (gset string) :=
  match field with
  | Absent => Ok (py_set [])
  | Tokens xs => Ok (py_set xs)
  | Unsettable shown rejected => Raise rejected
  end.

Section Checker.
Context (R : Runtime).

Definition analyze_size_changes (old_description new_description : string)
    : M SizeAnalysis :=
  old_sizes <- analyze_sizes R old_description ;;
  new_sizes <- analyze_sizes R new_description ;;
  old_available <- lift (set_of (available old_sizes)) ;;
  new_available <- lift (set_of (available new_sizes)) ;;
  old_sold_out <- lift (set_of (sold_out old_sizes)) ;;
  new_sold_out <- lift (set_of (sold_out new_sizes)) ;;
  let newly_available := new_available ∖ old_available in
  let newly_sold_out := new_sold_out ∖ old_sold_out in
  let no_longer_available := old_available ∖ new_available in
  let no_longer_sold_out := old_sold_out ∖ new_sold_out in
  ret {| old_sizes := old_sizes;
         new_sizes := new_sizes;
         newly_available := set_iter R newly_available;
         newly_sold_out := set_iter R newly_sold_out;
         no_longer_available := set_iter R no_longer_available;
         no_longer_sold_out := set_iter R no_longer_sold_out;
         has_size_changes :=
           nonempty newly_available || nonempty newly_sold_out
           || nonempty no_longer_available || nonempty no_longer_sold_out |}.

(** Line 341-343: any of name, description, price differs. *)
Definition fields_differ (current previous : Product) : bool :=
  negb (String.eqb (name current) (name previous))
  || negb (String.eqb (description current) (description previous))
  || negb (String.eqb (price current) (price previous)).

Definition description_differs (current previous : Product) : bool :=
  negb (String.eqb (description current) (description previous)).

(** [p.get('original_description', p['description'])] *)
Definition text_for_sizes (p : Product) : string :=
  default (description p) (original_description p).

(** Lines 335-363.  [modification['new']] is the very object held in
    [current_products], so the later assignment to its [sizes] shows in the
    modification too. *)
Fixpoint modified_loop (previous_products : Snapshot) (images : list string)
    (current_products : Snapshot) (modified_products : list Modification)
    : M (Snapshot * list Modification) :=
  match images with
  | [] => ret (current_products, modified_products)
  | image_url :: rest =>
      current <- Dict.item current_products image_url ;;
      previous <- Dict.item previous_products image_url ;;
      if fields_differ current previous then
        if description_differs current previous then
          let old_desc := text_for_sizes previous in
          let new_desc := text_for_sizes current in
          size_analysis <- analyze_size_changes old_desc new_desc ;;
          let sizes := json_dumps R (new_sizes size_analysis) in
          let current_products := Dict.set_sizes current_products image_url sizes in
          let modification :=
            {| mod_image_url := image_url; old := previous;
               new := Dict.with_sizes sizes current;
               size_analysis := Some size_analysis |} in
          modified_loop previous_products rest current_products
            (modified_products ++ [modification])
        else
          let modification :=
            {| mod_image_url := image_url; old := previous; new := current;
               size_analysis := None |} in
          modified_loop previous_products rest current_products
            (modified_products ++ [modification])
      else modified_loop previous_products rest current_products modified_products
  end.

(** [{"available": [], "sold_out": []}] *)
Definition no_sizes : SizeInfo :=
  {| available := Tokens []; sold_out := Tokens []; error := None |}.

(** [product.get('original_description')] is true *)
Definition has_original_description (p : Product) : bool :=
  match original_description p with
  | Some d => PyStr.truthy d
  | None => false
  end.

(** Lines 366-378. *)
Fixpoint added_loop (images : list string) (current_products : Snapshot)
    (added_products_list : list Product) : M (Snapshot * list Product) :=
  match images with
  | [] => ret (current_products, added_products_list)
  | img :: rest =>
      product <- Dict.item current_products img ;;
      sizes <-
        (if has_original_description product then
           size_analysis <- analyze_sizes R (default "" (original_description product)) ;;
           ret (json_dumps R size_analysis)
         else ret (json_dumps R no_sizes)) ;;
      let product := Dict.with_sizes sizes product in
      let current_products := Dict.set_sizes current_products img sizes in
      added_loop rest current_products (added_products_list ++ [product])
  end.

(** Line 381: [[previous_products[img] for img in removed_images]] *)
Fixpoint removed_list (previous_products : Snapshot) (images : list string)
    : M (list Product) :=
  match images with
  | [] => ret []
  | img :: rest =>
      p <- Dict.item previous_products img ;;
      ps <- removed_list previous_products rest ;;
      ret (p :: ps)
  end.

(** Lines 326-387 of [analyze_product_changes]: the comparison proper. *)
Definition compare_snapshots (previous_products current_products : Snapshot)
    : M Changes :=
  let current_images := py_set (Dict.keys current_products) in
  let previous_images := py_set (Dict.keys previous_products) in
  let removed_images := previous_images ∖ current_images in
  let added_images := current_images ∖ previous_images in
  let common_images := current_images ∩ previous_images in
  r <- modified_loop previous_products (set_iter R common_images)
         current_products [] ;;
  let '(current_products, modified_products) := r in
  r <- added_loop (set_iter R added_images) current_products [] ;;
  let '(current_products, added_products_list) := r in
  removed <- removed_list previous_products (set_iter R removed_images) ;;
  ret {| removed := removed;
         added := added_products_list;
         modified := modified_products;
         total_current := length current_products;
         total_previous := length previous_products;
         current_products := current_products |}.

End Checker.

(** ** Persistence of the snapshot and the enclosing function *)

Definition with_files (f : gmap string string) (w : World) : World :=
  mkWorld (current_provider w) (current_model w) (requests w) (sleeps w)
    (parser_calls w) f (disk_fault w) (databases w) (owner_errors w).

Definition with_databases (d : gmap string (list Row)) (w : World) : World :=
  mkWorld (current_provider w) (current_model w) (requests w) (sleeps w)
    (parser_calls w) (files w) (disk_fault w) d (owner_errors w).

(** [open(path, 'w')]: the file exists and is empty from here on. *)
Definition open_for_writing (path : string) : M unit :=
  modify (fun w => with_files (<[path := ""]> (files w)) w).

(** Writing [text] at the end of the file.  When the device accepts fewer
    characters than [text] has, those reach the file and the write raises. *)
Definition file_write (path text : string) : M unit :=
  fun w =>
    let before := default "" (files w !! path) in
    match disk_fault w with
    | Some n =>
        if Nat.ltb n (String.length text) then
          (Raise "[Errno 28] No space left on device",
           with_files (<[path := before +:+ PyStr.slice text 0 n]> (files w)) w)
        else (Ok tt, with_files (<[path := before +:+ text]> (files w)) w)
    | None => (Ok tt, with_files (<[path := before +:+ text]> (files w)) w)
    end.

(** [notifier.send_error_to_owner(error_msg)] as far as the checker sees it. *)
Definition send_error_to_owner (error_msg : string) : M unit :=
  modify (fun w => mkWorld (current_provider w) (current_model w) (requests w)
                     (sleeps w) (parser_calls w) (files w) (disk_fault w)
                     (databases w) (owner_errors w ++ [error_msg])).

Section Persistence.
Context (R : Runtime).

(** HISTORY_DIR / f"{site_name}_products.json" *)
Definition history_file (site_name : string) : string :=
  "yonex_data/history/" +:+ site_name +:+ "_products.json".

(** Lines 319-324. *)
Definition load_previous (site_name : string) : M Snapshot :=
  w <- get_world ;;
  match files w !! history_file site_name with
  | Some text => lift (json_load_snapshot R text)
  | None => ret []
  end.

(** Lines 389-392. *)
Definition save_current (site_name : string) (current_products : Snapshot) : M unit :=
  open_for_writing (history_file site_name) ;;;
  file_write (history_file site_name) (json_dump_snapshot R current_products).

Definition no_changes : Changes :=
  {| removed := []; added := []; modified := []; total_current := 0;
     total_previous := 0; current_products := [] |}.

Definition analyze_product_changes (url site_name : string) : M Changes :=
  try_except
    (current_products <- lift (get_products_with_image_ids R url) ;;
     previous_products <- load_previous site_name ;;
     changes <- compare_snapshots R previous_products current_products ;;
     save_current site_name (snapshot_of changes) ;;;
     ret changes)
    (fun e =>
       let error_msg := "Error analyzing changes for " +:+ site_name +:+ ": " +:+ e in
       send_error_to_owner error_msg ;;;
       ret no_changes).

End Persistence.

(** ** [products_into_db.Product_into_db.store_products_from_dict] *)

Section Database.
Context (R : Runtime).

(** DB_DIR / f"{category_name}_products.db" *)
Definition db_path (category_name : string) : string :=
  "yonex_data/databases/" +:+ category_name +:+ "_products.db".

(** [init_db]: the table exists afterwards; existing rows stay. *)
Definition init_db (path : string) : M unit :=
  modify (fun w =>
    match databases w !! path with
    | Some _ => w
    | None => with_databases (<[path := []]> (databases w)) w
    end).

(** The row id SQLite gives to a row inserted without one. *)
Definition next_id (rows : list Row) : nat :=
  S (foldr Nat.max 0 (map row_id rows)).

(** json.dumps({"available": [], "sold_out": [], "note": "Size analysis pending"}) *)
Definition pending_sizes : string :=
  quoted "{`available`: [], `sold_out`: [], `note`: `Size analysis pending`}".

(** Lines 157-178: one INSERT. *)
Definition insert_product (category_name : string) (rows : list Row)
    (entry : string * Product) : list Row :=
  let '(image_url, product_data) := entry in
  (* product_data.get('original_description', product_data.get('description', '')) *)
  let description_text :=
    default (description product_data) (original_description product_data) in
  let sizes_json :=
    match sizes product_data with
    | Some s => if PyStr.truthy s then s else pending_sizes
    | None => pending_sizes
    end in
  rows ++ [ {| row_id := next_id rows;
               row_name := name product_data;
               row_pic_url := image_url;
               row_description := description_text;
               row_price := price product_data;
               row_sizes := sizes_json;
               row_type := category_name;
               row_last_seen := CURRENT_TIMESTAMP R |} ].

Definition store_products_from_dict (products_dict : Snapshot)
    (category_name : string) : M unit :=
  try_except
    (match products_dict with
     | [] => ret tt
     | _ =>
         let path := db_path category_name in
         init_db path ;;;
         modify (fun w =>
           let rows := default [] (databases w !! path) in
           (* DELETE FROM products WHERE type = ? *)
           let rows :=
             filter (fun r => negb (String.eqb (row_type r) category_name)) rows in
           let rows := fold_left (insert_product category_name) products_dict rows in
           with_databases (<[path := rows]> (databases w)) w)
     end)
    (fun e => ret tt).

End Database.

(** ** Reports: the message for subscribers and the master log *)

(** [repr] of a string and [str] of a list of strings. *)
Module PyRepr.

Definition hex_digit (n : nat) : ascii :=
  if Nat.ltb n 10 then ascii_of_nat (48 + n) else ascii_of_nat (87 + n).

Definition escape (quote c : ascii) : string :=
  let n := PyStr.code c in
  if Ascii.eqb c "\" then "\\"
  else if Ascii.eqb c quote then String "\" (String c "")
  else if Nat.eqb n 9 then "\t"
  else if Nat.eqb n 10 then "\n"
  else if Nat.eqb n 13 then "\r"
  else if Nat.ltb n 32 || Nat.eqb n 127
  then String "\" (String "x" (String (hex_digit (n / 16)) (String (hex_digit (n mod 16)) "")))
  else String c "".

Fixpoint escape_all (quote : ascii) (s : string) : string :=
  match s with
  | EmptyString => EmptyString
  | String c r => escape quote c +:+ escape_all quote r
  end.

Definition str (s : string) : string :=
  let quote :=
    if PyStr.contains s "'" && negb (PyStr.contains s (String dq ""))
    then dq else "'"%char in
  String quote (escape_all quote s) +:+ String quote "".

Definition list (xs : list string) : string :=
  "[" +:+ PyStr.join ", " (map str xs) +:+ "]".

End PyRepr.

(** [str] of [d.get(key, [])], as an f-string prints it. *)
Definition field_str (field : Field) : string :=
  match field with
  | Absent => PyRepr.list []
  | Tokens xs => PyRepr.list xs
  | Unsettable shown rejected => shown
  end.

Definition nl : string := String "010" "".
Definition rule (c : ascii) (n : nat) : string := PyStr.repeat_char c n.
Definition differs (a b : string) : bool := negb (String.eqb a b).
Definition some {A} (xs : list A) : bool := match xs with [] => false | _ => true end.

(** Line 405 and line 585: [not any([removed, added, modified])] is false. *)
Definition any_changes (changes : Changes) : bool :=
  some (removed changes) || some (added changes) || some (modified changes).

(** [send_notifications_for_changes], lines 411-505: the list [lines]. *)
Module Message.

Definition removed_item (i : nat) (product : Product) : list string :=
  [ ("REMOVED #" +:+ PyStr.of_nat i +:+ ":");
    ("  Name: " +:+ name product);
    ("  Price: " +:+ price product);
    ("  Image URL: " +:+ image_url product);
    ("  Description: " +:+ description product);
    rule "-" 30 ].

Definition added_item (i : nat) (product : Product) : list string :=
  [ ("NEW #" +:+ PyStr.of_nat i +:+ ":");
    ("  Name: " +:+ name product);
    ("  Price: " +:+ price product);
    ("  Image URL: " +:+ image_url product);
    ("  Description: " +:+ description product);
    rule "-" 30 ].

Definition name_part (m : Modification) : list string :=
  if differs (name (old m)) (name (new m))
  then [ "  ❌ NAME CHANGED:"; ("     OLD: " +:+ name (old m)); ("     NEW: " +:+ name (new m)) ]
  else [ ("  ✅ Name (unchanged): " +:+ name (new m)) ].

Definition price_part (m : Modification) : list string :=
  if differs (price (old m)) (price (new m))
  then [ "  ❌ PRICE CHANGED:"; ("     OLD: " +:+ price (old m)); ("     NEW: " +:+ price (new m)) ]
  else [ ("  ✅ Price (unchanged): " +:+ price (new m)) ].

Definition description_part (m : Modification) : list string :=
  if differs (description (old m)) (description (new m))
  then [ "  ❌ DESCRIPTION CHANGED:";
         ("     OLD: " +:+ description (old m));
         ("     NEW: " +:+ description (new m)) ]
  else [ ("  ✅ Description (unchanged): " +:+ PyStr.slice (description (new m)) 0 100 +:+ "...") ].

Definition size_part (m : Modification) : list string :=
  match size_analysis m with
  | Some sa =>
      if has_size_changes sa then
        [ "  🧠 SIZE CHANGES DETECTED:" ]
        ++ (if some (newly_available sa) then [ ("     ✅ Newly Available: " +:+ PyRepr.list (newly_available sa)) ] else [])
        ++ (if some (newly_sold_out sa) then [ ("     ❌ Newly Sold Out: " +:+ PyRepr.list (newly_sold_out sa)) ] else [])
        ++ (if some (no_longer_available sa) then [ ("     ⚠️ No Longer Available: " +:+ PyRepr.list (no_longer_available sa)) ] else [])
        ++ (if some (no_longer_sold_out sa) then [ ("     🔄 No Longer Sold Out: " +:+ PyRepr.list (no_longer_sold_out sa)) ] else [])
        ++ [ ("     OLD Sizes - Available: " +:+ field_str (available (old_sizes sa)));
             ("     OLD Sizes - Sold Out: " +:+ field_str (sold_out (old_sizes sa)));
             ("     NEW Sizes - Available: " +:+ field_str (available (new_sizes sa)));
             ("     NEW Sizes - Sold Out: " +:+ field_str (sold_out (new_sizes sa))) ]
      else [ "  ✅ Size availability unchanged" ]
  | None => []
  end.

Definition modified_item (i : nat) (m : Modification) : list string :=
  [ ("MODIFIED #" +:+ PyStr.of_nat i +:+ " - Image: " +:+ mod_image_url m) ]
  ++ name_part m ++ price_part m ++ description_part m ++ size_part m
  ++ [ ("  ✅ Image URL: " +:+ image_url (new m)); rule "-" 30 ].

Definition lines (changes : Changes) (site_name timestamp : string) : list string :=
  [ rule "=" 50;
    ("PRODUCT CHANGES DETECTED - " +:+ PyStr.upper site_name);
    ("Timestamp: " +:+ timestamp);
    ("Total Products: " +:+ PyStr.of_nat (total_previous changes) +:+ " → " +:+ PyStr.of_nat (total_current changes));
    rule "=" 50 ]
  ++ (if some (removed changes)
      then [ (nl +:+ "🗑️  REMOVED PRODUCTS (" +:+ PyStr.of_nat (length (removed changes)) +:+ "):");
             rule "-" 40 ]
           ++ concat (imap (fun i product => removed_item (S i) product) (removed changes))
      else [])
  ++ (if some (added changes)
      then [ (nl +:+ "🆕 NEW PRODUCTS (" +:+ PyStr.of_nat (length (added changes)) +:+ "):");
             rule "-" 40 ]
           ++ concat (imap (fun i product => added_item (S i) product) (added changes))
      else [])
  ++ (if some (modified changes)
      then [ (nl +:+ "🔄 MODIFIED PRODUCTS (" +:+ PyStr.of_nat (length (modified changes)) +:+ "):");
             rule "-" 40 ]
           ++ concat (imap (fun i m => modified_item (S i) m) (modified changes))
      else [])
  ++ [ (nl +:+ "End of changes for " +:+ site_name +:+ " at " +:+ timestamp); rule "=" 50 ].

(** Line 508 *)
Definition full_message (changes : Changes) (site_name timestamp : string) : string :=
  PyStr.join nl (lines changes site_name timestamp).

End Message.

(** [Notifier.send_notification], line 101 of telegram_notifier.py: the text
    posted to every subscriber. *)
Definition telegram_message (title body : string) : string :=
  "<b>" +:+ title +:+ "</b>" +:+ nl +:+ nl +:+ body.

(** The text delivered for a change set, [None] when line 405 returns.
    [timestamp] is the clock as read on line 408. *)
Definition send_notifications_for_changes (changes : Changes)
    (site_name timestamp : string) : option string :=
  if negb (any_changes changes) then None
  else Some (telegram_message ("🔔 Yonex " +:+ PyStr.upper site_name +:+ " Update")
               (Message.full_message changes site_name timestamp)).

(** [log_changes], lines 598-693: the arguments of [f.write] in order. *)
Module Log.

Definition removed_item (i : nat) (product : Product) : list string :=
  [ ("REMOVED #" +:+ PyStr.of_nat i +:+ ":" +:+ nl);
    ("  Name: " +:+ name product +:+ nl);
    ("  Price: " +:+ price product +:+ nl);
    ("  Image URL: " +:+ image_url product +:+ nl);
    ("  Description: " +:+ description product +:+ nl);
    rule "-" 40 +:+ nl ].

Definition added_item (i : nat) (product : Product) : list string :=
  [ ("NEW #" +:+ PyStr.of_nat i +:+ ":" +:+ nl);
    ("  Name: " +:+ name product +:+ nl);
    ("  Price: " +:+ price product +:+ nl);
    ("  Image URL: " +:+ image_url product +:+ nl);
    ("  Description: " +:+ description product +:+ nl);
    rule "-" 40 +:+ nl ].

Definition name_part (m : Modification) : list string :=
  if differs (name (old m)) (name (new m))
  then [ ("  ❌ NAME CHANGED:" +:+ nl);
         ("     OLD: " +:+ name (old m) +:+ nl);
         ("     NEW: " +:+ name (new m) +:+ nl) ]
  else [ ("  ✅ Name (unchanged): " +:+ name (new m) +:+ nl) ].

Definition price_part (m : Modification) : list string :=
  if differs (price (old m)) (price (new m))
  then [ ("  ❌ PRICE CHANGED:" +:+ nl);
         ("     OLD: " +:+ price (old m) +:+ nl);
         ("     NEW: " +:+ price (new m) +:+ nl) ]
  else [ ("  ✅ Price (unchanged): " +:+ price (new m) +:+ nl) ].

Definition description_part (m : Modification) : list string :=
  if differs (description (old m)) (description (new m))
  then [ ("  ❌ DESCRIPTION CHANGED:" +:+ nl);
         ("     OLD: " +:+ description (old m) +:+ nl);
         ("     NEW: " +:+ description (new m) +:+ nl) ]
  else [ ("  ✅ Description (unchanged): " +:+ PyStr.slice (description (new m)) 0 100 +:+ "..." +:+ nl) ].

Definition size_part (m : Modification) : list string :=
  match size_analysis m with
  | Some sa =>
      if has_size_changes sa then
        [ ("  🧠 SIZE CHANGES DETECTED:" +:+ nl) ]
        ++ (if some (newly_available sa) then [ ("     ✅ Newly Available: " +:+ PyRepr.list (newly_available sa) +:+ nl) ] else [])
        ++ (if some (newly_sold_out sa) then [ ("     ❌ Newly Sold Out: " +:+ PyRepr.list (newly_sold_out sa) +:+ nl) ] else [])
        ++ (if some (no_longer_available sa) then [ ("     ⚠️ No Longer Available: " +:+ PyRepr.list (no_longer_available sa) +:+ nl) ] else [])
        ++ (if some (no_longer_sold_out sa) then [ ("     🔄 No Longer Sold Out: " +:+ PyRepr.list (no_longer_sold_out sa) +:+ nl) ] else [])
        ++ [ ("     OLD Sizes - Available: " +:+ field_str (available (old_sizes sa)) +:+ nl);
             ("     OLD Sizes - Sold Out: " +:+ field_str (sold_out (old_sizes sa)) +:+ nl);
             ("     NEW Sizes - Available: " +:+ field_str (available (new_sizes sa)) +:+ nl);
             ("     NEW Sizes - Sold Out: " +:+ field_str (sold_out (new_sizes sa)) +:+ nl) ]
      else [ ("  ✅ Size availability unchanged" +:+ nl) ]
  | None => []
  end.

Definition modified_item (i : nat) (m : Modification) : list string :=
  [ ("MODIFIED #" +:+ PyStr.of_nat i +:+ " - Image: " +:+ mod_image_url m +:+ nl) ]
  ++ name_part m ++ price_part m ++ description_part m ++ size_part m
  ++ [ ("  ✅ Image URL: " +:+ image_url (new m) +:+ nl); rule "-" 40 +:+ nl ].

Definition writes (changes : Changes) (site_name timestamp : string) : list string :=
  [ (nl +:+ rule "=" 80 +:+ nl);
    ("PRODUCT CHANGES DETECTED - " +:+ PyStr.upper site_name +:+ nl);
    ("Timestamp: " +:+ timestamp +:+ nl);
    ("Total Products: " +:+ PyStr.of_nat (total_previous changes) +:+ " → " +:+ PyStr.of_nat (total_current changes) +:+ nl);
    (rule "=" 80 +:+ nl) ]
  ++ (if some (removed changes)
      then [ (nl +:+ "🗑️  REMOVED PRODUCTS (" +:+ PyStr.of_nat (length (removed changes)) +:+ "):" +:+ nl);
             rule "-" 60 +:+ nl ]
           ++ concat (imap (fun i product => removed_item (S i) product) (removed changes))
      else [])
  ++ (if some (added changes)
      then [ (nl +:+ "🆕 NEW PRODUCTS (" +:+ PyStr.of_nat (length (added changes)) +:+ "):" +:+ nl);
             rule "-" 60 +:+ nl ]
           ++ concat (imap (fun i product => added_item (S i) product) (added changes))
      else [])
  ++ (if some (modified changes)
      then [ (nl +:+ "🔄 MODIFIED PRODUCTS (" +:+ PyStr.of_nat (length (modified changes)) +:+ "):" +:+ nl);
             rule "-" 60 +:+ nl ]
           ++ concat (imap (fun i m => modified_item (S i) m) (modified changes))
      else [])
  ++ [ (nl +:+ "End of changes for " +:+ site_name +:+ " at " +:+ timestamp +:+ nl);
       (rule "=" 80 +:+ nl) ].

End Log.

(** Concatenation of the written pieces. *)
Definition written (pieces : list string) : string := foldr String.append "" pieces.

(** The text appended to the master log for a change set, [None] when
    line 585 returns.  [timestamp] is the clock as read on line 594. *)
Definition log_changes (changes : Changes) (site_name timestamp : string)
    : option string :=
  if negb (any_changes changes) then None
  else Some (written (Log.writes changes site_name timestamp)).

(** ** Vocabulary of the statements *)

(** What a model request may change: the request counter and the sleep log. *)
Definition ai_step (w w' : World) : Prop :=
  current_provider w' = current_provider w /\ current_model w' = current_model w
  /\ parser_calls w' = parser_calls w /\ files w' = files w
  /\ disk_fault w' = disk_fault w /\ databases w' = databases w
  /\ owner_errors w' = owner_errors w.

(** What a call of the size parser may change: it adds its argument to the
    call log, and may advance the request counter and the sleep log. *)
Definition parser_step (description : string) (w w' : World) : Prop :=
  current_provider w' = current_provider w /\ current_model w' = current_model w
  /\ parser_calls w' = (parser_calls w ++ [description])%list /\ files w' = files w
  /\ disk_fault w' = disk_fault w /\ databases w' = databases w
  /\ owner_errors w' = owner_errors w.

Section Outcomes.
Context (R : Runtime).

(** An exception text that one of the two clients produced. *)
Definition oracle_raises (msg : string) : Prop :=
  genai_Client R = Raise msg \/ qwen_Client R = Raise msg
  \/ (exists n model prompt, generate_content R n model prompt = Raise msg)
  \/ (exists n model prompt streaming,
        chat_completions R n model prompt streaming = Raise msg).

(** The three kinds of result: a decoded answer, a failure with a text of the
    program, a failure with the text of a client exception. *)
Inductive size_outcome : SizeInfo -> Prop :=
  | outcome_answer text v : json_loads R text = Ok v -> size_outcome v
  | outcome_failure msg : msg <> "" -> size_outcome (failure msg)
  | outcome_raised msg : oracle_raises msg -> size_outcome (failure msg).

Definition settled (r : result SizeInfo) : Prop :=
  match r with
  | Ok v => size_outcome v
  | Raise e => oracle_raises e
  end.

(** The client of the provider set in [w]: none where the provider is unknown,
    the Gemini package is missing or the Qwen key is empty; otherwise what
    making the client gives. *)
Definition client_of (w : World) : option (result unit) :=
  if String.eqb (current_provider w) "gemini" then
    if GEMINI_AVAILABLE R then Some (genai_Client R) else None
  else if String.eqb (current_provider w) "qwen" then
    if PyStr.truthy (QWEN_API_KEY R) then Some (qwen_Client R) else None
  else None.

(** What the model gives to the request number [k] (0, 1, 2) of an analysis
    that starts in [w]. *)
Definition attempt (w : World) (prompt : string) (k : nat) : result string :=
  if String.eqb (current_provider w) "gemini"
  then generate_content R (k + requests w) (current_model w) prompt
  else chat_completions R (k + requests w) (current_model w) prompt
         (existsb (String.eqb (current_model w)) thinking_models).

(** The test for a rate limit that the provider's loop applies to an error. *)
Definition rate_limit (w : World) (error_str : string) : bool :=
  if String.eqb (current_provider w) "gemini"
  then gemini_rate_limited error_str
  else qwen_rate_limited error_str.

(** The request number [k] fails with a rate limit. *)
Definition limited (w : World) (prompt : string) (k : nat) : Prop :=
  exists e, attempt w prompt k = Raise e /\ rate_limit w e = true.

End Outcomes.

(** A dictionary whose [available] and [sold_out] pass through [set]. *)
Definition settable (v : SizeInfo) : bool :=
  match available v, sold_out v with
  | Unsettable _ _, _ | _, Unsettable _ _ => false
  | _, _ => true
  end.

(** The decoder gives lists: in every object it decodes, [available] and
    [sold_out] are absent or lists of strings. *)
Definition answers_are_lists (R : Runtime) : Prop :=
  forall text v, json_loads R text = Ok v -> settable v = true.

Section Runs.
Context (R : Runtime).

(** The size delta of two parse results, as [analyze_size_changes] builds it. *)
Definition delta_of (o n : SizeInfo) : SizeAnalysis :=
  let old_available := py_set (get_list (available o)) in
  let new_available := py_set (get_list (available n)) in
  let old_sold_out := py_set (get_list (sold_out o)) in
  let new_sold_out := py_set (get_list (sold_out n)) in
  {| old_sizes := o;
     new_sizes := n;
     newly_available := set_iter R (new_available ∖ old_available);
     newly_sold_out := set_iter R (new_sold_out ∖ old_sold_out);
     no_longer_available := set_iter R (old_available ∖ new_available);
     no_longer_sold_out := set_iter R (old_sold_out ∖ new_sold_out);
     has_size_changes :=
       nonempty (new_available ∖ old_available) || nonempty (new_sold_out ∖ old_sold_out)
       || nonempty (old_available ∖ new_available) || nonempty (old_sold_out ∖ new_sold_out) |}.

(** Two parser calls, one after the other, and their delta. *)
Definition parsed_pair (old_description new_description : string)
    (w : World) (sa : SizeAnalysis) (w' : World) : Prop :=
  exists w1,
    analyze_sizes R old_description w = (Ok (old_sizes sa), w1)
    /\ analyze_sizes R new_description w1 = (Ok (new_sizes sa), w')
    /\ settable (old_sizes sa) = true /\ settable (new_sizes sa) = true
    /\ sa = delta_of (old_sizes sa) (new_sizes sa).

(** The analyses that a list of modifications carries, made one after the
    other in the order of the list, from the world [w] on: a modification
    whose description did not change carries none and leaves the world as it
    is; one whose description changed carries the delta of two parser calls,
    the first made in the world the modifications before it left. *)
Inductive size_trace : World -> list Modification -> World -> Prop :=
  | trace_done w : size_trace w [] w
  | trace_plain w m ms w' :
      description (old m) = description (new m) ->
      size_analysis m = None ->
      size_trace w ms w' ->
      size_trace w (m :: ms) w'
  | trace_parsed w m sa w1 ms w' :
      description (old m) <> description (new m) ->
      size_analysis m = Some sa ->
      parsed_pair (text_for_sizes (old m)) (text_for_sizes (new m)) w sa w1 ->
      size_trace w1 ms w' ->
      size_trace w (m :: ms) w'.

Variables previous_products current_products : Snapshot.

(** One pass of the loop over the common keys, as a derivation: which
    modifications it appends and how the world moves. *)
Inductive modified_run : list string -> World -> list Modification -> World -> Prop :=
  | run_done w : modified_run [] w [] w
  | run_same image_url rest w ms w' current previous :
      Dict.get current_products image_url = Some current ->
      Dict.get previous_products image_url = Some previous ->
      fields_differ current previous = false ->
      modified_run rest w ms w' ->
      modified_run (image_url :: rest) w ms w'
  | run_other_field image_url rest w ms w' current previous :
      Dict.get current_products image_url = Some current ->
      Dict.get previous_products image_url = Some previous ->
      fields_differ current previous = true ->
      description_differs current previous = false ->
      modified_run rest w ms w' ->
      modified_run (image_url :: rest) w
        ({| mod_image_url := image_url; old := previous; new := current;
            size_analysis := None |} :: ms) w'
  | run_description image_url rest w w1 ms w' current previous sa :
      Dict.get current_products image_url = Some current ->
      Dict.get previous_products image_url = Some previous ->
      fields_differ current previous = true ->
      description_differs current previous = true ->
      parsed_pair (text_for_sizes previous) (text_for_sizes current) w sa w1 ->
      modified_run rest w1 ms w' ->
      modified_run (image_url :: rest) w
        ({| mod_image_url := image_url; old := previous;
            new := Dict.with_sizes (json_dumps R (new_sizes sa)) current;
            size_analysis := Some sa |} :: ms) w'.

(** One pass of the loop over the added keys. *)
Inductive added_run : list string -> World -> list Product -> World -> Prop :=
  | added_done w : added_run [] w [] w
  | added_parsed img rest w w1 ps w' product size_analysis :
      Dict.get current_products img = Some product ->
      has_original_description product = true ->
      analyze_sizes R (default "" (original_description product)) w
        = (Ok size_analysis, w1) ->
      added_run rest w1 ps w' ->
      added_run (img :: rest) w
        (Dict.with_sizes (json_dumps R size_analysis) product :: ps) w'
  | added_plain img rest w ps w' product :
      Dict.get current_products img = Some product ->
      has_original_description product = false ->
      added_run rest w ps w' ->
      added_run (img :: rest) w
        (Dict.with_sizes (json_dumps R no_sizes) product :: ps) w'.

(** The three key sets of lines 327-332. *)
Definition common_images : gset string :=
  py_set (Dict.keys current_products) ∩ py_set (Dict.keys previous_products).
Definition added_images : gset string :=
  py_set (Dict.keys current_products) ∖ py_set (Dict.keys previous_products).
Definition removed_images : gset string :=
  py_set (Dict.keys previous_products) ∖ py_set (Dict.keys current_products).

(** What the loop records for one modification. *)
Definition recorded (m : Modification) : Prop :=
  exists current,
    Dict.get current_products (mod_image_url m) = Some current
    /\ Dict.get previous_products (mod_image_url m) = Some (old m)
    /\ fields_differ current (old m) = true
    /\ ((description_differs current (old m) = false
         /\ new m = current /\ size_analysis m = None)
        \/ (description_differs current (old m) = true
            /\ exists sa w1 w2,
                 size_analysis m = Some sa
                 /\ new m = Dict.with_sizes (json_dumps R (new_sizes sa)) current
                 /\ parsed_pair (text_for_sizes (old m)) (text_for_sizes current) w1 sa w2)).

End Runs.

(** Parser calls a modification and an added entry stand for. *)
Definition calls_of_modification (m : Modification) : list string :=
  if description_differs (new m) (old m)
  then [text_for_sizes (old m); text_for_sizes (new m)]
  else [].

Definition calls_of_added (p : Product) : list string :=
  if has_original_description p then [default "" (original_description p)] else [].

(** A common key whose entries differ in name, description or price. *)
Definition changed_at (previous_products current_products : Snapshot) (k : string) : bool :=
  match Dict.get current_products k, Dict.get previous_products k with
  | Some current, Some previous => fields_differ current previous
  | _, _ => false
  end.

(** The rule the log draws where the message draws [line]; other lines stay. *)
Definition widen (line : string) : string :=
  if String.eqb line (rule "=" 50) then rule "=" 80
  else if String.eqb line (rule "-" 40) then rule "-" 60
  else if String.eqb line (rule "-" 30) then rule "-" 40
  else line.

(** A line of the message as the log writes it. *)
Definition logged (line : string) : string := widen line +:+ nl.


(** ** A small concrete runtime, used to run the embedding on examples *)

Module Demo.

(** Two answers a model may give, and a decoder that knows them. *)
Definition answer_L_sold_out : string :=
  quoted "{`available`:[`S`,`M`],`sold_out`:[`L`]}".
Definition answer_complete : string :=
  quoted "{`available`:[`S`,`M`,`L`],`sold_out`:[]}".

Definition known_answers : list (string * SizeInfo) :=
  [ (answer_L_sold_out,
     {| available := Tokens ["S"; "M"]; sold_out := Tokens ["L"]; error := None |});
    (answer_complete,
     {| available := Tokens ["S"; "M"; "L"]; sold_out := Tokens []; error := None |});
    ("{}", {| available := Absent; sold_out := Absent; error := None |}) ].

Definition loads (text : string) : result SizeInfo :=
  match find (fun kv => String.eqb text (fst kv)) known_answers with
  | Some kv => Ok (snd kv)
  | None =>
      if existsb (fun kv => PyStr.startswith text (fst kv)) known_answers
      then Raise "Extra data"
      else Raise "Expecting value: line 1 column 1 (char 0)"
  end.

(** An answer wrapped in prose that has braces of its own. *)
Definition answer_in_prose : string :=
  "Here: " +:+ answer_L_sold_out +:+ " (sizes in {EU})".

Definition dumps_list (xs : list string) : string :=
  "[" +:+ PyStr.join ", " (map (fun x => String dq x +:+ String dq "") xs) +:+ "]".

Definition dumps_field (key : string) (field : Field) : list string :=
  match field with
  | Absent => []
  | Tokens xs => [key +:+ dumps_list xs]
  | Unsettable shown rejected => [key +:+ "null"]
  end.

Definition dumps (v : SizeInfo) : string :=
  "{" +:+ PyStr.join ", "
    (dumps_field (quoted "`available`: ") (available v)
     ++ dumps_field (quoted "`sold_out`: ") (sold_out v)
     ++ match error v with Some e => [quoted "`error`: `" +:+ e +:+ String dq ""] | None => [] end)
  +:+ "}".

Definition dump_entry (e : string * Product) : string :=
  String dq (fst e) +:+ quoted "`: {`name`: `" +:+ name (snd e)
  +:+ quoted "`, `description`: `" +:+ description (snd e)
  +:+ quoted "`, `price`: `" +:+ price (snd e) +:+ quoted "`}".

Definition dump_snapshot (s : Snapshot) : string :=
  "{" +:+ PyStr.join ", " (map dump_entry s) +:+ "}".

Definition shirt : Product :=
  {| name := "shirt 10512"; image_url := "/img/10512.jpg";
     description := "s, m, l (=komplett)";
     original_description := Some "S, M, L (=komplett)";
     price := "chf 59.00"; sizes := None |}.

Definition shirt_L_gone : Product :=
  {| name := "shirt 10512"; image_url := "/img/10512.jpg";
     description := "s, m, l (=nur ausverkauft in l)";
     original_description := Some "S, M, L (=nur ausverkauft in L)";
     price := "chf 59.00"; sizes := None |}.

Definition shirt_cheaper : Product :=
  {| name := "shirt 10512"; image_url := "/img/10512.jpg";
     description := "s, m, l (=komplett)";
     original_description := Some "S, M, L (=komplett)";
     price := "chf 49.00"; sizes := None |}.

Definition shoe : Product :=
  {| name := "shb 65z"; image_url := "/img/65z.jpg";
     description := "40-45 (=komplett)";
     original_description := Some "40-45 (=komplett)";
     price := "chf 179.00"; sizes := None |}.

Definition shoe_cheaper : Product :=
  {| name := "shb 65z"; image_url := "/img/65z.jpg";
     description := "40-45 (=komplett)";
     original_description := Some "40-45 (=komplett)";
     price := "chf 159.00"; sizes := None |}.

Definition cap : Product :=
  {| name := "cap"; image_url := "/img/cap.jpg"; description := "";
     original_description := Some ""; price := "chf 19.00"; sizes := None |}.

Definition cap_cheaper : Product :=
  {| name := "cap"; image_url := "/img/cap.jpg"; description := "";
     original_description := Some ""; price := "chf 15.00"; sizes := None |}.

Definition yesterday : Snapshot :=
  [("/img/10512.jpg", shirt); ("/img/65z.jpg", shoe)].
Definition today : Snapshot :=
  [("/img/10512.jpg", shirt_L_gone); ("/img/65z.jpg", shoe_cheaper); ("/img/cap.jpg", cap)].
Definition summer : Snapshot :=
  [("/img/10512.jpg", shirt); ("/img/cap.jpg", cap)].
Definition summer_sale : Snapshot :=
  [("/img/10512.jpg", shirt_cheaper); ("/img/cap.jpg", cap_cheaper)].

Definition load_snapshot (text : string) : result Snapshot :=
  if String.eqb text (dump_snapshot yesterday) then Ok yesterday
  else if String.eqb text (dump_snapshot today) then Ok today
  else if String.eqb text "{}" then Ok []
  else Raise "Expecting value: line 1 column 1 (char 0)".

(** The model answers by the description at the end of the prompt. *)
Definition answer (n : nat) (model prompt : string) : result string :=
  if String.eqb prompt (_build_size_prompt "S, M, L (=komplett)")
  then Ok answer_complete
  else if String.eqb prompt (_build_size_prompt "S, M, L (=nur ausverkauft in L)")
  then Ok ("```json" +:+ String "010" answer_L_sold_out +:+ String "010" "```")
  else Ok "I could not find any sizes.".

Definition runtime (fetched : result Snapshot) : Runtime :=
  {| set_iter := elements;
     set_iter_perm := fun X => reflexivity (elements X);
     json_loads := loads;
     json_dumps := dumps;
     json_load_snapshot := load_snapshot;
     json_dump_snapshot := dump_snapshot;
     GEMINI_AVAILABLE := true;
     genai_Client := Ok tt;
     generate_content := answer;
     QWEN_API_KEY := "";
     qwen_Client := Ok tt;
     chat_completions := fun n model prompt streaming => answer n model prompt;
     get_products_with_image_ids := fun url => fetched;
     CURRENT_TIMESTAMP := "2025-12-23 12:00:00" |}.

(** A runtime whose model requests time out without a message. *)
Definition silent_timeout (fetched : result Snapshot) : Runtime :=
  {| set_iter := elements;
     set_iter_perm := fun X => reflexivity (elements X);
     json_loads := loads;
     json_dumps := dumps;
     json_load_snapshot := load_snapshot;
     json_dump_snapshot := dump_snapshot;
     GEMINI_AVAILABLE := true;
     genai_Client := Ok tt;
     generate_content := fun n model prompt => Raise "";
     QWEN_API_KEY := "";
     qwen_Client := Ok tt;
     chat_completions := fun n model prompt streaming => Raise "";
     get_products_with_image_ids := fun url => fetched;
     CURRENT_TIMESTAMP := "2025-12-23 12:00:00" |}.

Definition world : World :=
  {| current_provider := "gemini"; current_model := "gemini-3-flash-preview";
     requests := 0; sleeps := []; parser_calls := []; files := ∅;
     disk_fault := None; databases := ∅; owner_errors := [] |}.

(** Yesterday's snapshot is on disk and the device accepts 20 more characters. *)
Definition world_disk_full : World :=
  {| current_provider := "gemini"; current_model := "gemini-3-flash-preview";
     requests := 0; sleeps := []; parser_calls := [];
     files := {[ history_file "schuhe" := dump_snapshot yesterday ]};
     disk_fault := Some 20; databases := ∅; owner_errors := [] |}.

(** A database that holds one shoe and one shirt. *)
Definition stored_shoe : Row :=
  {| row_id := 1; row_name := "shb 65z"; row_pic_url := "/img/65z.jpg";
     row_description := "40-45 (=komplett)"; row_price := "chf 179.00";
     row_sizes := pending_sizes; row_type := "schuhe";
     row_last_seen := "2025-12-22 12:00:00" |}.

Definition world_with_rows : World :=
  {| current_provider := "gemini"; current_model := "gemini-3-flash-preview";
     requests := 0; sleeps := []; parser_calls := []; files := ∅;
     disk_fault := None;
     databases := {[ db_path "schuhe" := [stored_shoe] ]};
     owner_errors := [] |}.

Definition clock : string := "2025-12-23 12:00:00".

(** The comparison of [yesterday] with [today], run. *)
Definition run_today : result Changes * World :=
  Eval vm_compute in compare_snapshots (runtime (Ok today)) yesterday today world.

Definition changes_today : Changes :=
  Eval vm_compute in
    match fst run_today with
    | Ok changes => changes
    | Raise _ => mkChanges [] [] [] 0 0 []
    end.


(** The comparison of [summer] with [summer_sale], run. *)
Definition changes_sale : Changes :=
  Eval vm_compute in
    match fst (compare_snapshots (runtime (Ok summer_sale)) summer summer_sale world) with
    | Ok changes => changes
    | Raise _ => mkChanges [] [] [] 0 0 []
    end.

End Demo.


(** ** The recovery step as the specification words it *)

(** The text up to the brace that closes the [depth] braces still open. *)
Fixpoint balanced_tail (depth : nat) (s : string) : option string :=
  match s with
  | EmptyString => None
  | String c r =>
      if Ascii.eqb c "{" then String c <$> balanced_tail (S depth) r
      else if Ascii.eqb c "}" then
        match depth with
        | O => Some (String c EmptyString)
        | S d => String c <$> balanced_tail d r
        end
      else String c <$> balanced_tail depth r
  end.

(** The first balanced brace-delimited object of a text: it starts at the
    first opening brace that is ever closed. *)
Fixpoint first_balanced_object (s : string) : option string :=
  match s with
  | EmptyString => None
  | String c r =>
      if Ascii.eqb c "{" then
        match balanced_tail 0 r with
        | Some t => Some (String c t)
        | None => first_balanced_object r
        end
      else first_balanced_object r
  end.

(** ** Further vocabulary *)

(** The attempts after which the loop may sleep. *)
Definition sleeping_attempts (max_retries : nat) (attempts : list nat) : nat :=
  length (List.filter (fun attempt => Nat.ltb attempt (max_retries - 1)) attempts).

(** What a run of requests costs: the requests issued and the sleeps added. *)
Definition spends (w w' : World) (most_requests most_sleeps : nat) : Prop :=
  requests w <= requests w' /\ requests w' <= requests w + most_requests
  /\ exists new,
       sleeps w' = (sleeps w ++ new)%list
       /\ length new <= most_sleeps
       /\ Forall (fun seconds => 15 <= seconds) new.

(** A demo runtime with a given model behaviour. *)
Definition runtime_with_model (answers : nat -> string -> string -> result string)
    : Runtime :=
  {| set_iter := elements;
     set_iter_perm := fun X => reflexivity (elements X);
     json_loads := Demo.loads;
     json_dumps := Demo.dumps;
     json_load_snapshot := Demo.load_snapshot;
     json_dump_snapshot := Demo.dump_snapshot;
     GEMINI_AVAILABLE := true;
     genai_Client := Ok tt;
     generate_content := answers;
     QWEN_API_KEY := "key";
     qwen_Client := Ok tt;
     chat_completions := fun n model prompt streaming => answers n model prompt;
     get_products_with_image_ids := fun url => Ok Demo.today;
     CURRENT_TIMESTAMP := Demo.clock |}.

(** A model that is rate limited [busy] times and then answers. *)
Definition busy_model (busy : nat) (n : nat) (model prompt : string) : result string :=
  if Nat.ltb n busy then Raise "429 RESOURCE_EXHAUSTED retryDelay: 37s"
  else Ok Demo.answer_complete.

(** An answer with a null where the list of available sizes belongs, and a
    decoder that knows it besides the demo answers. *)
Definition answer_null : string := quoted "{`available`:null,`sold_out`:[]}".

Definition loads_with_null (text : string) : result SizeInfo :=
  if String.eqb text answer_null
  then Ok {| available := Unsettable "None" "'NoneType' object is not iterable";
             sold_out := Tokens []; error := None |}
  else Demo.loads text.

(** A demo runtime whose model gives that answer to every prompt. *)
Definition runtime_with_null_answer : Runtime :=
  {| set_iter := elements;
     set_iter_perm := fun X => reflexivity (elements X);
     json_loads := loads_with_null;
     json_dumps := Demo.dumps;
     json_load_snapshot := Demo.load_snapshot;
     json_dump_snapshot := Demo.dump_snapshot;
     GEMINI_AVAILABLE := true;
     genai_Client := Ok tt;
     generate_content := fun n model prompt => Ok answer_null;
     QWEN_API_KEY := "key";
     qwen_Client := Ok tt;
     chat_completions := fun n model prompt streaming => Ok answer_null;
     get_products_with_image_ids := fun url => Ok Demo.today;
     CURRENT_TIMESTAMP := Demo.clock |}.

(** The world after a size analysis of [description] that issued [n] requests
    and slept for each of [naps]. *)
Definition after_analysis (description : string) (n : nat) (naps : list nat)
    (w : World) : World :=
  mkWorld (current_provider w) (current_model w) (n + requests w)
    (sleeps w ++ naps) (parser_calls w ++ [description]) (files w)
    (disk_fault w) (databases w) (owner_errors w).

(** What a comparison leaves alone: everything but the request counter, the
    sleep log and the parser call log. *)
Definition diff_step (w w' : World) : Prop :=
  current_provider w' = current_provider w /\ current_model w' = current_model w
  /\ files w' = files w /\ disk_fault w' = disk_fault w
  /\ databases w' = databases w /\ owner_errors w' = owner_errors w.


(** The world with one more error text given to the owner. *)
Definition with_owner_error (error_msg : string) (w : World) : World :=
  mkWorld (current_provider w) (current_model w) (requests w) (sleeps w)
    (parser_calls w) (files w) (disk_fault w) (databases w)
    (owner_errors w ++ [error_msg]).

Definition shoes_url : string := "https://www.yonex.ch/de/badminton/produkte/schuhe/".

(** The world after the run whose save was cut short after 20 characters. *)
Definition world_after_cut_save : World :=
  Eval vm_compute in
    snd (analyze_product_changes (Demo.runtime (Ok Demo.today)) shoes_url "schuhe"
           Demo.world_disk_full).

(** ** The start-up pass over a table: [update_sizes_for_existing_products] *)

Section MoreDatabase.
Context (R : Runtime).

(** [UPDATE products SET sizes = ? WHERE id = ?] *)
Definition set_row_sizes (path : string) (product_id : nat) (sizes_json : string)
    : M unit :=
  modify (fun w =>
    let rows := default [] (databases w !! path) in
    let rows :=
      map (fun r =>
             if Nat.eqb (row_id r) product_id
             then mkRow (row_id r) (row_name r) (row_pic_url r) (row_description r)
                    (row_price r) sizes_json (row_type r) (row_last_seen r)
             else r) rows in
    with_databases (<[path := rows]> (databases w)) w).

(** The rows [update_sizes_for_existing_products] selects: those of the
    category without a size text (a missing text and an empty one are both the
    empty string here). *)
Definition lacks_sizes (category_name : string) (r : Row) : bool :=
  String.eqb (row_type r) category_name && String.eqb (row_sizes r) "".

(** Lines 138-148 of [update_sizes_for_existing_products]. *)
Fixpoint update_loop (path : string) (products_to_update : list Row) : M unit :=
  match products_to_update with
  | [] => ret tt
  | r :: rest =>
      (if PyStr.truthy (row_description r) then
         size_analysis <- analyze_sizes R (row_description r) ;;
         let sizes_json := json_dumps R size_analysis in
         set_row_sizes path (row_id r) sizes_json
       else ret tt) ;;;
      update_loop path rest
  end.

(** [yonex_site_checker.update_sizes_for_existing_products]; an exception
    inside the connection block rolls the updates back before it is caught. *)
Definition update_sizes_for_existing_products (path category_name : string) : M unit :=
  w <- get_world ;;
  match databases w !! path with
  | None => ret tt
  | Some rows =>
      try_except
        (let products_to_update := List.filter (lacks_sizes category_name) rows in
         match products_to_update with
         | [] => ret tt
         | _ => update_loop path products_to_update
         end)
        (fun e =>
           modify (fun w' => with_databases (<[path := rows]> (databases w')) w'))
  end.

(** The size parser called on each description in turn. *)
Fixpoint parse_all (descriptions : list string) : M (list SizeInfo) :=
  match descriptions with
  | [] => ret []
  | description :: rest =>
      size_analysis <- analyze_sizes R description ;;
      results <- parse_all rest ;;
      ret (size_analysis :: results)
  end.

End MoreDatabase.

(** The largest row id of a table, 0 for an empty one. *)
Definition max_id (rows : list Row) : nat := foldr Nat.max 0 (map row_id rows).

(** The rows a store for [category_name] keeps. *)
Definition kept_rows (category_name : string) (rows : list Row) : list Row :=
  filter (fun r => negb (String.eqb (row_type r) category_name)) rows.

(** A row that carries what an entry of a dictionary holds. *)
Definition row_of_entry (category_name : string) (entry : string * Product) (r : Row)
    : Prop :=
  row_name r = name (snd entry)
  /\ row_pic_url r = fst entry
  /\ row_description r = default (description (snd entry)) (original_description (snd entry))
  /\ row_price r = price (snd entry)
  /\ row_type r = category_name
  /\ row_sizes r <> "".

(** A row after the start-up pass: nothing but the size text may differ. *)
Definition same_but_sizes (r r' : Row) : Prop :=
  row_id r' = row_id r /\ row_name r' = row_name r /\ row_pic_url r' = row_pic_url r
  /\ row_description r' = row_description r /\ row_price r' = row_price r
  /\ row_type r' = row_type r /\ row_last_seen r' = row_last_seen r.

(** A row the start-up pass analyses. *)
Definition to_analyse (category_name : string) (r : Row) : bool :=
  lacks_sizes category_name r && PyStr.truthy (row_description r).

(** A row with another size text. *)
Definition with_row_sizes (sizes_json : string) (r : Row) : Row :=
  mkRow (row_id r) (row_name r) (row_pic_url r) (row_description r) (row_price r)
    sizes_json (row_type r) (row_last_seen r).

(** The table after [UPDATE products SET sizes = ? WHERE id = ?]. *)
Definition set_by_id (product_id : nat) (sizes_json : string) (rows : list Row)
    : list Row :=
  map (fun r => if Nat.eqb (row_id r) product_id then with_row_sizes sizes_json r else r)
    rows.

(** The table after a start-up pass whose parser calls gave [results]: the
    rows to analyse take the serialized results, one each in table order, and
    the other rows stay. *)
Fixpoint fill_sizes (R : Runtime) (category_name : string) (rows : list Row)
    (results : list SizeInfo) : list Row :=
  match rows with
  | [] => []
  | r :: rest =>
      if to_analyse category_name r then
        match results with
        | size_analysis :: results =>
            with_row_sizes (json_dumps R size_analysis) r
            :: fill_sizes R category_name rest results
        | [] => r :: rest
        end
      else r :: fill_sizes R category_name rest results
  end.

(** What work on the table at [path] may change besides the parser's own
    traces: that table and nothing else. *)
Definition table_step (path : string) (w w' : World) : Prop :=
  current_provider w' = current_provider w /\ current_model w' = current_model w
  /\ files w' = files w /\ disk_fault w' = disk_fault w
  /\ owner_errors w' = owner_errors w
  /\ (forall other, other <> path -> databases w' !! other = databases w !! other).

(** The rows of a pass that have a description. *)
Definition described (rows : list Row) : list Row :=
  List.filter (fun r => PyStr.truthy (row_description r)) rows.

(** A table from before the size column was filled: a shirt without a size
    text, a row of another category, and a shirt whose analysis is pending. *)
Definition old_table : list Row :=
  [ mkRow 1 "shirt 10512" "/img/10512.jpg" "S, M, L (=komplett)" "chf 59.00" ""
      "bekleidung" "2025-12-01 08:00:00";
    mkRow 2 "shb 65z" "/img/65z.jpg" "40-45 (=komplett)" "chf 179.00" ""
      "schuhe" "2025-12-01 08:00:00";
    mkRow 5 "polo" "/img/polo.jpg" "S, M" "chf 39.00" pending_sizes
      "bekleidung" "2025-12-02 08:00:00" ].

Definition world_with_old_table : World :=
  with_databases {[ db_path "bekleidung" := old_table ]} Demo.world.

(** ** Provider settings: [set_ai_provider], [get_current_config], [setup_ai_provider] *)

(** AI_PROVIDERS: for each provider its models by key and its default model. *)
Definition AI_PROVIDERS : list (string * (list (string * string) * string)) :=
  [ ("gemini",
     ([ ("2", "gemini-2.0-flash");
        ("2.5", "gemini-2.5-flash-lite");
        ("3", "gemini-3-flash-preview") ],
      "gemini-3-flash-preview"));
    ("qwen",
     ([ ("default", "qwen-flash");
        ("turbo", "qwen-turbo");
        ("plus", "qwen-plus");
        ("max", "qwen3-max");
        ("flash", "qwen-flash") ],
      "qwen-flash")) ].

(** [d.get(key)] on a dictionary with string keys. *)
Fixpoint lookup_key {V} (key : string) (d : list (string * V)) : option V :=
  match d with
  | [] => None
  | (k, v) :: r => if String.eqb key k then Some v else lookup_key key r
  end.

Definition with_provider (provider : string) (w : World) : World :=
  mkWorld provider (current_model w) (requests w) (sleeps w) (parser_calls w)
    (files w) (disk_fault w) (databases w) (owner_errors w).

Definition with_model (model : string) (w : World) : World :=
  mkWorld (current_provider w) model (requests w) (sleeps w) (parser_calls w)
    (files w) (disk_fault w) (databases w) (owner_errors w).

(** [talk_to_ai.set_ai_provider]; [model_key] is [None] when the argument is
    left out. *)
Definition set_ai_provider (provider : string) (model_key : option string) : M unit :=
  let provider := PyStr.lower provider in
  match lookup_key provider AI_PROVIDERS with
  | None =>
      raise ("Unknown provider: " +:+ provider +:+ ". Available: "
             +:+ PyRepr.list (map fst AI_PROVIDERS))
  | Some (models, default_model) =>
      modify (with_provider provider) ;;;
      match model_key with
      | Some key =>
          if PyStr.truthy key then
            match lookup_key key models with
            | Some model => modify (with_model model)
            | None => modify (with_model key)   (* a direct model name *)
            end
          else modify (with_model default_model)
      | None => modify (with_model default_model)
      end
  end.

(** [talk_to_ai.get_current_config]: the pair (provider, model). *)
Definition get_current_config : M (string * string) :=
  w <- get_world ;; ret (current_provider w, current_model w).

(** The command line flags of [parse_arguments]. *)
Record Args : Type := mkArgs {
  redo : bool;
  gemini2 : bool;
  gemini3 : bool;
  qwen : bool
}.

(** [yonex_site_checker.setup_ai_provider] *)
Definition setup_ai_provider (args : Args) : M unit :=
  if qwen args then set_ai_provider "qwen" None
  else if gemini2 args then set_ai_provider "gemini" (Some "2")
  else if gemini3 args then set_ai_provider "gemini" (Some "3")
  else set_ai_provider "gemini" (Some "2.5").

(** The provider and model a run with the given flags works with. *)
Definition config_of_flags (args : Args) : string * string :=
  if qwen args then ("qwen", "qwen-flash")
  else if gemini2 args then ("gemini", "gemini-2.0-flash")
  else if gemini3 args then ("gemini", "gemini-3-flash-preview")
  else ("gemini", "gemini-2.5-flash-lite").

(** A runtime whose completions without streaming are [other] instead. *)
Definition with_plain_completions (R : Runtime)
    (other : nat -> string -> string -> result string) : Runtime :=
  mkRuntime (set_iter R) (set_iter_perm R) (json_loads R) (json_dumps R)
    (json_load_snapshot R) (json_dump_snapshot R) (GEMINI_AVAILABLE R)
    (genai_Client R) (generate_content R) (QWEN_API_KEY R) (qwen_Client R)
    (fun n model prompt streaming =>
       if streaming then chat_completions R n model prompt true
       else other n model prompt)
    (get_products_with_image_ids R) (CURRENT_TIMESTAMP R).

(** ** [telegram_notifier]: the subscriber list and the messages *)

(** What [json.load] makes of the subscribers file, as the code reads it. *)
Record SubscribersData : Type := mkSubscribersData {
  data_chat_ids : option (list Z);   (* data.get('chat_ids', []) *)
  data_owner_id : option Z           (* data.get('owner_id') *)
}.

(** A [Notifier] with what it reads, writes and posts. *)
Record Telegram : Type := mkTelegram {
  owner_id : option Z;               (* self.owner_id *)
  subscribers : list Z;              (* self.subscribers *)
  (* SUBSCRIBERS_FILE: absent, unreadable, or holding data *)
  subscribers_file : option (result SubscribersData);
  (* whether open(SUBSCRIBERS_FILE, 'w') succeeds; the dump then completes *)
  file_writable : bool;
  (* the sendMessage requests so far: chat id and text, oldest first *)
  posted : list (Z * string)
}.

(** Truth of a chat id that may be [None]. *)
Definition truthy_id (chat_id : option Z) : bool :=
  match chat_id with
  | Some n => negb (Z.eqb n 0)
  | None => false
  end.

(** [Notifier._load_subscribers]: the owner that is set and the list returned. *)
Definition _load_subscribers (file : option (result SubscribersData))
    : option Z * list Z :=
  match file with
  | Some (Ok data) => (data_owner_id data, default [] (data_chat_ids data))
  | Some (Raise e) => (None, [])
  | None => (None, [])
  end.

(** [Notifier.__init__] *)
Definition Notifier (file : option (result SubscribersData)) (writable : bool)
    (already_posted : list (Z * string)) : Telegram :=
  let '(owner, chat_ids) := _load_subscribers file in
  mkTelegram owner chat_ids file writable already_posted.

(** [Notifier._save_subscribers]: a failure is printed and swallowed. *)
Definition _save_subscribers (t : Telegram) : Telegram :=
  if file_writable t then
    let data :=
      mkSubscribersData (Some (subscribers t))
        (if truthy_id (owner_id t) then owner_id t else None) in
    mkTelegram (owner_id t) (subscribers t) (Some (Ok data)) (file_writable t) (posted t)
  else t.

Definition with_subscribers (chat_ids : list Z) (t : Telegram) : Telegram :=
  mkTelegram (owner_id t) chat_ids (subscribers_file t) (file_writable t) (posted t).

(** [list.remove]: the first occurrence goes. *)
Fixpoint list_remove (chat_id : Z) (chat_ids : list Z) : list Z :=
  match chat_ids with
  | [] => []
  | x :: rest => if Z.eqb x chat_id then rest else x :: list_remove chat_id rest
  end.

(** [Notifier.add_subscriber] *)
Definition add_subscriber (chat_id : Z) (t : Telegram) : bool * Telegram :=
  if negb (bool_decide (chat_id ∈ subscribers t)) then
    let t := with_subscribers (subscribers t ++ [chat_id]) t in
    let t := _save_subscribers t in
    (true, t)
  else (false, t).

(** [Notifier.remove_subscriber] *)
Definition remove_subscriber (chat_id : Z) (t : Telegram) : bool * Telegram :=
  if bool_decide (chat_id ∈ subscribers t) then
    let t := with_subscribers (list_remove chat_id (subscribers t)) t in
    let t := _save_subscribers t in
    (true, t)
  else (false, t).

Section Posting.
(** Whether the n-th sendMessage request, to a chat and with a text, comes
    back with status 200; anything else, an exception included, is [false]. *)
Context (accepted : nat -> Z -> string -> bool).

(** [Notifier._send_telegram_message] *)
Definition _send_telegram_message (chat_id : Z) (message : string) (t : Telegram)
    : bool * Telegram :=
  (accepted (length (posted t)) chat_id message,
   mkTelegram (owner_id t) (subscribers t) (subscribers_file t) (file_writable t)
     (posted t ++ [(chat_id, message)])).

(** [Notifier.send_error_to_owner] *)
Definition notifier_send_error_to_owner (error_message : string) (t : Telegram)
    : bool * Telegram :=
  match owner_id t with
  | Some owner =>
      if truthy_id (Some owner) then
        let message := "🚨 <b>ERROR</b>" +:+ nl +:+ nl +:+ error_message in
        _send_telegram_message owner message t
      else (false, t)
  | None => (false, t)
  end.

(** Lines 107-110 of [send_notification]: the loop over the subscribers. *)
Fixpoint send_to_all (chat_ids : list Z) (message : string) (success_count : nat)
    (t : Telegram) : nat * Telegram :=
  match chat_ids with
  | [] => (success_count, t)
  | chat_id :: rest =>
      let '(ok, t) := _send_telegram_message chat_id message t in
      send_to_all rest message (if ok then S success_count else success_count) t
  end.

(** [Notifier.send_notification] *)
Definition send_notification (title body : string) (t : Telegram) : nat * Telegram :=
  let message := telegram_message title body in
  match subscribers t with
  | [] => (0, t)
  | _ => send_to_all (subscribers t) message 0 t
  end.

(** One update of [getUpdates], as [start_telegram_bot] reads it. *)
Record Update : Type := mkUpdate {
  update_id : Z;
  update_chat_id : option Z;     (* message.get('chat', {}).get('id') *)
  update_text : string           (* message.get('text', '') *)
}.

Definition subscribed_text : string :=
  "✅ <b>Subscribed!</b>" +:+ nl +:+ nl
  +:+ "You'll receive notifications when Yonex products change."
  +:+ nl +:+ nl +:+ "Use /stop to unsubscribe.".
Definition already_subscribed_text : string :=
  "ℹ️ You're already subscribed!" +:+ nl +:+ nl +:+ "Use /stop to unsubscribe.".
Definition unsubscribed_text : string :=
  "👋 <b>Unsubscribed.</b>" +:+ nl +:+ nl
  +:+ "You won't receive any more notifications."
  +:+ nl +:+ nl +:+ "Use /start to subscribe again.".
Definition not_subscribed_text : string :=
  "ℹ️ You're not subscribed." +:+ nl +:+ nl +:+ "Use /start to subscribe.".
Definition status_text (count : nat) : string :=
  "📊 <b>Bot Status</b>" +:+ nl +:+ nl +:+ "👥 Subscribers: " +:+ PyStr.of_nat count
  +:+ nl +:+ "✅ Bot is running".

(** Lines 190-227 of [start_telegram_bot]: the body of the loop over the
    updates, without the bookkeeping of [last_update_id]. *)
Definition handle_update (update : Update) (t : Telegram) : Telegram :=
  match update_chat_id update with
  | Some chat_id =>
      if negb (truthy_id (Some chat_id)) then t
      else if String.eqb (update_text update) "/start" then
        let '(added, t) := add_subscriber chat_id t in
        snd (_send_telegram_message chat_id
               (if added then subscribed_text else already_subscribed_text) t)
      else if String.eqb (update_text update) "/stop" then
        let '(removed, t) := remove_subscriber chat_id t in
        snd (_send_telegram_message chat_id
               (if removed then unsubscribed_text else not_subscribed_text) t)
      else if String.eqb (update_text update) "/status" then
        let count := length (subscribers t) in
        snd (_send_telegram_message chat_id (status_text count) t)
      else t
  | None => t
  end.

End Posting.

(** A notifier started on a file with two subscribers, one of them the owner;
    every request is accepted but those to the chat -22. *)
Definition club : Telegram :=
  Notifier (Some (Ok (mkSubscribersData (Some [11; -22]%Z) (Some 11%Z)))) true [].

Definition all_but_group (n : nat) (chat_id : Z) (message : string) : bool :=
  negb (Z.eqb chat_id (-22)).

(** The updates handled one after the other. *)
Definition handle_updates (accepted : nat -> Z -> string -> bool)
    (updates : list Update) (t : Telegram) : Telegram :=
  fold_left (fun t update => handle_update accepted update t) updates t.

(** ** [yonex_site_checker.normalize_text] and the scraper's loop *)

(** [re.sub(r'\s+', ' ', text)]: every maximal run of white space becomes one
    blank.  [in_run] tells that the character before was white space. *)
Fixpoint collapse_spaces (in_run : bool) (text : string) : string :=
  match text with
  | EmptyString => EmptyString
  | String c r =>
      if PyStr.is_space c then
        if in_run then collapse_spaces true r
        else String " " (collapse_spaces true r)
      else String c (collapse_spaces false r)
  end.

Fixpoint count_quotes (text : string) : nat :=
  match text with
  | EmptyString => 0
  | String c r => (if Ascii.eqb c dq then 1 else 0) + count_quotes r
  end.

(** [re.sub] of the pattern made of a key, any characters but double
    quotes, a double quote, any characters but double quotes and a double
    quote, by the empty text; the key holds no double quote.  A match starts at an occurrence of the key that has two double
    quotes somewhere after it, and runs up to the second of them; matches are
    found from the left and do not overlap.  [pending] counts the double
    quotes of a match under way that are still to be passed. *)
Fixpoint remove_keyed (key : string) (pending : nat) (text : string) : string :=
  match text with
  | EmptyString => EmptyString
  | String c r =>
      match pending with
      | S k => remove_keyed key (if Ascii.eqb c dq then k else S k) r
      | O =>
          if String.prefix key text && Nat.leb 2 (count_quotes text)
          then remove_keyed key 2 r
          else String c (remove_keyed key O r)
      end
  end.

(** The last [re.sub]: both kinds of quote are taken out. *)
Fixpoint remove_quotes (text : string) : string :=
  match text with
  | EmptyString => EmptyString
  | String c r =>
      if Ascii.eqb c dq || Ascii.eqb c "'" then remove_quotes r
      else String c (remove_quotes r)
  end.

Definition normalize_text (text : string) : string :=
  if negb (PyStr.truthy text) then ""
  else
    let text := PyStr.lower text in
    let text := collapse_spaces false text in
    let text := PyStr.strip text in
    let text := remove_keyed "timestamp" 0 text in
    let text := remove_keyed "session" 0 text in
    let text := remove_keyed "csrf" 0 text in
    let text := remove_keyed "nonce" 0 text in
    let text := remove_keyed "_token" 0 text in
    let text := remove_quotes text in
    text.

(** What the BeautifulSoup calls of one pass of the loop find around a
    header: the header text without its link, the [href] of the image block,
    the text of the description block and the text of the price cell. *)
Record Header : Type := mkHeader {
  header_text : string;
  header_href : option string;
  header_description : option string;
  header_price : option string
}.

(** The page as [get_products_with_image_ids] sees it: the request fails, or
    the content area is missing, or there are headers, each of which the
    parsing calls read or fail on. *)
Definition Page : Type := result (option (list (result Header))).

(** [d[k] = v]: a present key keeps its place. *)
Fixpoint dict_set (d : Snapshot) (k : string) (v : Product) : Snapshot :=
  match d with
  | [] => [(k, v)]
  | (k', p) :: r =>
      if String.eqb k k' then (k', v) :: r else (k', p) :: dict_set r k v
  end.

(** The key under which a header is stored. *)
Definition pic_url_of (h : Header) : string :=
  match header_href h with
  | Some href => normalize_image_url href
  | None => ""
  end.

(** The entry stored for a header. *)
Definition entry_of (h : Header) : Product :=
  let name := normalize_text (header_text h) in
  let pic_url := pic_url_of h in
  let original_description := default "" (header_description h) in
  let normalized_description := normalize_text original_description in
  let price := normalize_text (default "" (header_price h)) in
  {| name := name;
     image_url := pic_url;
     description := normalized_description;
     original_description := Some original_description;
     price := price;
     sizes := None |}.

(** Lines 250-306: one pass of the loop over the headers. *)
Definition scrape_header (products_by_image : Snapshot) (header : result Header)
    : Snapshot :=
  match header with
  | Raise e => products_by_image
  | Ok h =>
      if negb (PyStr.truthy (normalize_text (header_text h))) then products_by_image
      else if negb (PyStr.truthy (pic_url_of h)) then products_by_image
      else dict_set products_by_image (pic_url_of h) (entry_of h)
  end.

(** [get_products_with_image_ids], given what the page holds. *)
Definition products_by_image_of (page : Page) : result Snapshot :=
  match page with
  | Raise e => Raise e
  | Ok None => Ok []
  | Ok (Some headers) => Ok (fold_left scrape_header headers [])
  end.

(** A header that ends up in the snapshot. *)
Definition listed (header : result Header) : bool :=
  match header with
  | Raise e => false
  | Ok h => PyStr.truthy (normalize_text (header_text h)) && PyStr.truthy (pic_url_of h)
  end.

(** Text without either kind of quote. *)
Fixpoint quote_free (text : string) : bool :=
  match text with
  | EmptyString => true
  | String c r => negb (Ascii.eqb c dq || Ascii.eqb c "'") && quote_free r
  end.

(** Text whose white space is single blanks inside the text. *)
Definition tidy (text : string) : Prop :=
  collapse_spaces false text = text /\ PyStr.strip text = text.

Definition headers_of (page : Page) : list (result Header) :=
  match page with
  | Ok (Some headers) => headers
  | _ => []
  end.

(** What holds of every entry the scraper stores under a key. *)
Definition scraped_entry (k : string) (p : Product) : Prop :=
  image_url p = k
  /\ PyStr.startswith k "/" = true
  /\ name p <> ""
  /\ sizes p = None
  /\ (exists original,
        original_description p = Some original
        /\ description p = normalize_text original)
  /\ quote_free (name p) = true
  /\ quote_free (description p) = true
  /\ quote_free (price p) = true.

(** A page with two headers for one image, a header without a name and one
    without an image. *)
Definition demo_page : Page :=
  Ok (Some
    [ Ok (mkHeader "Shirt 10512" (Some "https://www.yonex.ch/img/10512.JPG")
            (Some "S, M, L (=komplett)") (Some "CHF 59.00"));
      Ok (mkHeader "" (Some "/img/none.jpg") None None);
      Ok (mkHeader "Cap" None (Some "one size") (Some "CHF 19.00"));
      Raise "list index out of range";
      Ok (mkHeader "Shirt 10512 NEW" (Some "/img/10512.jpg")
            (Some "S, M (=komplett)") (Some "CHF 49.00")) ]).

(** ** One check of a site: [has_site_changed] and the body of the main loop *)

(** The world together with the calls of [notifier.send_notification] so
    far, each with its title and body, oldest first. *)
Record Station : Type := mkStation {
  world : World;
  notified : list (string * string)
}.

Definition in_world {A} (m : M A) (s : Station) : result A * Station :=
  let '(r, w) := m (world s) in (r, mkStation w (notified s)).

(** HISTORY_DIR / 'change_logs' / "yonex_product_changes.txt" *)
Definition master_log : string :=
  "yonex_data/history/change_logs/yonex_product_changes.txt".

Definition notification_title (site_name : string) : string :=
  "🔔 Yonex " +:+ PyStr.upper site_name +:+ " Update".

(** [send_notifications_for_changes] with its call of the notifier. *)
Definition notify_changes (changes : Changes) (site_name timestamp : string)
    (s : Station) : Station :=
  if negb (any_changes changes) then s
  else
    let full_message := Message.full_message changes site_name timestamp in
    mkStation (world s)
      (notified s ++ [(notification_title site_name, full_message)]).

(** [log_changes] with its writes to the master log, opened for appending;
    the pieces are written as one text, as the save of a snapshot is. *)
Definition append_changes (changes : Changes) (site_name timestamp : string) : M unit :=
  if negb (any_changes changes) then ret tt
  else file_write master_log (written (Log.writes changes site_name timestamp)).

Section Check.
Context (R : Runtime).

(** [has_site_changed]; the two time stamps are the clock as the message and
    the log read it.  [display_product_warnings] only prints. *)
Definition has_site_changed (url site_name : string)
    (message_time log_time : string) (s : Station) : option Changes * Station :=
  let handler (e : string) (s : Station) : option Changes * Station :=
    let error_msg := "Error checking for changes on " +:+ site_name +:+ ": " +:+ e in
    (None, snd (in_world (send_error_to_owner error_msg) s)) in
  match in_world (analyze_product_changes R url site_name) s with
  | (Raise e, s) => handler e s
  | (Ok changes, s) =>
      let has_changes := any_changes changes in
      if negb has_changes then (None, s)
      else
        let s := notify_changes changes site_name message_time s in
        match in_world (append_changes changes site_name log_time) s with
        | (Raise e, s) => handler e s
        | (Ok _, s) => (Some changes, s)
        end
  end.

(** The body of the main loop for one site. *)
Definition check_site (url site_name : string) (message_time log_time : string)
    (s : Station) : Station :=
  let '(changes, s) := has_site_changed url site_name message_time log_time s in
  match changes with
  | Some changes =>
      match in_world (store_products_from_dict R (snapshot_of changes) site_name) s with
      | (Ok _, s) => s
      | (Raise e, s) =>
          let error_msg :=
            "Error checking " +:+ site_name +:+ " (" +:+ url +:+ "): " +:+ e in
          snd (in_world (send_error_to_owner error_msg) s)
      end
  | None => s
  end.

End Check.

(** The last character of a text. *)
Fixpoint last_char (s : string) : option ascii :=
  match s with
  | EmptyString => None
  | String c EmptyString => Some c
  | String _ r => last_char r
  end.

(** A station at its first check, on a device that accepts 400 characters
    per write. *)
Definition world_small_disk : World :=
  mkWorld "gemini" "gemini-3-flash-preview" 0 [] [] ∅ (Some 400) ∅ [].

Definition first_check : Station := mkStation Demo.world [].
Definition first_check_small_disk : Station := mkStation world_small_disk [].

(** A station that has seen yesterday's page and stored a shoe. *)
Definition seen_yesterday : Station :=
  mkStation
    (mkWorld "gemini" "gemini-3-flash-preview" 0 [] []
       {[ history_file "schuhe" := Demo.dump_snapshot Demo.yesterday ]} None
       {[ db_path "schuhe" := [Demo.stored_shoe] ]} [])
    [].

(** * Properties *)

(** ** Strings *)

(** stdpp keeps [String.append] folded; the proofs below compute with it. *)
#[local] Arguments String.append !s1 s2 / : simpl nomatch.

Module PyStrFacts.
Import PyStr.

Lemma lower_char_idem c : lower_char (lower_char c) = lower_char c.
Proof. destruct c as [[] [] [] [] [] [] [] []]; reflexivity. Qed.

Lemma is_space_lower_char c : is_space (lower_char c) = is_space c.
Proof. destruct c as [[] [] [] [] [] [] [] []]; reflexivity. Qed.

Lemma lower_idem s : lower (lower s) = lower s.
Proof.
  induction s as [|c r IH]; simpl; [reflexivity|].
  unfold lower in *. simpl. now rewrite lower_char_idem, IH.
Qed.

Lemma lower_cons c r : lower (String c r) = String (lower_char c) (lower r).
Proof. reflexivity. Qed.

Lemma lstrip_lower s : lstrip (lower s) = lower (lstrip s).
Proof.
  induction s as [|c r IH]; [reflexivity|].
  rewrite lower_cons. simpl. rewrite is_space_lower_char.
  destruct (is_space c); [exact IH | reflexivity].
Qed.

Lemma rstrip_lower s : rstrip (lower s) = lower (rstrip s).
Proof.
  induction s as [|c r IH]; [reflexivity|].
  rewrite lower_cons. simpl. rewrite IH, is_space_lower_char.
  destruct (rstrip r); simpl; [destruct (is_space c)|]; reflexivity.
Qed.

Lemma rstrip_cons_keep c r :
  is_space c = false -> rstrip (String c r) = String c (rstrip r).
Proof. intros H. simpl. rewrite H. now destruct (rstrip r). Qed.

Lemma rstrip_idem s : rstrip (rstrip s) = rstrip s.
Proof.
  induction s as [|c r IH]; [reflexivity|].
  simpl. destruct (rstrip r) as [|d t] eqn:E.
  - destruct (is_space c) eqn:Hc; simpl; [reflexivity|]. now rewrite Hc.
  - remember (String d t) as u eqn:Hu. simpl. rewrite IH. now subst u.
Qed.

Lemma length_lower s : String.length (lower s) = String.length s.
Proof. induction s as [|c r IH]; simpl; [reflexivity|]. unfold lower in IH. now rewrite IH. Qed.

Lemma length_lstrip s : String.length (lstrip s) <= String.length s.
Proof. induction s as [|c r IH]; simpl; [lia|]. destruct (is_space c); simpl; lia. Qed.

Lemma length_rstrip s : String.length (rstrip s) <= String.length s.
Proof.
  induction s as [|c r IH]; simpl; [lia|].
  destruct (rstrip r); [destruct (is_space c)|]; simpl in *; lia.
Qed.

Lemma length_strip s : String.length (strip s) <= String.length s.
Proof. unfold strip. etransitivity; [apply length_rstrip | apply length_lstrip]. Qed.

Lemma prefix_cons c p d s :
  String.prefix (String c p) (String d s) = true -> c = d /\ String.prefix p s = true.
Proof.
  cbn [String.prefix]. destruct (ascii_dec c d) as [e|n]; [auto | discriminate].
Qed.

Lemma prefix_nil s : String.prefix "" s = true.
Proof. now destruct s. Qed.

Lemma startswith_slash t : startswith (String "/" t) "/" = true.
Proof. unfold startswith. cbn [String.prefix]. destruct (ascii_dec "/" "/"); [apply prefix_nil | congruence]. Qed.

Lemma prefix_length p s : String.prefix p s = true -> String.length p <= String.length s.
Proof.
  revert s. induction p as [|c p IH]; intros s H; simpl; [lia|].
  destruct s as [|d s]; [discriminate|].
  apply prefix_cons in H as [_ H]. apply IH in H. simpl. lia.
Qed.

Lemma prefix_slash s : String.prefix "/" s = true -> exists t, s = String "/" t.
Proof.
  destruct s as [|d s]; [discriminate|].
  intros H. apply prefix_cons in H as [<- _]. eauto.
Qed.

Lemma length_append a b : String.length (a +:+ b) = String.length a + String.length b.
Proof. induction a as [|c a IH]; simpl; [reflexivity|]. now rewrite IH. Qed.

Lemma length_replace_from old k s :
  String.length (replace_from old "" k s) <= String.length s - k.
Proof.
  revert k. induction s as [|c r IH]; intros k; [simpl; lia|].
  destruct k as [|k]; cbn [replace_from].
  - destruct (String.prefix old (String c r)).
    + specialize (IH (String.length old - 1)). simpl. lia.
    + specialize (IH 0). simpl. lia.
  - specialize (IH k). simpl. lia.
Qed.

Lemma length_replace_prefix old s :
  old <> "" -> String.prefix old s = true ->
  String.length (replace s old "") + String.length old <= String.length s.
Proof.
  intros Hne Hp. pose proof (prefix_length _ _ Hp) as Hl.
  unfold replace. destruct s as [|c r].
  - destruct old; [congruence | discriminate].
  - cbn [replace_from]. rewrite Hp.
    pose proof (length_replace_from old (String.length old - 1) r).
    destruct old; [congruence|]. simpl in *. lia.
Qed.

Lemma append_assoc a b c : (a +:+ b) +:+ c = a +:+ b +:+ c.
Proof. induction a as [|x a IH]; simpl; [reflexivity|]. now rewrite IH. Qed.

Lemma find_char_app c a r :
  find_char c a = None -> find_char c (a +:+ String c r) = Some (String.length a).
Proof.
  induction a as [|d a IH]; simpl.
  - intros _. now rewrite Ascii.eqb_refl.
  - destruct (Ascii.eqb c d); [discriminate|].
    destruct (find_char c a); [discriminate|]. intros _. now rewrite IH.
Qed.

Lemma rfind_char_app c a r :
  rfind_char c r = None -> rfind_char c (a +:+ String c r) = Some (String.length a).
Proof.
  intros Hr. induction a as [|d a IH]; simpl.
  - now rewrite Hr, Ascii.eqb_refl.
  - now rewrite IH.
Qed.

Lemma substring_skip a s m :
  String.substring (String.length a) m (a +:+ s) = String.substring 0 m s.
Proof. induction a as [|d a IH]; simpl; [reflexivity | exact IH]. Qed.

Lemma substring_take j b : String.substring 0 (String.length j) (j +:+ b) = j.
Proof.
  induction j as [|d j IH]; simpl; [now destruct b|]. now rewrite IH.
Qed.

Lemma slice_middle a j b :
  slice (a +:+ j +:+ b) (String.length a) (String.length a + String.length j) = j.
Proof.
  unfold slice. replace (String.length a + String.length j - String.length a)
    with (String.length j) by lia.
  now rewrite substring_skip, substring_take.
Qed.

End PyStrFacts.

(** ** The image URL as identity *)

Section NormalizeImageUrl.
Import PyStr PyStrFacts.

(** What [normalize_image_url] does to a text that starts with a slash and
    with none of the three host prefixes. *)
Lemma normalize_slash t :
  startswith (String "/" t) "//www.yonex.ch" = false ->
  normalize_image_url (String "/" t) = String "/" (rstrip (lower t)).
Proof.
  intros H. unfold normalize_image_url.
  change (startswith (String "/" t) "https://www.yonex.ch") with false.
  change (startswith (String "/" t) "http://www.yonex.ch") with false.
  rewrite H. cbn [truthy negb]. 
  rewrite startswith_slash. cbn [negb].
  unfold strip. rewrite lower_cons.
  change (lower_char "/") with "/"%char.
  change (lstrip (String "/" (lower t))) with (String "/" (lower t)).
  now rewrite rstrip_cons_keep.
Qed.

(** Every result is empty or a slash followed by lower-case, right-stripped text. *)
Lemma normalize_shape url :
  normalize_image_url url = "" \/
  exists t, normalize_image_url url = String "/" (rstrip (lower t)).
Proof.
  unfold normalize_image_url.
  destruct url as [|c r]; [now left|]. right. cbn [truthy negb].
  set (u := if startswith (String c r) "https://www.yonex.ch" then _ else _).
  assert (Hs : forall v, strip (lower (String "/" v)) = String "/" (rstrip (lower v))).
  { intros v. unfold strip. rewrite lower_cons.
    change (lower_char "/") with "/"%char.
    change (lstrip (String "/" (lower v))) with (String "/" (lower v)).
    now rewrite rstrip_cons_keep. }
  destruct (startswith u "/") eqn:E; cbn [negb].
  - apply prefix_slash in E as [t ->]. exists t. apply Hs.
  - exists u. apply Hs.
Qed.

Lemma normalize_fixed t :
  startswith (String "/" (rstrip (lower t))) "//www.yonex.ch" = false ->
  normalize_image_url (String "/" (rstrip (lower t))) = String "/" (rstrip (lower t)).
Proof.
  intros H. rewrite normalize_slash by exact H.
  now rewrite <- rstrip_lower, lower_idem, rstrip_idem.
Qed.

Lemma normalize_shrinks y :
  startswith y "//www.yonex.ch" = true ->
  String.length (normalize_image_url y) < String.length y.
Proof.
  intros H. unfold normalize_image_url.
  destruct y as [|c r]; [discriminate|]. cbn [truthy negb].
  assert (c = "/"%char) as ->.
  { unfold startswith in H. now apply prefix_cons in H as [<- _]. }
  change (startswith (String "/" r) "https://www.yonex.ch") with false.
  change (startswith (String "/" r) "http://www.yonex.ch") with false.
  rewrite H. cbv zeta.
  pose proof (length_replace_prefix "//www.yonex.ch" (String "/" r) ltac:(discriminate) H) as Hl.
  set (u := replace (String "/" r) "//www.yonex.ch" "") in *.
  change (String.length "//www.yonex.ch") with 14 in Hl.
  destruct (negb (startswith u "/")).
  - pose proof (length_strip (lower ("/" +:+ u))) as Hs.
    rewrite length_lower in Hs. simpl in Hs. simpl in Hl. simpl. lia.
  - pose proof (length_strip (lower u)) as Hs.
    rewrite length_lower in Hs. lia.
Qed.

(** C9, as stated, fails: an upper-case host survives the first pass and is
    stripped by the second. *)
Lemma normalize_image_url_not_idempotent :
  normalize_image_url "//WWW.YONEX.CH/img/a.jpg" = "//www.yonex.ch/img/a.jpg" /\
  normalize_image_url (normalize_image_url "//WWW.YONEX.CH/img/a.jpg") = "/img/a.jpg" /\
  ~ (forall x, normalize_image_url (normalize_image_url x) = normalize_image_url x).
Proof.
  split; [reflexivity|]. split; [reflexivity|].
  intros H. specialize (H "//WWW.YONEX.CH/img/a.jpg"). vm_compute in H. discriminate.
Qed.

(** C9, amended: [normalize_image_url] is idempotent at exactly those inputs
    whose normalized form does not itself begin with the host prefix
    [//www.yonex.ch]; at every such input a second pass changes nothing. *)
Theorem normalize_image_url_idempotent_iff (x : string) :
  normalize_image_url (normalize_image_url x) = normalize_image_url x
  <-> startswith (normalize_image_url x) "//www.yonex.ch" = false.
Proof.
  split.
  - intros Hidem. destruct (startswith _ _) eqn:E; [|reflexivity].
    apply normalize_shrinks in E. rewrite Hidem in E. lia.
  - intros H. destruct (normalize_shape x) as [-> | [t Ht]]; [reflexivity|].
    rewrite Ht in *. now apply normalize_fixed.
Qed.

End NormalizeImageUrl.

(** A product image address: one pass strips host, case and the trailing
    blank; a second pass changes nothing. *)
Lemma normalize_image_url_idempotent_witness :
  normalize_image_url (normalize_image_url "https://www.yonex.ch/Img/10512.JPG ")
  = normalize_image_url "https://www.yonex.ch/Img/10512.JPG ".
Proof.
  apply (proj2 (normalize_image_url_idempotent_iff "https://www.yonex.ch/Img/10512.JPG ")).
  reflexivity.
Defined.

Example normalize_image_url_examples :
  normalize_image_url "https://www.yonex.ch/Img/10512.JPG " = "/img/10512.jpg"
  /\ normalize_image_url "http://www.yonex.ch/img/a.jpg" = "/img/a.jpg"
  /\ normalize_image_url "//www.yonex.ch/img/a.jpg" = "/img/a.jpg"
  /\ normalize_image_url "img/a.jpg" = "/img/a.jpg"
  /\ normalize_image_url "" = ""
  /\ normalize_image_url "https://www.yonex.ch//www.yonex.ch/a" = "//www.yonex.ch/a".
Proof. repeat split; reflexivity. Qed.

(** ** The size parser: totality, failure paths, JSON recovery *)

Lemma ai_step_refl w : ai_step w w.
Proof. repeat split. Qed.

Lemma ai_step_trans w1 w2 w3 : ai_step w1 w2 -> ai_step w2 w3 -> ai_step w1 w3.
Proof. unfold ai_step. intuition congruence. Qed.

Lemma truthy_nonempty s : s <> "" -> PyStr.truthy s = true.
Proof. destruct s; [congruence | reflexivity]. Qed.

Section TalkFacts.
Context (R : Runtime).

Lemma parse_outcome text :
  (exists j, json_loads R j = Ok (_parse_json_response R text))
  \/ (exists msg, msg <> "" /\ _parse_json_response R text = failure msg).
Proof.
  unfold _parse_json_response.
  destruct (json_text_of _) as [j|].
  - destruct (json_loads R j) as [v|e] eqn:E.
    + left. eauto.
    + right. eexists. split; [|reflexivity]. discriminate.
  - right. eexists. split; [|reflexivity]. discriminate.
Qed.

Lemma parse_size_outcome text : size_outcome R (_parse_json_response R text).
Proof.
  destruct (parse_outcome text) as [[j Hj] | [msg [Hne ->]]].
  - eapply outcome_answer; eauto.
  - now apply outcome_failure.
Qed.

Lemma gemini_attempts_settled max_retries attempts prompt w :
  exists r w', gemini_attempts R max_retries attempts prompt w = (r, w')
               /\ ai_step w w' /\ settled R r.
Proof.
  revert w. induction attempts as [|attempt rest IH]; intros w.
  - eexists _, _. split; [reflexivity|]. split; [apply ai_step_refl|].
    apply outcome_failure. discriminate.
  - cbn [gemini_attempts]. unfold try_except, bind, request, ret.
    destruct (generate_content R (requests w) (current_model w) prompt) as [text|e] eqn:E.
    + eexists _, _. split; [reflexivity|]. split; [repeat split|].
      apply parse_size_outcome.
    + destruct (gemini_rate_limited e).
      * destruct (Nat.ltb attempt (max_retries - 1)).
        -- unfold sleep, modify. cbn.
           match goal with |- context [gemini_attempts R _ rest prompt ?w1] =>
             destruct (IH w1) as (r & w' & Hrun & Hstep & Hr) end.
           eexists _, _. split; [exact Hrun|]. split; [|exact Hr].
           eapply ai_step_trans; [|exact Hstep]. repeat split.
        -- eexists _, _. split; [reflexivity|]. split; [repeat split|].
           apply outcome_failure. discriminate.
      * eexists _, _. split; [reflexivity|]. split; [repeat split|].
        right. right. left. eauto.
Qed.

Lemma qwen_attempts_settled max_retries attempts thinking prompt w :
  exists r w', qwen_attempts R max_retries attempts thinking prompt w = (r, w')
               /\ ai_step w w' /\ settled R r.
Proof.
  revert w. induction attempts as [|attempt rest IH]; intros w.
  - eexists _, _. split; [reflexivity|]. split; [apply ai_step_refl|].
    apply outcome_failure. discriminate.
  - cbn [qwen_attempts]. unfold try_except, bind, request, ret.
    destruct (chat_completions R (requests w) (current_model w) prompt thinking)
      as [text|e] eqn:E.
    + eexists _, _. split; [reflexivity|]. split; [repeat split|].
      apply parse_size_outcome.
    + destruct (qwen_rate_limited e).
      * destruct (Nat.ltb attempt (max_retries - 1)).
        -- unfold sleep, modify. cbn.
           match goal with |- context [qwen_attempts R _ rest thinking prompt ?w1] =>
             destruct (IH w1) as (r & w' & Hrun & Hstep & Hr) end.
           eexists _, _. split; [exact Hrun|]. split; [|exact Hr].
           eapply ai_step_trans; [|exact Hstep]. repeat split.
        -- eexists _, _. split; [reflexivity|]. split; [repeat split|].
           apply outcome_failure. discriminate.
      * eexists _, _. split; [reflexivity|]. split; [repeat split|].
        right. right. right. eauto.
Qed.

Lemma send_to_gemini_returns prompt w :
  exists v w', _send_to_gemini R prompt w = (Ok v, w') /\ ai_step w w' /\ size_outcome R v.
Proof.
  unfold _send_to_gemini. destruct (GEMINI_AVAILABLE R); cbn [negb].
  - unfold try_except. destruct (genai_Client R) as [[]|e] eqn:E.
    + destruct (gemini_attempts_settled 3 (seq 0 3) prompt w) as (r & w' & -> & Hs & Hr).
      destruct r as [v|e]; eexists _, _; (split; [reflexivity|]); (split; [exact Hs|]).
      * exact Hr.
      * now apply outcome_raised.
    + eexists _, _. split; [reflexivity|]. split; [apply ai_step_refl|].
      apply outcome_raised. now left.
  - eexists _, _. split; [reflexivity|]. split; [apply ai_step_refl|].
    apply outcome_failure. discriminate.
Qed.

Lemma send_to_qwen_returns prompt w :
  exists v w', _send_to_qwen R prompt w = (Ok v, w') /\ ai_step w w' /\ size_outcome R v.
Proof.
  unfold _send_to_qwen. destruct (PyStr.truthy (QWEN_API_KEY R)); cbn [negb].
  - unfold try_except. destruct (qwen_Client R) as [[]|e] eqn:E.
    + unfold bind at 1, get_world.
      destruct (qwen_attempts_settled 3 (seq 0 3)
                  (existsb (String.eqb (current_model w)) thinking_models) prompt w)
        as (r & w' & -> & Hs & Hr).
      destruct r as [v|e]; eexists _, _; (split; [reflexivity|]); (split; [exact Hs|]).
      * exact Hr.
      * now apply outcome_raised.
    + eexists _, _. split; [reflexivity|]. split; [apply ai_step_refl|].
      apply outcome_raised. right. now left.
  - eexists _, _. split; [reflexivity|]. split; [apply ai_step_refl|].
    apply outcome_failure. discriminate.
Qed.

Lemma analyze_sizes_returns description w :
  exists v w', analyze_sizes R description w = (Ok v, w')
               /\ parser_step description w w' /\ size_outcome R v.
Proof.
  unfold analyze_sizes, record_call, modify, bind at 1.
  destruct (PyStr.truthy description) eqn:Ht; cbn [negb].
  - unfold bind, get_world. cbn [current_provider].
    destruct (String.eqb (current_provider w) "gemini").
    + match goal with |- context [_send_to_gemini R ?p ?w1] =>
        destruct (send_to_gemini_returns p w1) as (v & w' & -> & Hs & Hv) end.
      eexists _, _. split; [reflexivity|]. split; [|exact Hv].
      unfold ai_step in Hs. cbn in Hs. unfold parser_step. intuition congruence.
    + destruct (String.eqb (current_provider w) "qwen").
      * match goal with |- context [_send_to_qwen R ?p ?w1] =>
          destruct (send_to_qwen_returns p w1) as (v & w' & -> & Hs & Hv) end.
        eexists _, _. split; [reflexivity|]. split; [|exact Hv].
        unfold ai_step in Hs. cbn in Hs. unfold parser_step. intuition congruence.
      * eexists _, _. split; [reflexivity|]. split; [repeat split|].
        apply outcome_failure. discriminate.
  - eexists _, _. split; [reflexivity|]. split; [repeat split|].
    apply outcome_failure. discriminate.
Qed.

(** *** The paths through the retry loop *)

Ltac earlier_attempts Hprev :=
  try (destruct (Hprev 0 ltac:(lia)) as (? & ? & ?));
  try (destruct (Hprev 1 ltac:(lia)) as (? & ? & ?));
  cbn [Nat.add] in *.

Ltac settle_path :=
  eexists _, _; (split; [reflexivity|]);
  let k := fresh "k" in let Hk := fresh "Hk" in let Hprev := fresh "Hprev" in
  intros k Hk Hprev;
  destruct k as [|[|[|k]]]; [| | |lia];
  earlier_attempts Hprev;
  (split; [|split]); intros; try congruence; try reflexivity.

Lemma gemini_loop_paths prompt w :
  exists v w',
    try_except (gemini_attempts R 3 (seq 0 3) prompt) (fun e => ret (failure e)) w
    = (Ok v, w')
    /\ forall k, k < 3 ->
       (forall j, j < k ->
          exists e, generate_content R (j + requests w) (current_model w) prompt = Raise e
                    /\ gemini_rate_limited e = true) ->
       (forall text,
           generate_content R (k + requests w) (current_model w) prompt = Ok text ->
           v = _parse_json_response R text)
       /\ (forall e,
             generate_content R (k + requests w) (current_model w) prompt = Raise e ->
             gemini_rate_limited e = false -> v = failure e)
       /\ (forall e,
             k = 2 ->
             generate_content R (k + requests w) (current_model w) prompt = Raise e ->
             gemini_rate_limited e = true ->
             v = failure "Rate limited after 3 attempts").
Proof.
  cbn [seq gemini_attempts]. unfold try_except, bind, request, ret, raise, sleep, modify.
  cbn [requests current_model Nat.ltb Nat.leb Nat.sub fst snd].
  destruct (generate_content R (requests w) (current_model w) prompt)
    as [t0|e0] eqn:E0; [settle_path|].
  destruct (gemini_rate_limited e0) eqn:L0; [|settle_path].
  cbn [requests current_model].
  destruct (generate_content R (S (requests w)) (current_model w) prompt)
    as [t1|e1] eqn:E1; [settle_path|].
  destruct (gemini_rate_limited e1) eqn:L1; [|settle_path].
  cbn [requests current_model].
  destruct (generate_content R (S (S (requests w))) (current_model w) prompt)
    as [t2|e2] eqn:E2; [settle_path|].
  destruct (gemini_rate_limited e2) eqn:L2; settle_path.
Qed.

Lemma qwen_loop_paths thinking prompt w :
  exists v w',
    try_except (qwen_attempts R 3 (seq 0 3) thinking prompt) (fun e => ret (failure e)) w
    = (Ok v, w')
    /\ forall k, k < 3 ->
       (forall j, j < k ->
          exists e, chat_completions R (j + requests w) (current_model w) prompt thinking
                    = Raise e
                    /\ qwen_rate_limited e = true) ->
       (forall text,
           chat_completions R (k + requests w) (current_model w) prompt thinking = Ok text ->
           v = _parse_json_response R text)
       /\ (forall e,
             chat_completions R (k + requests w) (current_model w) prompt thinking
             = Raise e ->
             qwen_rate_limited e = false -> v = failure e)
       /\ (forall e,
             k = 2 ->
             chat_completions R (k + requests w) (current_model w) prompt thinking
             = Raise e ->
             qwen_rate_limited e = true ->
             v = failure "Rate limited after 3 attempts").
Proof.
  cbn [seq qwen_attempts]. unfold try_except, bind, request, ret, raise, sleep, modify.
  cbn [requests current_model Nat.ltb Nat.leb Nat.sub fst snd].
  destruct (chat_completions R (requests w) (current_model w) prompt thinking)
    as [t0|e0] eqn:E0; [settle_path|].
  destruct (qwen_rate_limited e0) eqn:L0; [|settle_path].
  cbn [requests current_model].
  destruct (chat_completions R (S (requests w)) (current_model w) prompt thinking)
    as [t1|e1] eqn:E1; [settle_path|].
  destruct (qwen_rate_limited e1) eqn:L1; [|settle_path].
  cbn [requests current_model].
  destruct (chat_completions R (S (S (requests w))) (current_model w) prompt thinking)
    as [t2|e2] eqn:E2; [settle_path|].
  destruct (qwen_rate_limited e2) eqn:L2; settle_path.
Qed.

End TalkFacts.

Section SizeParser.
Context (R : Runtime).

Lemma json_text_of_span a mid b :
  PyStr.find_char "{" a = None -> PyStr.rfind_char "}" b = None ->
  json_text_of (a +:+ "{" +:+ mid +:+ "}" +:+ b) = Some ("{" +:+ mid +:+ "}").
Proof.
  intros Ha Hb. unfold json_text_of.
  change ("{" +:+ mid +:+ "}" +:+ b) with (String "{" (mid +:+ String "}" b)).
  rewrite (PyStrFacts.find_char_app "{" a _ Ha).
  replace (a +:+ String "{" (mid +:+ String "}" b))
    with ((a +:+ String "{" mid) +:+ String "}" b)
    by (now rewrite PyStrFacts.append_assoc).
  rewrite (PyStrFacts.rfind_char_app "}" _ _ Hb).
  f_equal.
  replace ((a +:+ String "{" mid) +:+ String "}" b)
    with (a +:+ (String "{" (mid +:+ "}")) +:+ b)
    by (now rewrite !PyStrFacts.append_assoc; simpl; rewrite !PyStrFacts.append_assoc).
  replace (String.length (a +:+ String "{" mid) + 1)
    with (String.length a + String.length (String "{" (mid +:+ "}")))
    by (simpl; rewrite !PyStrFacts.length_append; simpl; lia).
  apply PyStrFacts.slice_middle.
Qed.

Lemma json_text_of_none t :
  PyStr.find_char "{" t = None \/ PyStr.rfind_char "}" t = None ->
  json_text_of t = None.
Proof.
  unfold json_text_of. intros [-> | ->]; [reflexivity|].
  now destruct (PyStr.find_char "{" t).
Qed.

(** C3, as stated, fails: a request that raises an exception without a
    message ends in a failure result whose error text is empty. *)
Lemma analyze_sizes_error_may_be_empty :
  fst (analyze_sizes (Demo.silent_timeout (Ok [])) "S, M, L (=komplett)" Demo.world)
    = Ok {| available := Tokens []; sold_out := Tokens []; error := Some "" |}
  /\ (forall text, json_loads (Demo.silent_timeout (Ok [])) text
                   <> Ok {| available := Tokens []; sold_out := Tokens []; error := Some "" |})
  /\ ~ (forall (R : Runtime) description w,
          exists v w', analyze_sizes R description w = (Ok v, w')
            /\ ((exists text, json_loads R text = Ok v)
                \/ (available v = Tokens [] /\ sold_out v = Tokens []
                    /\ exists msg, error v = Some msg /\ msg <> ""))).
Proof.
  assert (Hdec : forall text, json_loads (Demo.silent_timeout (Ok [])) text
                   <> Ok {| available := Tokens []; sold_out := Tokens []; error := Some "" |}).
  { intros text. cbn [json_loads Demo.silent_timeout]. unfold Demo.loads.
    destruct (find _ Demo.known_answers) as [kv|] eqn:E.
    - apply find_some in E as [Hin _]. intros [=H].
      cbn in Hin. destruct Hin as [<-|[<-|[<-|[]]]]; discriminate.
    - destruct (existsb _ _); discriminate. }
  split; [vm_compute; reflexivity|]. split; [exact Hdec|].
  intros H.
  destruct (H (Demo.silent_timeout (Ok [])) "S, M, L (=komplett)" Demo.world)
    as (v & w' & Hrun & Hv).
  vm_compute in Hrun. injection Hrun as <- _.
  destruct Hv as [[text Ht] | (_ & _ & msg & [= <-] & Hne)].
  - exact (Hdec text Ht).
  - now apply Hne.
Qed.

(** C3, amended: the size parser is total; it returns without raising for
    every description in every world, and every path ends in the result the
    code gives there.  An empty description, an unknown provider, a missing
    Gemini package, an empty Qwen key and a client that cannot be made each
    end in the failure with that text; with a client at hand, the first
    request that is not rate limited settles the result: the recovery of its
    answer (a decoded object, or the failure "Invalid JSON response" or
    "JSON parse error: ..." when braces are missing or the decoder rejects
    the text), or the failure carrying the text of its exception; a third
    rate limit in a row ends in "Rate limited after 3 attempts".  A failure
    has empty [available] and [sold_out] and an [error] that is a string:
    a non-empty text of the program, or else the text of the exception a
    client raised, which is empty when that exception carries no message. *)
Theorem analyze_sizes_total (description : string) (w : World) :
  let prompt := _build_size_prompt description in
  exists v w', analyze_sizes R description w = (Ok v, w')
    /\ ((exists text, json_loads R text = Ok v)
        \/ (available v = Tokens [] /\ sold_out v = Tokens []
            /\ exists msg, error v = Some msg /\ (msg <> "" \/ oracle_raises R msg)))
    /\ (description = "" -> v = failure "No description provided")
    /\ (description <> "" ->
        (current_provider w <> "gemini" -> current_provider w <> "qwen" ->
         v = failure ("Unknown provider: " +:+ current_provider w))
        /\ (current_provider w = "gemini" -> GEMINI_AVAILABLE R = false ->
            v = failure "Gemini not available (google-genai not installed)")
        /\ (current_provider w = "qwen" -> QWEN_API_KEY R = "" ->
            v = failure "DASHSCOPE_API_KEY environment variable not set")
        /\ (forall e, client_of R w = Some (Raise e) -> v = failure e)
        /\ (client_of R w = Some (Ok tt) ->
            forall k, k < 3 -> (forall j, j < k -> limited R w prompt j) ->
              (forall text, attempt R w prompt k = Ok text ->
                            v = _parse_json_response R text)
              /\ (forall e, attempt R w prompt k = Raise e ->
                            rate_limit w e = false -> v = failure e)
              /\ (k = 2 -> limited R w prompt k ->
                  v = failure "Rate limited after 3 attempts")))
    /\ (forall text,
          (json_text_of (strip_code_fence (PyStr.strip text)) = None ->
           _parse_json_response R text = failure "Invalid JSON response")
          /\ (forall json_text e,
                json_text_of (strip_code_fence (PyStr.strip text)) = Some json_text ->
                json_loads R json_text = Raise e ->
                _parse_json_response R text = failure ("JSON parse error: " +:+ e))).
Proof.
  intros prompt.
  destruct (analyze_sizes_returns R description w) as (v & w' & Hrun & _ & Hv).
  exists v, w'. split; [exact Hrun|]. split; [|split; [|split]].
  - destruct Hv as [text v Ht | msg Hne | msg Hr].
    + left. eauto.
    + right. repeat split. exists msg. split; [reflexivity | now left].
    + right. repeat split. exists msg. split; [reflexivity | now right].
  - intros ->. unfold analyze_sizes, record_call, modify, bind, ret in Hrun.
    cbn [PyStr.truthy negb] in Hrun. now injection Hrun as <- _.
  - intros Hd. clear Hv. revert Hrun.
    unfold analyze_sizes, record_call, modify, bind at 1.
    rewrite (truthy_nonempty _ Hd). cbn [negb].
    unfold bind, get_world. cbn [current_provider].
    unfold client_of, limited, attempt, rate_limit. fold prompt.
    destruct (String.eqb (current_provider w) "gemini") eqn:Hg.
    + apply String.eqb_eq in Hg. unfold _send_to_gemini.
      destruct (GEMINI_AVAILABLE R) eqn:Ha; cbn [negb].
      * destruct (genai_Client R) as [[]|e0] eqn:Hc.
        -- cbv beta iota zeta.
           match goal with |- context [try_except _ _ ?w1] =>
             destruct (gemini_loop_paths R prompt w1) as (v1 & w1' & Hrun1 & Hpaths) end.
           rewrite Hrun1. intros [= <- <-].
           repeat apply conj; try congruence.
           intros _ k Hk Hprev.
           destruct (Hpaths k Hk Hprev) as (Hok & Hraise & Hlast).
           split; [exact Hok|]. split; [exact Hraise|].
           intros H2 (e & He & Hl). exact (Hlast e H2 He Hl).
        -- unfold try_except, raise, ret. intros [= <- <-].
           repeat apply conj; congruence.
      * unfold ret. intros [= <- <-].
        repeat apply conj; congruence.
    + apply String.eqb_neq in Hg.
      destruct (String.eqb (current_provider w) "qwen") eqn:Hq.
      * apply String.eqb_eq in Hq. unfold _send_to_qwen.
        destruct (PyStr.truthy (QWEN_API_KEY R)) eqn:Hk; cbn [negb].
        -- destruct (qwen_Client R) as [[]|e0] eqn:Hc.
           ++ cbv beta iota zeta. unfold try_except at 1, bind at 1, get_world.
              match goal with |- context [qwen_attempts R 3 (seq 0 3) ?t prompt ?w1] =>
                destruct (qwen_loop_paths R t prompt w1) as (v1 & w1' & Hrun1 & Hpaths) end.
              unfold try_except in Hrun1. cbn [current_model] in *.
              rewrite Hrun1. intros [= <- <-].
              repeat apply conj; try congruence.
              ** intros _ He. rewrite He in Hk. discriminate.
              ** intros _ k Hlt Hprev.
                 destruct (Hpaths k Hlt Hprev) as (Hok & Hraise & Hlast).
                 split; [exact Hok|]. split; [exact Hraise|].
                 intros H2 (e & He & Hl). exact (Hlast e H2 He Hl).
           ++ unfold try_except, raise, ret. intros [= <- <-].
              repeat apply conj; try congruence.
              intros _ He. rewrite He in Hk. discriminate.
        -- unfold ret. intros [= <- <-].
           repeat apply conj; congruence.
      * apply String.eqb_neq in Hq. unfold ret. intros [= <- <-].
        repeat apply conj; intros; try reflexivity; congruence.
  - intros text. unfold _parse_json_response. split.
    + intros ->. reflexivity.
    + intros json_text e -> ->. reflexivity.
Qed.

(** C7, as stated, fails: the recovery step takes the text from the first
    opening brace to the last closing brace, not the first balanced object;
    an answer followed by prose with braces is lost. *)
Lemma parse_json_response_not_first_balanced :
  first_balanced_object Demo.answer_in_prose = Some Demo.answer_L_sold_out
  /\ json_text_of Demo.answer_in_prose
     = Some (Demo.answer_L_sold_out +:+ " (sizes in {EU}")
  /\ json_loads (Demo.runtime (Ok [])) Demo.answer_L_sold_out
     = Ok {| available := Tokens ["S"; "M"]; sold_out := Tokens ["L"]; error := None |}
  /\ _parse_json_response (Demo.runtime (Ok [])) Demo.answer_in_prose
     = failure "JSON parse error: Extra data".
Proof. repeat split; vm_compute; reflexivity. Qed.

(** C7, amended: after trimming white space and dropping the fence lines of
    a fenced block, the recovery step takes the text from the first opening
    brace to the last closing brace and gives it to the JSON decoder: it
    returns the decoded object, or a parse failure with the decoder's message
    when the decoder rejects that text, and the failure "Invalid JSON
    response" when an opening or a closing brace is missing.  In every case
    the result is a decoded object or a failure with a non-empty error. *)
Theorem parse_json_response_span (response_text : string) :
  (forall a mid b,
      strip_code_fence (PyStr.strip response_text) = a +:+ "{" +:+ mid +:+ "}" +:+ b ->
      PyStr.find_char "{" a = None -> PyStr.rfind_char "}" b = None ->
      _parse_json_response R response_text
      = match json_loads R ("{" +:+ mid +:+ "}") with
        | Ok size_info => size_info
        | Raise e => failure ("JSON parse error: " +:+ e)
        end)
  /\ (PyStr.find_char "{" (strip_code_fence (PyStr.strip response_text)) = None
      \/ PyStr.rfind_char "}" (strip_code_fence (PyStr.strip response_text)) = None ->
      _parse_json_response R response_text = failure "Invalid JSON response")
  /\ ((exists j, json_loads R j = Ok (_parse_json_response R response_text))
      \/ (exists msg, msg <> "" /\ _parse_json_response R response_text = failure msg)).
Proof.
  split; [|split].
  - intros a mid b Ht Ha Hb. unfold _parse_json_response.
    rewrite Ht, (json_text_of_span a mid b Ha Hb). reflexivity.
  - intros H. unfold _parse_json_response. now rewrite (json_text_of_none _ H).
  - apply parse_outcome.
Qed.

End SizeParser.

(** A request that is rate limited once and then answered: the second
    request settles the analysis with the recovery of its answer. *)
Lemma analyze_sizes_total_witness :
  exists w',
    analyze_sizes (runtime_with_model (busy_model 1)) "S, M, L (=komplett)" Demo.world
    = (Ok {| available := Tokens ["S"; "M"; "L"]; sold_out := Tokens [];
             error := None |}, w').
Proof.
  destruct (analyze_sizes_total (runtime_with_model (busy_model 1))
              "S, M, L (=komplett)" Demo.world)
    as (v & w' & Hrun & _ & _ & Hpaths & _).
  exists w'. rewrite Hrun.
  destruct (Hpaths ltac:(discriminate)) as (_ & _ & _ & _ & Hloop).
  destruct (Hloop eq_refl 1 ltac:(lia)) as (Hok & _).
  { intros j Hj. assert (j = 0) as -> by lia. eexists. split; reflexivity. }
  rewrite (Hok Demo.answer_complete eq_refl). reflexivity.
Defined.

(** A fenced answer is decoded; a reply without braces is a parse failure. *)
Lemma parse_json_response_span_witness :
  _parse_json_response (Demo.runtime (Ok []))
    ("```json" +:+ String "010" Demo.answer_L_sold_out +:+ String "010" "```")
  = {| available := Tokens ["S"; "M"]; sold_out := Tokens ["L"]; error := None |}
  /\ _parse_json_response (Demo.runtime (Ok [])) "I could not find any sizes."
     = failure "Invalid JSON response".
Proof.
  pose proof (parse_json_response_span (Demo.runtime (Ok []))
    ("```json" +:+ String "010" Demo.answer_L_sold_out +:+ String "010" "```"))
    as (Hspan & _ & _).
  pose proof (parse_json_response_span (Demo.runtime (Ok []))
    "I could not find any sizes.") as (_ & Hnone & _).
  split.
  - rewrite (Hspan "" (quoted "`available`:[`S`,`M`],`sold_out`:[`L`]") "");
      [reflexivity | vm_compute; reflexivity | reflexivity | reflexivity].
  - apply Hnone. left. vm_compute. reflexivity.
Defined.

Example retry_delay_examples :
  retry_delay_of "429 RESOURCE_EXHAUSTED retryDelay: '37s'" = Some 37
  /\ gemini_delay "429 RESOURCE_EXHAUSTED retryDelay: '37s'" = 42
  /\ gemini_delay "429 Too Many Requests" = 60
  /\ gemini_delay "retryDelay: 2s" = 15
  /\ gemini_rate_limited "500 internal" = false.
Proof. repeat split; reflexivity. Qed.

(** Three rate-limited requests: two sleeps, then the failure result. *)
Example rate_limit_exhausted :
  let R := mkRuntime elements (fun X => reflexivity (elements X))
             Demo.loads Demo.dumps Demo.load_snapshot Demo.dump_snapshot
             true (Ok tt) (fun _ _ _ => Raise "429 RESOURCE_EXHAUSTED retryDelay: 37s")
             "" (Ok tt) (fun _ _ _ _ => Raise "429") (fun _ => Ok []) Demo.clock in
  let '(r, w) := analyze_sizes R "S, M, L" Demo.world in
  r = Ok (failure "Rate limited after 3 attempts")
  /\ requests w = 3 /\ sleeps w = [42; 42] /\ parser_calls w = ["S, M, L"].
Proof. vm_compute. repeat split; reflexivity. Qed.

(** ** The diff *)

Module DictFacts.
Import Dict.

Lemma get_set_sizes_eq d k s p :
  get d k = Some p -> get (set_sizes d k s) k = Some (with_sizes s p).
Proof.
  induction d as [|[k' q] d IH]; simpl; [discriminate|].
  destruct (String.eqb k k') eqn:E; simpl; rewrite E.
  - now intros [= ->].
  - exact IH.
Qed.

Lemma get_set_sizes_ne d k k' s :
  k <> k' -> get (set_sizes d k s) k' = get d k'.
Proof.
  intros Hne. induction d as [|[k0 q] d IH]; simpl; [reflexivity|].
  destruct (String.eqb k k0) eqn:E; simpl.
  - apply String.eqb_eq in E as <-.
    destruct (String.eqb k' k) eqn:E'; [|reflexivity].
    apply String.eqb_eq in E'. congruence.
  - now rewrite IH.
Qed.

Lemma length_set_sizes d k s : length (set_sizes d k s) = length d.
Proof.
  induction d as [|[k0 q] d IH]; simpl; [reflexivity|].
  destruct (String.eqb k k0); simpl; congruence.
Qed.

Lemma keys_set_sizes d k s : keys (set_sizes d k s) = keys d.
Proof.
  unfold keys. induction d as [|[k0 q] d IH]; simpl; [reflexivity|].
  destruct (String.eqb k k0); simpl; congruence.
Qed.

Lemma get_is_Some d k : is_Some (get d k) <-> k ∈ keys d.
Proof.
  unfold keys. induction d as [|[k0 q] d IH]; simpl.
  - split; [intros [? [=]] | intros H; inversion H].
  - destruct (String.eqb k k0) eqn:E.
    + apply String.eqb_eq in E as ->. split; [intros _; apply list_elem_of_here | eauto].
    + apply String.eqb_neq in E. rewrite IH. split.
      * intros H. now apply list_elem_of_further.
      * intros H. inversion H; subst; [congruence | assumption].
Qed.

Lemma in_py_set d k : k ∈ py_set (keys d) <-> is_Some (get d k).
Proof. unfold py_set. rewrite elem_of_list_to_set. symmetry. apply get_is_Some. Qed.

End DictFacts.

Section SetIteration.
Context (R : Runtime).

Lemma in_set_iter (X : gset string) k : k ∈ set_iter R X <-> k ∈ X.
Proof. rewrite (set_iter_perm R X). apply elem_of_elements. Qed.

Lemma NoDup_set_iter (X : gset string) : NoDup (set_iter R X).
Proof. rewrite (set_iter_perm R X). apply NoDup_elements. Qed.

Lemma set_iter_empty : set_iter R ∅ = [].
Proof.
  apply Permutation_nil_r. rewrite (set_iter_perm R ∅). now rewrite elements_empty.
Qed.


End SetIteration.

Lemma diff_step_refl w : diff_step w w.
Proof. repeat split. Qed.

Lemma diff_step_trans w1 w2 w3 : diff_step w1 w2 -> diff_step w2 w3 -> diff_step w1 w3.
Proof. unfold diff_step. intuition congruence. Qed.

Lemma parser_step_diff_step d w w' : parser_step d w w' -> diff_step w w'.
Proof. unfold parser_step, diff_step. intuition. Qed.

Lemma set_of_settable v :
  settable v = true ->
  set_of (available v) = Ok (py_set (get_list (available v)))
  /\ set_of (sold_out v) = Ok (py_set (get_list (sold_out v))).
Proof. destruct v as [[| |] [| |] ?]; cbn; intros H; try discriminate; now split. Qed.

Lemma settable_failure msg : settable (failure msg) = true.
Proof. reflexivity. Qed.

Section DiffFacts.
Context (R : Runtime).

Lemma size_outcome_settable v :
  answers_are_lists R -> size_outcome R v -> settable v = true.
Proof. intros Hl [text v' Ht | msg _ | msg _]; [eapply Hl; eauto | reflexivity..]. Qed.

Lemma analyze_sizes_diff_step d w v w' :
  analyze_sizes R d w = (Ok v, w') -> diff_step w w'.
Proof.
  intros H. destruct (analyze_sizes_returns R d w) as (v' & w'' & H' & Hs & _).
  rewrite H in H'. injection H' as _ <-. eapply parser_step_diff_step; eauto.
Qed.

(** The two parser calls are made in any case; the delta is built when both
    results pass through [set], and the first field that does not raises. *)
Lemma analyze_size_changes_cases old_description new_description w :
  exists o w1 n w',
    analyze_sizes R old_description w = (Ok o, w1)
    /\ analyze_sizes R new_description w1 = (Ok n, w')
    /\ size_outcome R o /\ size_outcome R n
    /\ ((settable o = true /\ settable n = true
         /\ analyze_size_changes R old_description new_description w
            = (Ok (delta_of R o n), w'))
        \/ ((settable o = false \/ settable n = false)
            /\ exists e, analyze_size_changes R old_description new_description w
                         = (Raise e, w'))).
Proof.
  destruct (analyze_sizes_returns R old_description w) as (o & w1 & Ho & _ & So).
  destruct (analyze_sizes_returns R new_description w1) as (n & w' & Hn & _ & Sn).
  exists o, w1, n, w'. repeat (split; [assumption|]).
  clear So Sn.
  destruct o as [[|oa|? ?] [|os|? ?] ?], n as [[|na|? ?] [|ns|? ?] ?];
    cbn [settable available sold_out];
    first [ left; split; [reflexivity|]; split; [reflexivity|];
            unfold analyze_size_changes, bind; rewrite Ho, Hn; reflexivity
          | right; split; [auto|]; eexists;
            unfold analyze_size_changes, bind; rewrite Ho, Hn; reflexivity ].
Qed.

Lemma analyze_size_changes_returns old_description new_description w :
  answers_are_lists R ->
  exists sa w', analyze_size_changes R old_description new_description w = (Ok sa, w')
                /\ parsed_pair R old_description new_description w sa w'.
Proof.
  intros Hl.
  destruct (analyze_size_changes_cases old_description new_description w)
    as (o & w1 & n & w' & Ho & Hn & So & Sn & [(Hso & Hsn & Hrun) | ([H|H] & _)]).
  - exists (delta_of R o n), w'. split; [exact Hrun|]. exists w1. cbn. auto.
  - rewrite (size_outcome_settable o Hl So) in H. discriminate.
  - rewrite (size_outcome_settable n Hl Sn) in H. discriminate.
Qed.

Lemma parsed_pair_calls old_description new_description w sa w' :
  parsed_pair R old_description new_description w sa w' ->
  parser_calls w' = (parser_calls w ++ [old_description; new_description])%list.
Proof.
  intros (w1 & Ho & Hn & _).
  destruct (analyze_sizes_returns R old_description w) as (o & w1' & Ho' & So & _).
  rewrite Ho in Ho'. injection Ho' as _ <-.
  destruct (analyze_sizes_returns R new_description w1) as (n & w2 & Hn' & Sn & _).
  rewrite Hn in Hn'. injection Hn' as _ <-.
  destruct So as (_ & _ & So & _), Sn as (_ & _ & Sn & _).
  rewrite Sn, So, <- app_assoc. reflexivity.
Qed.

Lemma parsed_pair_diff_step o n w sa w' : parsed_pair R o n w sa w' -> diff_step w w'.
Proof.
  intros (w1 & Ho & Hn & _).
  eapply diff_step_trans; eapply analyze_sizes_diff_step; eauto.
Qed.

Variables previous_products current_products : Snapshot.

(** The loop over the common keys either runs to its end, or stops at a key
    whose description changed and one of whose parse results does not pass
    through [set]. *)
Lemma modified_loop_cases images : forall cur acc w,
  NoDup images ->
  (forall k, k ∈ images -> Dict.get cur k = Dict.get current_products k) ->
  (forall k, k ∈ images ->
     is_Some (Dict.get current_products k) /\ is_Some (Dict.get previous_products k)) ->
  exists r w',
    modified_loop R previous_products images cur acc w = (r, w')
    /\ diff_step w w'
    /\ match r with
       | Ok (cur', out) =>
           exists ms, out = (acc ++ ms)%list
             /\ modified_run R previous_products current_products images w ms w'
             /\ Dict.keys cur' = Dict.keys cur
             /\ length cur' = length cur
             /\ (forall k, k ∉ images -> Dict.get cur' k = Dict.get cur k)
       | Raise e =>
           exists k current previous v,
             k ∈ images
             /\ Dict.get current_products k = Some current
             /\ Dict.get previous_products k = Some previous
             /\ description_differs current previous = true
             /\ size_outcome R v /\ settable v = false
       end.
Proof.
  induction images as [|k rest IH]; intros cur acc w Hnd Hcur Hin.
  - exists (Ok (cur, acc)), w. split; [reflexivity|]. split; [apply diff_step_refl|].
    exists []. rewrite app_nil_r. repeat split; constructor.
  - apply NoDup_cons in Hnd as [Hk Hnd].
    destruct (Hin k (list_elem_of_here _ _)) as [[c Hc] [p Hp]].
    assert (Hrest : forall k', k' ∈ rest ->
              is_Some (Dict.get current_products k') /\ is_Some (Dict.get previous_products k'))
      by (intros; apply Hin; now apply list_elem_of_further).
    assert (Hck : Dict.get cur k = Some c)
      by (rewrite Hcur; [exact Hc | apply list_elem_of_here]).
    cbn [modified_loop]. unfold Dict.item, bind at 1. rewrite Hck. unfold ret at 1.
    unfold bind at 1. rewrite Hp. unfold ret at 1.
    destruct (fields_differ c p) eqn:Hf; [destruct (description_differs c p) eqn:Hd|].
    + destruct (analyze_size_changes_cases (text_for_sizes p) (text_for_sizes c) w)
        as (o & w0 & n & w1 & Ho & Hn & So & Sn & Hcases).
      assert (Hstep : diff_step w w1)
        by (eapply diff_step_trans; eapply analyze_sizes_diff_step; eauto).
      destruct Hcases as [(Hso & Hsn & Hsa) | (Hbad & e & Hsa)].
      * unfold bind at 1. rewrite Hsa.
        set (sa := delta_of R o n).
        set (sizes := json_dumps R (new_sizes sa)).
        destruct (IH (Dict.set_sizes cur k sizes)
                    (acc ++ [ {| mod_image_url := k; old := p;
                                 new := Dict.with_sizes sizes c;
                                 size_analysis := Some sa |} ])%list w1 Hnd)
          as (r & w' & Hrun & Hstep' & Hr); [|exact Hrest|].
        { intros k' Hk'. rewrite DictFacts.get_set_sizes_ne.
          - apply Hcur. now apply list_elem_of_further.
          - intros ->. contradiction. }
        exists r, w'. split; [exact Hrun|].
        split; [eapply diff_step_trans; eauto|].
        destruct r as [[cur' out]|e].
        -- destruct Hr as (ms & -> & Hms & Hkeys & Hlen & Hframe).
           eexists (_ :: ms). split; [|split; [|split; [|split]]].
           ++ now rewrite <- app_assoc.
           ++ eapply run_description; eauto. exists w0. cbn. auto.
           ++ now rewrite Hkeys, DictFacts.keys_set_sizes.
           ++ now rewrite Hlen, DictFacts.length_set_sizes.
           ++ intros k' Hk'. rewrite Hframe.
              ** apply DictFacts.get_set_sizes_ne. intros ->. apply Hk', list_elem_of_here.
              ** intros H. apply Hk'. now apply list_elem_of_further.
        -- destruct Hr as (k' & c' & p' & v & Hk' & Hr).
           exists k', c', p', v. split; [now apply list_elem_of_further | exact Hr].
      * unfold bind at 1. rewrite Hsa.
        exists (Raise e), w1. split; [reflexivity|]. split; [exact Hstep|].
        destruct Hbad as [Hbad|Hbad].
        -- exists k, c, p, o. repeat split; auto. apply list_elem_of_here.
        -- exists k, c, p, n. repeat split; auto. apply list_elem_of_here.
    + destruct (IH cur (acc ++ [ {| mod_image_url := k; old := p; new := c;
                                    size_analysis := None |} ])%list w Hnd)
        as (r & w' & Hrun & Hstep' & Hr); [|exact Hrest|].
      { intros k' Hk'. apply Hcur. now apply list_elem_of_further. }
      exists r, w'. split; [exact Hrun|]. split; [exact Hstep'|].
      destruct r as [[cur' out]|e].
      * destruct Hr as (ms & -> & Hms & Hkeys & Hlen & Hframe).
        eexists (_ :: ms). split; [|split; [|split; [|split]]].
        -- now rewrite <- app_assoc.
        -- eapply run_other_field; eauto.
        -- exact Hkeys.
        -- exact Hlen.
        -- intros k' Hk'. apply Hframe. intros H. apply Hk'. now apply list_elem_of_further.
      * destruct Hr as (k' & c' & p' & v & Hk' & Hr).
        exists k', c', p', v. split; [now apply list_elem_of_further | exact Hr].
    + destruct (IH cur acc w Hnd)
        as (r & w' & Hrun & Hstep' & Hr); [|exact Hrest|].
      { intros k' Hk'. apply Hcur. now apply list_elem_of_further. }
      exists r, w'. split; [exact Hrun|]. split; [exact Hstep'|].
      destruct r as [[cur' out]|e].
      * destruct Hr as (ms & -> & Hms & Hkeys & Hlen & Hframe).
        exists ms. split; [|split; [|split; [|split]]].
        -- reflexivity.
        -- eapply run_same; eauto.
        -- exact Hkeys.
        -- exact Hlen.
        -- intros k' Hk'. apply Hframe. intros H. apply Hk'. now apply list_elem_of_further.
      * destruct Hr as (k' & c' & p' & v & Hk' & Hr).
        exists k', c', p', v. split; [now apply list_elem_of_further | exact Hr].
Qed.

Lemma added_loop_run images : forall cur acc w,
  NoDup images ->
  (forall k, k ∈ images -> Dict.get cur k = Dict.get current_products k) ->
  (forall k, k ∈ images -> is_Some (Dict.get current_products k)) ->
  exists cur' ps w',
    added_loop R images cur acc w = (Ok (cur', (acc ++ ps)%list), w')
    /\ added_run R current_products images w ps w'
    /\ Dict.keys cur' = Dict.keys cur
    /\ length cur' = length cur.
Proof.
  induction images as [|k rest IH]; intros cur acc w Hnd Hcur Hin.
  - exists cur, [], w. rewrite app_nil_r. repeat split; constructor.
  - apply NoDup_cons in Hnd as [Hk Hnd].
    destruct (Hin k (list_elem_of_here _ _)) as [c Hc].
    assert (Hrest : forall k', k' ∈ rest -> is_Some (Dict.get current_products k'))
      by (intros; apply Hin; now apply list_elem_of_further).
    assert (Hck : Dict.get cur k = Some c)
      by (rewrite Hcur; [exact Hc | apply list_elem_of_here]).
    assert (Hnext : forall s k', k' ∈ rest ->
              Dict.get (Dict.set_sizes cur k s) k' = Dict.get current_products k').
    { intros s k' Hk'. rewrite DictFacts.get_set_sizes_ne.
      - apply Hcur. now apply list_elem_of_further.
      - intros ->. contradiction. }
    cbn [added_loop]. unfold Dict.item, bind at 1. rewrite Hck. unfold ret at 1.
    destruct (has_original_description c) eqn:Hd.
    + destruct (analyze_sizes_returns R (default "" (original_description c)) w)
        as (v & w1 & Hv & _ & _).
      unfold bind at 1. unfold bind at 1. rewrite Hv. unfold ret at 1.
      destruct (IH (Dict.set_sizes cur k (json_dumps R v))
                  (acc ++ [Dict.with_sizes (json_dumps R v) c])%list w1 Hnd (Hnext _) Hrest)
        as (cur' & ps & w' & Hrun & Hps & Hkeys & Hlen).
      eexists cur', (_ :: ps), w'. split; [|split; [|split]].
      * rewrite Hrun. now rewrite <- app_assoc.
      * eapply added_parsed; eauto.
      * now rewrite Hkeys, DictFacts.keys_set_sizes.
      * now rewrite Hlen, DictFacts.length_set_sizes.
    + unfold bind at 1. unfold ret at 1.
      destruct (IH (Dict.set_sizes cur k (json_dumps R no_sizes))
                  (acc ++ [Dict.with_sizes (json_dumps R no_sizes) c])%list w Hnd (Hnext _) Hrest)
        as (cur' & ps & w' & Hrun & Hps & Hkeys & Hlen).
      eexists cur', (_ :: ps), w'. split; [|split; [|split]].
      * rewrite Hrun. now rewrite <- app_assoc.
      * eapply added_plain; eauto.
      * now rewrite Hkeys, DictFacts.keys_set_sizes.
      * now rewrite Hlen, DictFacts.length_set_sizes.
Qed.

Lemma removed_list_run images w :
  (forall k, k ∈ images -> is_Some (Dict.get previous_products k)) ->
  exists ps, removed_list previous_products images w = (Ok ps, w)
             /\ Forall2 (fun k p => Dict.get previous_products k = Some p) images ps.
Proof.
  induction images as [|k rest IH]; intros Hin.
  - exists []. split; [reflexivity | constructor].
  - destruct (Hin k (list_elem_of_here _ _)) as [p Hp].
    destruct IH as (ps & Hrun & Hps).
    { intros; apply Hin; now apply list_elem_of_further. }
    exists (p :: ps). split; [|now constructor].
    cbn [removed_list]. unfold Dict.item, bind at 1. rewrite Hp. unfold ret at 1.
    unfold bind at 1. rewrite Hrun. reflexivity.
Qed.

Lemma added_run_diff_step images w ps w' :
  added_run R current_products images w ps w' -> diff_step w w'.
Proof.
  induction 1; [apply diff_step_refl | | assumption].
  eapply diff_step_trans; [eapply analyze_sizes_diff_step|]; eauto.
Qed.

(** The comparison either returns a change set made of the three passes, or
    raises in the first pass, at a common key whose description changed and
    one of whose parse results does not pass through [set]; in both cases it
    leaves files, tables and the owner's errors alone. *)
Lemma compare_snapshots_cases w :
  exists r w',
    compare_snapshots R previous_products current_products w = (r, w')
    /\ diff_step w w'
    /\ match r with
       | Ok changes =>
           exists w1,
             modified_run R previous_products current_products (set_iter R (common_images previous_products current_products)) w (modified changes) w1
             /\ added_run R current_products (set_iter R (added_images previous_products current_products)) w1 (added changes) w'
             /\ Forall2 (fun k p => Dict.get previous_products k = Some p)
                  (set_iter R (removed_images previous_products current_products)) (removed changes)
             /\ total_current changes = length current_products
             /\ total_previous changes = length previous_products
             /\ Dict.keys (snapshot_of changes) = Dict.keys current_products
       | Raise e =>
           exists k current previous v,
             k ∈ common_images previous_products current_products
             /\ Dict.get current_products k = Some current
             /\ Dict.get previous_products k = Some previous
             /\ description_differs current previous = true
             /\ size_outcome R v /\ settable v = false
       end.
Proof.
  unfold compare_snapshots.
  fold (common_images previous_products current_products)
    (added_images previous_products current_products)
    (removed_images previous_products current_products).
  destruct (modified_loop_cases (set_iter R (common_images previous_products current_products)) current_products [] w)
    as (r & w1 & Hm & Hstep & Hr).
  { apply NoDup_set_iter. }
  { reflexivity. }
  { intros k Hk. apply in_set_iter in Hk. unfold common_images in Hk.
    rewrite elem_of_intersection, !DictFacts.in_py_set in Hk. exact Hk. }
  destruct r as [[cur1 out]|e].
  2:{ exists (Raise e), w1. split; [unfold bind at 1; now rewrite Hm|].
      split; [exact Hstep|].
      destruct Hr as (k & c & p & v & Hk & Hr). exists k, c, p, v.
      split; [now apply in_set_iter in Hk | exact Hr]. }
  destruct Hr as (ms & -> & Hmrun & Hk1 & Hl1 & Hf1). cbn [app] in Hm.
  destruct (added_loop_run (set_iter R (added_images previous_products current_products)) cur1 [] w1)
    as (cur2 & ps & w' & Ha & Harun & Hk2 & Hl2).
  { apply NoDup_set_iter. }
  { intros k Hk. apply Hf1. rewrite in_set_iter. apply in_set_iter in Hk.
    unfold added_images in Hk. unfold common_images.
    apply elem_of_difference in Hk as [_ Hk].
    intros Hc. apply elem_of_intersection in Hc as [_ Hc]. contradiction. }
  { intros k Hk. apply in_set_iter in Hk. unfold added_images in Hk.
    rewrite elem_of_difference, DictFacts.in_py_set in Hk. tauto. }
  destruct (removed_list_run (set_iter R (removed_images previous_products current_products)) w') as (rs & Hr & Hrs).
  { intros k Hk. apply in_set_iter in Hk. unfold removed_images in Hk.
    rewrite elem_of_difference, DictFacts.in_py_set in Hk. tauto. }
  eexists (Ok _), w'. split.
  - unfold bind at 1. rewrite Hm. unfold bind at 1. rewrite Ha.
    unfold bind at 1. rewrite Hr. reflexivity.
  - split.
    { eapply diff_step_trans; [exact Hstep | eapply added_run_diff_step; eauto]. }
    exists w1. split; [exact Hmrun|]. split; [exact Harun|]. split; [exact Hrs|].
    split; [cbn; congruence|]. split; [reflexivity|].
    change (Dict.keys cur2 = Dict.keys current_products). congruence.
Qed.

(** A comparison that returns is made of the three passes. *)
Lemma compare_snapshots_inv_keys w changes w' :
  compare_snapshots R previous_products current_products w = (Ok changes, w') ->
  exists w1,
    modified_run R previous_products current_products (set_iter R (common_images previous_products current_products)) w (modified changes) w1
    /\ added_run R current_products (set_iter R (added_images previous_products current_products)) w1 (added changes) w'
    /\ Forall2 (fun k p => Dict.get previous_products k = Some p)
         (set_iter R (removed_images previous_products current_products)) (removed changes)
    /\ total_current changes = length current_products
    /\ total_previous changes = length previous_products
    /\ Dict.keys (snapshot_of changes) = Dict.keys current_products.
Proof.
  intros Hrun. destruct (compare_snapshots_cases w) as (r & w2 & Hrun' & _ & Hr).
  rewrite Hrun in Hrun'. injection Hrun' as <- <-. exact Hr.
Qed.

(** The comparison returns where the decoder gives lists, and where no
    common key has a changed description. *)
Lemma compare_snapshots_run w :
  answers_are_lists R
  \/ (forall k current previous,
        k ∈ common_images previous_products current_products ->
        Dict.get current_products k = Some current ->
        Dict.get previous_products k = Some previous ->
        description_differs current previous = false) ->
  exists changes w1 w',
    compare_snapshots R previous_products current_products w = (Ok changes, w')
    /\ modified_run R previous_products current_products (set_iter R (common_images previous_products current_products)) w (modified changes) w1
    /\ added_run R current_products (set_iter R (added_images previous_products current_products)) w1 (added changes) w'
    /\ Forall2 (fun k p => Dict.get previous_products k = Some p)
         (set_iter R (removed_images previous_products current_products)) (removed changes)
    /\ total_current changes = length current_products
    /\ total_previous changes = length previous_products
    /\ Dict.keys (snapshot_of changes) = Dict.keys current_products.
Proof.
  intros Hsafe. destruct (compare_snapshots_cases w) as (r & w' & Hrun & _ & Hr).
  destruct r as [changes|e].
  - destruct Hr as (w1 & Hr). exists changes, w1, w'. split; [exact Hrun | exact Hr].
  - exfalso. destruct Hr as (k & c & p & v & Hk & Hc & Hp & Hd & Sv & Hv).
    destruct Hsafe as [Hl | Hsame].
    + rewrite (size_outcome_settable v Hl Sv) in Hv. discriminate.
    + rewrite (Hsame k c p Hk Hc Hp) in Hd. discriminate.
Qed.

End DiffFacts.

Section RunFacts.
Context (R : Runtime) (previous_products current_products : Snapshot).



Lemma modified_run_recorded images w ms w' :
  modified_run R previous_products current_products images w ms w' ->
  Forall (recorded R previous_products current_products) ms.
Proof.
  induction 1 as [w | k rest w ms w' c p Hc Hp Hf _ IH
                    | k rest w ms w' c p Hc Hp Hf Hd _ IH
                    | k rest w w1 ms w' c p sa Hc Hp Hf Hd Hpair _ IH].
  - constructor.
  - exact IH.
  - constructor; [|exact IH]. exists c. cbn. repeat split; auto.
  - constructor; [|exact IH]. exists c. cbn. repeat split; auto.
    right. split; [exact Hd|]. exists sa, w, w1. auto.
Qed.

Lemma modified_run_keys images w ms w' :
  modified_run R previous_products current_products images w ms w' ->
  map mod_image_url ms
  = List.filter (changed_at previous_products current_products) images.
Proof.
  induction 1 as [w | k rest w ms w' c p Hc Hp Hf _ IH
                    | k rest w ms w' c p Hc Hp Hf Hd _ IH
                    | k rest w w1 ms w' c p sa Hc Hp Hf Hd Hpair _ IH];
    cbn [List.filter map]; [reflexivity|..];
    unfold changed_at at 1; rewrite Hc, Hp, Hf; cbn; now rewrite IH.
Qed.

Lemma description_differs_with_sizes s c p :
  description_differs (Dict.with_sizes s c) p = description_differs c p.
Proof. reflexivity. Qed.

Lemma modified_run_calls images w ms w' :
  modified_run R previous_products current_products images w ms w' ->
  parser_calls w' = (parser_calls w ++ flat_map calls_of_modification ms)%list.
Proof.
  induction 1 as [w | k rest w ms w' c p Hc Hp Hf _ IH
                    | k rest w ms w' c p Hc Hp Hf Hd _ IH
                    | k rest w w1 ms w' c p sa Hc Hp Hf Hd Hpair _ IH].
  - now rewrite app_nil_r.
  - exact IH.
  - rewrite IH. cbn [flat_map]. unfold calls_of_modification at 2. cbn [new old].
    now rewrite Hd.
  - rewrite IH, (parsed_pair_calls R _ _ _ _ _ Hpair).
    cbn [flat_map]. unfold calls_of_modification at 2. cbn [new old].
    rewrite description_differs_with_sizes, Hd. now rewrite <- app_assoc.
Qed.

Lemma added_run_calls images w ps w' :
  added_run R current_products images w ps w' ->
  parser_calls w' = (parser_calls w ++ flat_map calls_of_added ps)%list.
Proof.
  induction 1 as [w | k rest w w1 ps w' c v Hc Hd Hv _ IH
                    | k rest w ps w' c Hc Hd _ IH].
  - now rewrite app_nil_r.
  - destruct (analyze_sizes_returns R (default "" (original_description c)) w)
      as (v' & w1' & Hv' & (_ & _ & Hcalls & _) & _).
    rewrite Hv in Hv'. injection Hv' as _ <-.
    rewrite IH, Hcalls. cbn [flat_map]. unfold calls_of_added at 2.
    change (has_original_description (Dict.with_sizes (json_dumps R v) c))
      with (has_original_description c).
    rewrite Hd. now rewrite <- app_assoc.
  - rewrite IH. cbn [flat_map]. unfold calls_of_added at 2.
    change (has_original_description (Dict.with_sizes (json_dumps R no_sizes) c))
      with (has_original_description c).
    now rewrite Hd.
Qed.

Lemma added_run_entries images w ps w' :
  added_run R current_products images w ps w' ->
  Forall2 (fun k p => exists c s, Dict.get current_products k = Some c
                                  /\ p = Dict.with_sizes s c) images ps.
Proof.
  induction 1; constructor; eauto.
Qed.


(** A run that returned [changes] is the run the three passes describe. *)
Lemma compare_snapshots_inv w changes w' :
  compare_snapshots R previous_products current_products w = (Ok changes, w') ->
  exists w1,
    modified_run R previous_products current_products
      (set_iter R (common_images previous_products current_products)) w
      (modified changes) w1
    /\ added_run R current_products
         (set_iter R (added_images previous_products current_products)) w1
         (added changes) w'
    /\ Forall2 (fun k p => Dict.get previous_products k = Some p)
         (set_iter R (removed_images previous_products current_products))
         (removed changes)
    /\ total_current changes = length current_products
    /\ total_previous changes = length previous_products.
Proof.
  intros Hrun.
  destruct (compare_snapshots_inv_keys R previous_products current_products w _ _ Hrun)
    as (w1 & Hm & Ha & Hr & Hc & Hp & _).
  eauto 6.
Qed.

End RunFacts.

Section Traces.
Context (R : Runtime).

Lemma size_trace_app w before w1 after w' :
  size_trace R w before w1 -> size_trace R w1 after w' ->
  size_trace R w (before ++ after) w'.
Proof.
  induction 1 as [w | w m ms w1 Hd Hnone _ IH | w m sa w0 ms w1 Hd Hsa Hpair _ IH];
    intros Hafter; cbn [app].
  - exact Hafter.
  - apply trace_plain; auto.
  - eapply trace_parsed; eauto.
Qed.


End Traces.

(** ** What the diff guarantees *)

Lemma compare_today :
  compare_snapshots (Demo.runtime (Ok Demo.today)) Demo.yesterday Demo.today Demo.world
  = (Ok Demo.changes_today, snd Demo.run_today).
Proof. vm_compute. reflexivity. Qed.

Lemma compare_sale :
  compare_snapshots (Demo.runtime (Ok Demo.summer_sale)) Demo.summer Demo.summer_sale
    Demo.world
  = (Ok Demo.changes_sale, Demo.world).
Proof. vm_compute. reflexivity. Qed.

Section DiffGuarantees.
Context (R : Runtime).


(** C2: the calls of the size parser during a comparison are, in order, the
    old and the new text of every modification whose normalized description
    changed, then the original description of every added entry that has a
    non-empty one, and no others.  A modification whose description did not
    change (only the name or the price did) carries no size delta and stands
    for no call. *)
Theorem parser_called_only_where_needed (previous_products current_products : Snapshot)
    (w w' : World) (changes : Changes) :
  compare_snapshots R previous_products current_products w = (Ok changes, w') ->
  parser_calls w'
  = (parser_calls w
     ++ flat_map calls_of_modification (modified changes)
     ++ flat_map calls_of_added (added changes))%list
  /\ Forall (fun m =>
       exists current,
         Dict.get current_products (mod_image_url m) = Some current
         /\ Dict.get previous_products (mod_image_url m) = Some (old m)
         /\ fields_differ current (old m) = true
         /\ (description (old m) = description (new m) ->
             size_analysis m = None /\ calls_of_modification m = []))
       (modified changes)
  /\ Forall2 (fun k p =>
       exists current s,
         Dict.get current_products k = Some current
         /\ Dict.get previous_products k = None
         /\ p = Dict.with_sizes s current)
       (set_iter R (added_images previous_products current_products)) (added changes).
Proof.
  intros Hrun.
  destruct (compare_snapshots_inv R _ _ _ _ _ Hrun) as (w1 & Hmod & Hadd & _).
  split; [|split].
  - rewrite (added_run_calls R _ _ _ _ _ Hadd), (modified_run_calls R _ _ _ _ _ _ Hmod).
    now rewrite <- app_assoc.
  - apply modified_run_recorded in Hmod.
    eapply Forall_impl; [exact Hmod|]. intros m (c & Hc & Hp & Hf & Hcase).
    exists c. repeat split; try assumption.
    + destruct Hcase as [(Hd & Hnew & Hnone) | (Hd & sa & wa & wb & Hsa & Hnew & _)].
      * exact Hnone.
      * exfalso. rewrite Hnew in H. cbn in H. unfold description_differs in Hd.
        apply negb_true_iff, String.eqb_neq in Hd. congruence.
    + unfold calls_of_modification, description_differs.
      rewrite <- H, String.eqb_refl. reflexivity.
  - apply added_run_entries in Hadd.
    assert (Hin : forall k,
              k ∈ set_iter R (added_images previous_products current_products) ->
              Dict.get previous_products k = None).
    { intros k Hk. apply in_set_iter in Hk. unfold added_images in Hk.
      apply elem_of_difference in Hk as [_ Hk]. rewrite DictFacts.in_py_set in Hk.
      destruct (Dict.get previous_products k); [exfalso; apply Hk; eauto | reflexivity]. }
    induction Hadd as [|k p ks ps (c & s & Hc & Hp) _ IH]; constructor.
    + exists c, s. repeat split; try assumption. apply Hin, list_elem_of_here.
    + apply IH. intros k' Hk'. apply Hin. now apply list_elem_of_further.
Qed.

End DiffGuarantees.


(** Yesterday against today: two calls, both for the shirt; none for the shoe,
    whose price alone changed, and none for the cap, which has no description. *)
Lemma parser_called_only_where_needed_witness :
  parser_calls (snd Demo.run_today)
  = ["S, M, L (=komplett)"; "S, M, L (=nur ausverkauft in L)"]
  /\ Forall (fun m => description (old m) = description (new m) -> size_analysis m = None)
       (modified Demo.changes_today).
Proof.
  destruct (parser_called_only_where_needed (Demo.runtime (Ok Demo.today)) Demo.yesterday
              Demo.today Demo.world (snd Demo.run_today) Demo.changes_today compare_today)
    as (Hcalls & Hmods & _).
  split.
  - rewrite Hcalls. reflexivity.
  - eapply Forall_impl; [exact Hmods|].
    intros m (c & _ & _ & _ & Hnone) Hd. now apply Hnone.
Defined.

Section OrderAndIdentity.
Context (R : Runtime).

(** C4, amended: no sequence of the change set is sorted.  The identities
    of [modified] are the changed common keys in the order in which the
    runtime iterates over the set of common keys; [added] follows the
    iteration order of the set of added keys and [removed] that of the set of
    removed keys.  The order is as deterministic as set iteration is.  The
    comparison gives such a change set for every pair of snapshots, unless
    the decoder gives something else than lists for the sizes of a common
    entry whose description changed: then it raises. *)
Theorem changes_follow_set_iteration (previous_products current_products : Snapshot)
    (w : World) :
  exists r w',
    compare_snapshots R previous_products current_products w = (r, w')
    /\ match r with
       | Ok changes =>
           map mod_image_url (modified changes)
           = List.filter (changed_at previous_products current_products)
               (set_iter R (common_images previous_products current_products))
           /\ Forall2 (fun k p => exists current s,
                         Dict.get current_products k = Some current
                         /\ p = Dict.with_sizes s current)
                (set_iter R (added_images previous_products current_products))
                (added changes)
           /\ Forall2 (fun k p => Dict.get previous_products k = Some p)
                (set_iter R (removed_images previous_products current_products))
                (removed changes)
       | Raise e =>
           ~ answers_are_lists R
           /\ exists k current previous,
                k ∈ common_images previous_products current_products
                /\ Dict.get current_products k = Some current
                /\ Dict.get previous_products k = Some previous
                /\ description current <> description previous
       end.
Proof.
  destruct (compare_snapshots_cases R previous_products current_products w)
    as (r & w' & Hrun & _ & Hr).
  exists r, w'. split; [exact Hrun|]. destruct r as [changes|e].
  - destruct Hr as (w1 & Hmod & Hadd & Hrem & _). split; [|split].
    + eapply modified_run_keys; eauto.
    + eapply added_run_entries; eauto.
    + exact Hrem.
  - destruct Hr as (k & c & p & v & Hk & Hc & Hp & Hd & Sv & Hv). split.
    + intros Hl. rewrite (size_outcome_settable R v Hl Sv) in Hv. discriminate.
    + exists k, c, p. repeat split; try assumption.
      unfold description_differs in Hd. now apply negb_true_iff, String.eqb_neq in Hd.
Qed.

Lemma fields_differ_same p : fields_differ p p = false.
Proof. unfold fields_differ. now rewrite !String.eqb_refl. Qed.

Lemma modified_loop_same (snap : Snapshot) images acc w :
  (forall k, k ∈ images -> is_Some (Dict.get snap k)) ->
  modified_loop R snap images snap acc w = (Ok (snap, acc), w).
Proof.
  induction images as [|k rest IH]; intros Hin; [reflexivity|].
  destruct (Hin k (list_elem_of_here _ _)) as [p Hp].
  cbn [modified_loop]. unfold Dict.item, bind at 1. rewrite Hp. unfold ret at 1.
  unfold bind at 1. unfold ret at 1. rewrite fields_differ_same.
  apply IH. intros; apply Hin; now apply list_elem_of_further.
Qed.

(** C5: comparing a snapshot with itself gives the empty change set, calls
    no parser and changes nothing; and in any comparison a common key whose
    name, description and price are the same on both sides is not among the
    modified. *)
Theorem compare_snapshots_unchanged :
  (forall (snap : Snapshot) (w : World),
      compare_snapshots R snap snap w
      = (Ok {| removed := []; added := []; modified := [];
               total_current := length snap; total_previous := length snap;
               current_products := snap |}, w))
  /\ (forall (previous_products current_products : Snapshot) (w w' : World)
        (changes : Changes) (k : string) (current previous : Product),
        compare_snapshots R previous_products current_products w = (Ok changes, w') ->
        Dict.get current_products k = Some current ->
        Dict.get previous_products k = Some previous ->
        name current = name previous ->
        description current = description previous ->
        price current = price previous ->
        k ∉ map mod_image_url (modified changes)).
Proof.
  split.
  - intros snap w. unfold compare_snapshots.
    assert (Hdiff : py_set (Dict.keys snap) ∖ py_set (Dict.keys snap) = (∅ : gset string))
      by apply difference_diag_L.
    rewrite Hdiff, set_iter_empty.
    assert (Hcap : py_set (Dict.keys snap) ∩ py_set (Dict.keys snap)
                   = py_set (Dict.keys snap))
      by apply intersection_idemp_L.
    rewrite Hcap. unfold bind at 1. rewrite modified_loop_same; [reflexivity|].
    intros k Hk. apply in_set_iter in Hk. now apply DictFacts.in_py_set.
  - intros previous_products current_products w w' changes k c p Hrun Hc Hp Hn Hd Hpr Hin.
    destruct (compare_snapshots_inv R _ _ _ _ _ Hrun) as (w1 & Hmod & _).
    apply modified_run_recorded in Hmod. rewrite Forall_forall in Hmod.
    apply list_elem_of_fmap in Hin as (m & -> & Hm).
    destruct (Hmod m Hm) as (c' & Hc' & Hp' & Hf & _).
    rewrite Hc in Hc'. injection Hc' as <-.
    rewrite Hp in Hp'. injection Hp' as Hold. rewrite <- Hold in Hf.
    unfold fields_differ in Hf. rewrite Hn, Hd, Hpr, !String.eqb_refl in Hf. discriminate.
Qed.

End OrderAndIdentity.

(** C4, as stated, fails: with the price of two entries changed, the
    modified sequence comes out in set iteration order, here descending. *)
Lemma changes_not_sorted_by_identity :
  compare_snapshots (Demo.runtime (Ok Demo.summer_sale)) Demo.summer Demo.summer_sale
    Demo.world = (Ok Demo.changes_sale, Demo.world)
  /\ map mod_image_url (modified Demo.changes_sale) = ["/img/cap.jpg"; "/img/10512.jpg"]
  /\ String.ltb "/img/10512.jpg" "/img/cap.jpg" = true
  /\ ~ Sorted (fun a b => String.leb a b = true)
         (map mod_image_url (modified Demo.changes_sale)).
Proof.
  split; [exact compare_sale|]. split; [reflexivity|]. split; [reflexivity|].
  intros H. change (map mod_image_url (modified Demo.changes_sale))
    with ["/img/cap.jpg"; "/img/10512.jpg"] in H.
  apply Sorted_inv in H as [_ H]. apply HdRel_inv in H. discriminate.
Qed.

(** Today against today: nothing; the shoe is common to yesterday and the
    sale with a changed price, the shirt of the summer against itself is not
    modified. *)
Lemma compare_snapshots_unchanged_witness :
  compare_snapshots (Demo.runtime (Ok Demo.today)) Demo.today Demo.today Demo.world
  = (Ok {| removed := []; added := []; modified := [];
           total_current := 3; total_previous := 3;
           current_products := Demo.today |}, Demo.world)
  /\ "/img/65z.jpg" ∉ map mod_image_url
       (modified (mkChanges [] [] [] 2 2 Demo.yesterday)).
Proof.
  destruct (compare_snapshots_unchanged (Demo.runtime (Ok Demo.today))) as [Hsame Hnot].
  split.
  - exact (Hsame Demo.today Demo.world).
  - eapply (Hnot Demo.yesterday Demo.yesterday Demo.world Demo.world
              _ "/img/65z.jpg" Demo.shoe Demo.shoe);
      [exact (Hsame Demo.yesterday Demo.world) | reflexivity..].
Defined.

(** ** The two reports *)

Section ReportFacts.

Lemma widen_literal c p : c <> "="%char -> c <> "-"%char -> widen (String c p) = String c p.
Proof.
  intros H1 H2. unfold widen.
  apply Ascii.eqb_neq in H1, H2.
  change (rule "=" 50) with (String "=" (rule "=" 49)).
  change (rule "-" 40) with (String "-" (rule "-" 39)).
  change (rule "-" 30) with (String "-" (rule "-" 29)).
  cbn [String.eqb]. now rewrite H1, H2.
Qed.

Lemma widen_text c p s :
  c <> "="%char -> c <> "-"%char -> widen (String c p +:+ s) = String c p +:+ s.
Proof. intros H1 H2. cbn [String.append]. now apply widen_literal. Qed.

Lemma written_app a b : written (a ++ b) = written a +:+ written b.
Proof.
  unfold written. induction a as [|x a IH]; cbn [foldr app]; [reflexivity|].
  now rewrite IH, PyStrFacts.append_assoc.
Qed.

Lemma concat_imap_logged {A} (l : list A) : forall (f g : nat -> A -> list string),
  (forall i x, f i x = map logged (g i x)) ->
  concat (imap f l) = map logged (concat (imap g l)).
Proof.
  induction l as [|x l IH]; intros f g Hfg; [reflexivity|].
  cbn [imap concat]. rewrite map_app, Hfg. f_equal. apply IH.
  intros i y. apply Hfg.
Qed.

(** One line: the log's piece is the message's line, widened, with a newline. *)
Ltac line :=
  unfold logged, nl;
  first [ reflexivity
        | rewrite widen_text by discriminate;
          rewrite ?PyStrFacts.append_assoc; reflexivity
        | rewrite widen_literal by discriminate; reflexivity ].

Ltac lines :=
  cbn [map app]; repeat (apply (f_equal2 cons); [line|]); try reflexivity.

Lemma removed_item_logged i product :
  Log.removed_item i product = map logged (Message.removed_item i product).
Proof. unfold Log.removed_item, Message.removed_item. lines. Qed.

Lemma added_item_logged i product :
  Log.added_item i product = map logged (Message.added_item i product).
Proof. unfold Log.added_item, Message.added_item. lines. Qed.

Lemma name_part_logged m : Log.name_part m = map logged (Message.name_part m).
Proof.
  unfold Log.name_part, Message.name_part.
  destruct (differs _ _); lines.
Qed.

Lemma price_part_logged m : Log.price_part m = map logged (Message.price_part m).
Proof.
  unfold Log.price_part, Message.price_part.
  destruct (differs _ _); lines.
Qed.

Lemma description_part_logged m :
  Log.description_part m = map logged (Message.description_part m).
Proof.
  unfold Log.description_part, Message.description_part.
  destruct (differs _ _); lines.
Qed.

Lemma size_part_logged m : Log.size_part m = map logged (Message.size_part m).
Proof.
  unfold Log.size_part, Message.size_part.
  destruct (size_analysis m) as [sa|]; [|reflexivity].
  destruct (has_size_changes sa); [|lines].
  destruct (some (newly_available sa)), (some (newly_sold_out sa)),
    (some (no_longer_available sa)), (some (no_longer_sold_out sa)); lines.
Qed.

Lemma modified_item_logged i m :
  Log.modified_item i m = map logged (Message.modified_item i m).
Proof.
  unfold Log.modified_item, Message.modified_item.
  rewrite !map_app, name_part_logged, price_part_logged, description_part_logged,
    size_part_logged.
  apply (f_equal2 app); [lines|].
  do 4 (apply (f_equal2 app); [reflexivity|]). lines.
Qed.

(** The pieces the log writes are the lines of the message, each widened and
    ended by a newline, after one newline of its own. *)
Lemma writes_logged changes site_name timestamp :
  written (Log.writes changes site_name timestamp)
  = nl +:+ written (map logged (Message.lines changes site_name timestamp)).
Proof.
  unfold Log.writes, Message.lines.
  rewrite !map_app, !written_app.
  match goal with |- written ?h +:+ _ = nl +:+ written (map logged ?h') +:+ _ =>
    assert (Hhead : written h = nl +:+ written (map logged h')) end.
  { cbn [map written foldr]. unfold logged.
    change (widen (rule "=" 50)) with (rule "=" 80).
    rewrite !widen_text by discriminate.
    rewrite !PyStrFacts.append_assoc. reflexivity. }
  rewrite Hhead, PyStrFacts.append_assoc.
  apply (f_equal2 String.append); [reflexivity|].
  apply (f_equal2 String.append); [reflexivity|].
  apply (f_equal2 String.append); [|apply (f_equal2 String.append);
                                     [|apply (f_equal2 String.append)]]; f_equal.
  - destruct (some (removed changes)); [|reflexivity].
    rewrite map_app. apply (f_equal2 app); [lines|].
    apply concat_imap_logged. intros. apply removed_item_logged.
  - destruct (some (added changes)); [|reflexivity].
    rewrite map_app. apply (f_equal2 app); [lines|].
    apply concat_imap_logged. intros. apply added_item_logged.
  - destruct (some (modified changes)); [|reflexivity].
    rewrite map_app. apply (f_equal2 app); [lines|].
    apply concat_imap_logged. intros. apply modified_item_logged.
  - lines.
Qed.

End ReportFacts.

(** C8, as stated, fails: the message and the log are rendered by two
    copies of the formatting code that draw rules of different widths; for
    one change set and one clock reading the two texts differ. *)
Lemma message_and_log_differ :
  send_notifications_for_changes Demo.changes_today "schuhe" Demo.clock
  <> log_changes Demo.changes_today "schuhe" Demo.clock
  /\ Some (Message.full_message Demo.changes_today "schuhe" Demo.clock)
     <> log_changes Demo.changes_today "schuhe" Demo.clock
  /\ hd "" (Message.lines Demo.changes_today "schuhe" Demo.clock) = rule "=" 50
  /\ hd "" (Log.writes Demo.changes_today "schuhe" Demo.clock)
     = nl +:+ rule "=" 80 +:+ nl.
Proof.
  split; [|split; [|split]].
  - vm_compute. discriminate.
  - vm_compute. discriminate.
  - reflexivity.
  - reflexivity.
Qed.

(** C8, amended: the text for delivery and the text for the log come from
    two separate renderers and are not equal, but for the same change set,
    category and clock reading they carry the same lines in the same order.
    The message is its title followed by the lines joined by newlines; the log
    is one newline followed by every line ended by a newline, with the rules
    drawn wider (80, 60 and 40 characters for the message's 50, 40 and 30).
    Either both texts are produced or, for an empty change set, neither. *)
Theorem log_is_message_with_wider_rules (changes : Changes) (site_name timestamp : string) :
  match send_notifications_for_changes changes site_name timestamp,
        log_changes changes site_name timestamp with
  | Some message, Some log =>
      message
      = telegram_message ("🔔 Yonex " +:+ PyStr.upper site_name +:+ " Update")
          (PyStr.join nl (Message.lines changes site_name timestamp))
      /\ log = nl +:+ written (map logged (Message.lines changes site_name timestamp))
  | None, None => any_changes changes = false
  | _, _ => False
  end.
Proof.
  unfold send_notifications_for_changes, log_changes.
  destruct (any_changes changes); cbn [negb]; [|reflexivity].
  split; [reflexivity | apply writes_logged].
Qed.

(** ** Persistence *)

(** C6, as stated, fails: the history file is opened for writing and
    written in place; when the write fails after 20 characters the file holds
    those 20 characters, neither yesterday's snapshot nor today's, and the run
    reports no changes. *)
Lemma save_is_not_atomic :
  files (snd (analyze_product_changes (Demo.runtime (Ok Demo.today))
                "https://www.yonex.ch/de/badminton/produkte/schuhe/" "schuhe"
                Demo.world_disk_full))
    !! history_file "schuhe"
  = Some (PyStr.slice (Demo.dump_snapshot (snapshot_of Demo.changes_today)) 0 20)
  /\ files Demo.world_disk_full !! history_file "schuhe"
     = Some (Demo.dump_snapshot Demo.yesterday)
  /\ PyStr.slice (Demo.dump_snapshot (snapshot_of Demo.changes_today)) 0 20
     <> Demo.dump_snapshot Demo.yesterday
  /\ PyStr.slice (Demo.dump_snapshot (snapshot_of Demo.changes_today)) 0 20
     <> Demo.dump_snapshot (snapshot_of Demo.changes_today)
  /\ fst (analyze_product_changes (Demo.runtime (Ok Demo.today))
            "https://www.yonex.ch/de/badminton/produkte/schuhe/" "schuhe"
            Demo.world_disk_full)
     = Ok no_changes.
Proof.
  split; [vm_compute; reflexivity|]. split; [vm_compute; reflexivity|].
  split; [vm_compute; discriminate|]. split; [vm_compute; discriminate|].
  vm_compute. reflexivity.
Qed.

Section Saving.
Context (R : Runtime).

(** C6, amended: saving the current snapshot is not atomic.  The history
    file is opened for writing, which empties it, and the serialized snapshot
    is written in place; no other file is touched.  A save that returns leaves
    exactly the new serialization in the file; a save that fails has written
    only the first characters of the new serialization, as many as the device
    accepted, and the previous content is not kept. *)
Theorem save_current_in_place (site_name : string) (snapshot : Snapshot) (w : World) :
  exists r w',
    save_current R site_name snapshot w = (r, w')
    /\ (forall other, other <> history_file site_name ->
          files w' !! other = files w !! other)
    /\ match r with
       | Ok _ => files w' !! history_file site_name = Some (json_dump_snapshot R snapshot)
       | Raise _ =>
           exists n,
             disk_fault w = Some n
             /\ n < String.length (json_dump_snapshot R snapshot)
             /\ files w' !! history_file site_name
                = Some (PyStr.slice (json_dump_snapshot R snapshot) 0 n)
       end.
Proof.
  unfold save_current, bind, open_for_writing, modify, file_write.
  cbn [files disk_fault with_files].
  rewrite lookup_insert_eq. cbn [default].
  destruct (disk_fault w) as [n|] eqn:Hfault.
  - destruct (Nat.ltb n (String.length (json_dump_snapshot R snapshot))) eqn:Hn.
    + eexists _, _. split; [reflexivity|]. cbn [files with_files]. split.
      * intros other Hne. now rewrite !lookup_insert_ne by congruence.
      * exists n. apply Nat.ltb_lt in Hn. rewrite lookup_insert_eq. auto.
    + eexists _, _. split; [reflexivity|]. cbn [files with_files]. split.
      * intros other Hne. now rewrite !lookup_insert_ne by congruence.
      * now rewrite lookup_insert_eq.
  - eexists _, _. split; [reflexivity|]. cbn [files with_files]. split.
    + intros other Hne. now rewrite !lookup_insert_ne by congruence.
    + now rewrite lookup_insert_eq.
Qed.

(** ** The products table *)

(** C10: storing an empty dictionary returns at once; the world, and with
    it every row of every products table, is as it was. *)
Theorem store_products_from_dict_empty (category_name : string) (w : World) :
  store_products_from_dict R [] category_name w = (Ok tt, w).
Proof. reflexivity. Qed.

End Saving.

(** A dictionary with entries replaces the rows of its category. *)
Example store_products_from_dict_replaces :
  map row_name
    (default [] (databases (snd (store_products_from_dict (Demo.runtime (Ok Demo.today))
                                   Demo.today "schuhe" Demo.world_with_rows))
                 !! db_path "schuhe"))
  = ["shirt 10512"; "shb 65z"; "cap"]
  /\ databases (snd (store_products_from_dict (Demo.runtime (Ok Demo.today))
                       [] "schuhe" Demo.world_with_rows))
     !! db_path "schuhe" = Some [Demo.stored_shoe].
Proof. split; vm_compute; reflexivity. Qed.

(** * Further properties *)

(** ** The retry budget of a size analysis *)

Section RetryBudget.
Context (R : Runtime).

Lemma spends_nothing w w' :
  requests w' = requests w -> sleeps w' = sleeps w -> spends w w' 0 0.
Proof.
  intros Hr Hs. unfold spends. rewrite Hr, Hs. repeat split; try lia.
  exists []. rewrite app_nil_r. repeat split; [simpl; lia | constructor].
Qed.

Lemma spends_weaken w w' a b a' b' :
  spends w w' a b -> a <= a' -> b <= b' -> spends w w' a' b'.
Proof.
  intros (H1 & H2 & new & Hs & Hl & Hf) Ha Hb. repeat split; try lia.
  exists new. repeat split; [assumption | lia | assumption].
Qed.

Lemma gemini_delay_floor error_str : 15 <= gemini_delay error_str.
Proof. unfold gemini_delay. apply Nat.le_max_r. Qed.

Lemma gemini_attempts_spends max_retries attempts prompt : forall w,
  spends w (snd (gemini_attempts R max_retries attempts prompt w))
    (length attempts) (sleeping_attempts max_retries attempts).
Proof.
  induction attempts as [|attempt rest IH]; intros w.
  - apply spends_nothing; reflexivity.
  - cbn [gemini_attempts]. unfold try_except, bind, request, ret.
    unfold sleeping_attempts. cbn [List.filter length].
    destruct (generate_content R (requests w) (current_model w) prompt) as [text|e].
    + cbn [snd]. unfold spends. cbn [requests sleeps]. repeat split; try lia.
      exists []. rewrite app_nil_r. repeat split; [simpl; lia | constructor].
    + destruct (gemini_rate_limited e).
      * destruct (Nat.ltb attempt (max_retries - 1)) eqn:Hlt.
        -- unfold sleep, modify. cbn [fst snd].
           match goal with |- context [gemini_attempts R _ rest prompt ?w1] =>
             specialize (IH w1); set (w2 := w1) in * end.
           destruct IH as (H1 & H2 & new & Hs & Hl & Hf).
           unfold sleeping_attempts in Hl. subst w2. cbn [requests sleeps] in *.
           repeat split; try lia.
           exists (gemini_delay e :: new). split; [|split].
           ++ rewrite Hs, <- app_assoc. reflexivity.
           ++ cbn [length]. lia.
           ++ constructor; [apply gemini_delay_floor | exact Hf].
        -- cbn [snd]. unfold spends. cbn [requests sleeps]. repeat split; try lia.
           exists []. rewrite app_nil_r. repeat split; [simpl; lia | constructor].
      * cbn [snd]. unfold raise. cbn [snd]. unfold spends. cbn [requests sleeps].
        repeat split; try lia.
        exists []. rewrite app_nil_r. repeat split; [simpl; lia | constructor].
Qed.

Lemma qwen_attempts_spends max_retries attempts thinking prompt : forall w,
  spends w (snd (qwen_attempts R max_retries attempts thinking prompt w))
    (length attempts) (sleeping_attempts max_retries attempts).
Proof.
  induction attempts as [|attempt rest IH]; intros w.
  - apply spends_nothing; reflexivity.
  - cbn [qwen_attempts]. unfold try_except, bind, request, ret.
    unfold sleeping_attempts. cbn [List.filter length].
    destruct (chat_completions R (requests w) (current_model w) prompt thinking) as [text|e].
    + cbn [snd]. unfold spends. cbn [requests sleeps]. repeat split; try lia.
      exists []. rewrite app_nil_r. repeat split; [simpl; lia | constructor].
    + destruct (qwen_rate_limited e).
      * destruct (Nat.ltb attempt (max_retries - 1)) eqn:Hlt.
        -- unfold sleep, modify. cbn [fst snd].
           match goal with |- context [qwen_attempts R _ rest thinking prompt ?w1] =>
             specialize (IH w1); set (w2 := w1) in * end.
           destruct IH as (H1 & H2 & new & Hs & Hl & Hf).
           unfold sleeping_attempts in Hl. subst w2. cbn [requests sleeps] in *.
           repeat split; try lia.
           exists (30 :: new). split; [|split].
           ++ rewrite Hs, <- app_assoc. reflexivity.
           ++ cbn [length]. lia.
           ++ constructor; [lia | exact Hf].
        -- cbn [snd]. unfold spends. cbn [requests sleeps]. repeat split; try lia.
           exists []. rewrite app_nil_r. repeat split; [simpl; lia | constructor].
      * cbn [snd]. unfold raise. cbn [snd]. unfold spends. cbn [requests sleeps].
        repeat split; try lia.
        exists []. rewrite app_nil_r. repeat split; [simpl; lia | constructor].
Qed.

End RetryBudget.

Section RetryClaims.
Context (R : Runtime).

(** X1: one size analysis issues at most three model requests and sleeps at
    most twice, never for less than 15 seconds, whatever the clients do. *)
Theorem analyze_sizes_budget (description : string) (w : World) :
  requests w <= requests (snd (analyze_sizes R description w))
  /\ requests (snd (analyze_sizes R description w)) <= requests w + 3
  /\ exists new,
       sleeps (snd (analyze_sizes R description w)) = (sleeps w ++ new)%list
       /\ length new <= 2
       /\ Forall (fun seconds => 15 <= seconds) new.
Proof.
  change (spends w (snd (analyze_sizes R description w)) 3 2).
  unfold analyze_sizes, record_call, modify, bind at 1.
  assert (Hfrom : forall w0 w', requests w0 = requests w -> sleeps w0 = sleeps w ->
                    spends w0 w' 3 2 -> spends w w' 3 2).
  { unfold spends. intros w0 w' -> ->. auto. }
  assert (Hnone : forall w0, requests w0 = requests w -> sleeps w0 = sleeps w ->
                    spends w w0 3 2).
  { intros w0 Hr Hs.
    eapply spends_weaken; [apply spends_nothing; assumption | lia | lia]. }
  destruct (PyStr.truthy description); cbn [negb].
  - unfold bind, get_world. cbn [current_provider].
    destruct (String.eqb (current_provider w) "gemini").
    + unfold _send_to_gemini.
      destruct (GEMINI_AVAILABLE R); cbn [negb]; [|apply Hnone; reflexivity].
      unfold try_except. destruct (genai_Client R) as [[]|e];
        [|apply Hnone; reflexivity].
      match goal with |- context [gemini_attempts R 3 (seq 0 3) ?p ?w0] =>
        pose proof (gemini_attempts_spends R 3 (seq 0 3) p w0) as H;
        destruct (gemini_attempts R 3 (seq 0 3) p w0) as [[v|e] w'] end;
        cbn [snd] in *; (eapply Hfrom; [| |exact H]; reflexivity).
    + destruct (String.eqb (current_provider w) "qwen"); [|apply Hnone; reflexivity].
      unfold _send_to_qwen.
      destruct (PyStr.truthy (QWEN_API_KEY R)); cbn [negb]; [|apply Hnone; reflexivity].
      unfold try_except. destruct (qwen_Client R) as [[]|e];
        [|apply Hnone; reflexivity].
      unfold bind at 1, get_world.
      match goal with |- context [qwen_attempts R 3 (seq 0 3) ?t ?p ?w0] =>
        pose proof (qwen_attempts_spends R 3 (seq 0 3) t p w0) as H;
        destruct (qwen_attempts R 3 (seq 0 3) t p w0) as [[v|e] w'] end;
        cbn [snd] in *; (eapply Hfrom; [| |exact H]; reflexivity).
  - apply Hnone; reflexivity.
Qed.

End RetryClaims.

Section GeminiPath.
Context (R : Runtime).

(** With the provider set to Gemini and the client at hand, the analysis is
    the retry loop under the outer handler, after the call is recorded. *)
Lemma analyze_sizes_gemini description w :
  description <> "" -> current_provider w = "gemini" ->
  GEMINI_AVAILABLE R = true -> genai_Client R = Ok tt ->
  analyze_sizes R description w
  = try_except (gemini_attempts R 3 [0; 1; 2] (_build_size_prompt description))
      (fun e => ret (failure e)) (after_analysis description 0 [] w).
Proof.
  intros Hd Hp Ha Hc.
  unfold analyze_sizes, record_call, modify, bind at 1.
  rewrite (truthy_nonempty _ Hd). cbn [negb].
  assert (Hg : String.eqb (current_provider w) "gemini" = true)
    by (rewrite Hp; apply String.eqb_refl).
  unfold bind, get_world. cbn [current_provider]. rewrite Hg.
  unfold _send_to_gemini. rewrite Ha, Hc. cbn [negb seq].
  unfold after_analysis. rewrite app_nil_r. reflexivity.
Qed.

(** X2: a first request that is answered, or that fails with anything but
    a rate limit, settles the analysis: the result is the recovery of the
    answer, or the failure carrying the exception text, after exactly one
    request and no sleep. *)
Theorem unlimited_request_settles (description : string) (w : World) :
  description <> "" -> current_provider w = "gemini" ->
  GEMINI_AVAILABLE R = true -> genai_Client R = Ok tt ->
  (forall e, generate_content R (requests w) (current_model w)
               (_build_size_prompt description) = Raise e ->
             gemini_rate_limited e = false) ->
  analyze_sizes R description w
  = (Ok match generate_content R (requests w) (current_model w)
                (_build_size_prompt description) with
        | Ok text => _parse_json_response R text
        | Raise e => failure e
        end,
     after_analysis description 1 [] w).
Proof.
  intros Hd Hp Ha Hc Hlim. rewrite analyze_sizes_gemini by assumption.
  cbn [gemini_attempts]. unfold try_except, bind, request, ret, raise.
  cbn [requests current_model after_analysis Nat.add].
  destruct (generate_content R (requests w) (current_model w) _) as [text|e] eqn:E.
  - unfold after_analysis. rewrite !app_nil_r. reflexivity.
  - rewrite (Hlim e eq_refl). unfold after_analysis. rewrite !app_nil_r. reflexivity.
Qed.

(** X3: a rate-limited first request is retried after the wait the error
    asks for (never less than 15 seconds): when the second request is
    answered, the result is the recovery of that answer, after two requests
    and one sleep. *)
Theorem rate_limited_request_is_retried (description : string) (w : World)
    (e text : string) :
  description <> "" -> current_provider w = "gemini" ->
  GEMINI_AVAILABLE R = true -> genai_Client R = Ok tt ->
  generate_content R (requests w) (current_model w) (_build_size_prompt description)
    = Raise e ->
  gemini_rate_limited e = true ->
  generate_content R (S (requests w)) (current_model w) (_build_size_prompt description)
    = Ok text ->
  analyze_sizes R description w
  = (Ok (_parse_json_response R text),
     after_analysis description 2 [gemini_delay e] w)
  /\ 15 <= gemini_delay e.
Proof.
  intros Hd Hp Ha Hc H0 Hlim H1. split; [|apply gemini_delay_floor].
  rewrite analyze_sizes_gemini by assumption.
  cbn [gemini_attempts]. unfold try_except, bind, request, ret, raise, sleep, modify.
  cbn [requests current_model after_analysis Nat.add].
  rewrite H0, Hlim. cbn [Nat.ltb Nat.leb Nat.sub requests current_model].
  rewrite H1. unfold after_analysis. rewrite !app_nil_r. reflexivity.
Qed.

(** X4: three rate-limited requests in a row exhaust the budget: the
    result is the failure "Rate limited after 3 attempts", after three
    requests and two sleeps; the third error is not waited for. *)
Theorem three_rate_limits_exhaust (description : string) (w : World)
    (e0 e1 e2 : string) :
  description <> "" -> current_provider w = "gemini" ->
  GEMINI_AVAILABLE R = true -> genai_Client R = Ok tt ->
  generate_content R (requests w) (current_model w) (_build_size_prompt description)
    = Raise e0 ->
  generate_content R (S (requests w)) (current_model w) (_build_size_prompt description)
    = Raise e1 ->
  generate_content R (S (S (requests w))) (current_model w)
    (_build_size_prompt description) = Raise e2 ->
  gemini_rate_limited e0 = true -> gemini_rate_limited e1 = true ->
  gemini_rate_limited e2 = true ->
  analyze_sizes R description w
  = (Ok (failure "Rate limited after 3 attempts"),
     after_analysis description 3 [gemini_delay e0; gemini_delay e1] w).
Proof.
  intros Hd Hp Ha Hc H0 H1 H2 L0 L1 L2.
  rewrite analyze_sizes_gemini by assumption.
  cbn [gemini_attempts]. unfold try_except, bind, request, ret, raise, sleep, modify.
  cbn [requests current_model after_analysis Nat.add].
  rewrite H0, L0. cbn [Nat.ltb Nat.leb Nat.sub requests current_model].
  rewrite H1, L1. cbn [Nat.ltb Nat.leb Nat.sub requests current_model].
  rewrite H2, L2. cbn [Nat.ltb Nat.leb Nat.sub requests current_model].
  unfold after_analysis.
  cbn [current_provider current_model requests sleeps parser_calls files disk_fault
       databases owner_errors Nat.add].
  rewrite !app_nil_r, <- !app_assoc. reflexivity.
Qed.

End GeminiPath.

Lemma unlimited_request_settles_witness :
  analyze_sizes (runtime_with_model (busy_model 0)) "S, M, L (=komplett)" Demo.world
  = (Ok {| available := Tokens ["S"; "M"; "L"]; sold_out := Tokens []; error := None |},
     after_analysis "S, M, L (=komplett)" 1 [] Demo.world).
Proof.
  rewrite (unlimited_request_settles (runtime_with_model (busy_model 0))
             "S, M, L (=komplett)" Demo.world);
    [reflexivity | discriminate | reflexivity | reflexivity | reflexivity |].
  intros e He. vm_compute in He. discriminate.
Defined.

Lemma rate_limited_request_is_retried_witness :
  analyze_sizes (runtime_with_model (busy_model 1)) "S, M, L (=komplett)" Demo.world
  = (Ok {| available := Tokens ["S"; "M"; "L"]; sold_out := Tokens []; error := None |},
     after_analysis "S, M, L (=komplett)" 2 [42] Demo.world).
Proof.
  destruct (rate_limited_request_is_retried (runtime_with_model (busy_model 1))
              "S, M, L (=komplett)" Demo.world
              "429 RESOURCE_EXHAUSTED retryDelay: 37s" Demo.answer_complete)
    as [Hrun _]; [discriminate | reflexivity..|].
  rewrite Hrun. reflexivity.
Defined.

Lemma three_rate_limits_exhaust_witness :
  analyze_sizes (runtime_with_model (busy_model 5)) "S, M, L (=komplett)" Demo.world
  = (Ok (failure "Rate limited after 3 attempts"),
     after_analysis "S, M, L (=komplett)" 3 [42; 42] Demo.world).
Proof.
  rewrite (three_rate_limits_exhaust (runtime_with_model (busy_model 5))
             "S, M, L (=komplett)" Demo.world
             "429 RESOURCE_EXHAUSTED retryDelay: 37s"
             "429 RESOURCE_EXHAUSTED retryDelay: 37s"
             "429 RESOURCE_EXHAUSTED retryDelay: 37s");
    [reflexivity | discriminate | reflexivity..].
Defined.

(** ** The comparison and the run around it *)

Section RunFrames.
Context (R : Runtime) (previous_products current_products : Snapshot).

Lemma modified_run_diff_step images w ms w' :
  modified_run R previous_products current_products images w ms w' -> diff_step w w'.
Proof.
  induction 1; [apply diff_step_refl | assumption | assumption |].
  eapply diff_step_trans; [eapply parsed_pair_diff_step|]; eauto.
Qed.

(** The comparison leaves files, tables and the owner's errors alone,
    whether it returns or raises. *)
Lemma compare_snapshots_diff_step w :
  exists r w',
    compare_snapshots R previous_products current_products w = (r, w')
    /\ diff_step w w'.
Proof.
  destruct (compare_snapshots_cases R previous_products current_products w)
    as (r & w' & Hrun & Hstep & _).
  eauto.
Qed.

End RunFrames.

Section ErrorBoundary.
Context (R : Runtime).

Lemma save_current_saves site_name snapshot w :
  exists r w',
    save_current R site_name snapshot w = (r, w')
    /\ owner_errors w' = owner_errors w
    /\ parser_calls w' = parser_calls w
    /\ match r with
       | Ok _ => files w' !! history_file site_name
                 = Some (json_dump_snapshot R snapshot)
       | Raise _ => exists n, disk_fault w = Some n
       end.
Proof.
  unfold save_current, bind, open_for_writing, modify, file_write.
  cbn [files disk_fault with_files].
  rewrite lookup_insert_eq. cbn [default].
  destruct (disk_fault w) as [n|].
  - destruct (Nat.ltb n (String.length (json_dump_snapshot R snapshot))).
    + eexists _, _. split; [reflexivity|]. repeat split. eauto.
    + eexists _, _. split; [reflexivity|]. repeat split.
      cbn [files with_files]. now rewrite lookup_insert_eq.
  - eexists _, _. split; [reflexivity|]. repeat split.
    cbn [files with_files]. now rewrite lookup_insert_eq.
Qed.

(** X5: [analyze_product_changes] never raises.  Either it returns the
    empty change set after giving exactly one error text to the owner, or it
    returns a change set, gives the owner nothing, and the history file holds
    the serialization of the snapshot the change set carries. *)
Theorem analyze_product_changes_never_raises (url site_name : string) (w : World) :
  exists changes w',
    analyze_product_changes R url site_name w = (Ok changes, w')
    /\ ((changes = no_changes
         /\ exists e, owner_errors w'
                      = (owner_errors w
                         ++ ["Error analyzing changes for " +:+ site_name +:+ ": " +:+ e])%list)
        \/ (owner_errors w' = owner_errors w
            /\ files w' !! history_file site_name
               = Some (json_dump_snapshot R (snapshot_of changes)))).
Proof.
  unfold analyze_product_changes, try_except, load_previous, bind, lift, get_world, ret.
  destruct (get_products_with_image_ids R url) as [cur|e].
  2:{ eexists _, _. split; [reflexivity|]. left. split; [reflexivity|].
      exists e. reflexivity. }
  destruct (files w !! history_file site_name) as [text|];
    [destruct (json_load_snapshot R text) as [prev|e]|].
  2:{ eexists _, _. split; [reflexivity|]. left. split; [reflexivity|].
      exists e. reflexivity. }
  all: match goal with |- context [compare_snapshots R ?prev ?cur ?w0] =>
         destruct (compare_snapshots_diff_step R prev cur w0)
           as ([ch|e] & w1 & Hrun & Hstep); rewrite Hrun end;
       destruct Hstep as (_ & _ & _ & _ & _ & Herr);
       [ destruct (save_current_saves site_name (snapshot_of ch) w1)
           as (r & w2 & Hsave & Hframe & _ & Hr);
         rewrite Hsave; destruct r as [[]|e];
         eexists _, _; (split; [reflexivity|]);
         [ right; split; [congruence | exact Hr]
         | left; split; [reflexivity|]; exists e; cbn; congruence ]
       | eexists _, _; (split; [reflexivity|]);
         left; split; [reflexivity|]; exists e; cbn; congruence ].
Qed.

End ErrorBoundary.

Section BeforeTheComparison.
Context (R : Runtime).

(** X6: a failure before the comparison changes nothing but the owner's
    error log.  When the page cannot be fetched, or the history file exists
    and does not decode, the run returns the empty change set, calls no
    parser, and leaves the history file as it is; an unreadable history
    file is therefore never rewritten. *)
Theorem failure_before_comparison_changes_nothing (url site_name e : string) (w : World) :
  get_products_with_image_ids R url = Raise e
  \/ (exists current text,
        get_products_with_image_ids R url = Ok current
        /\ files w !! history_file site_name = Some text
        /\ json_load_snapshot R text = Raise e) ->
  analyze_product_changes R url site_name w
  = (Ok no_changes,
     with_owner_error ("Error analyzing changes for " +:+ site_name +:+ ": " +:+ e) w).
Proof.
  unfold analyze_product_changes, try_except, load_previous, bind, lift, get_world, ret.
  intros [-> | (cur & text & -> & -> & ->)]; reflexivity.
Qed.

Lemma py_set_nil : py_set (Dict.keys []) = ∅.
Proof. reflexivity. Qed.

Lemma modified_run_nil previous_products current_products w ms w' :
  modified_run R previous_products current_products [] w ms w' -> ms = [] /\ w' = w.
Proof. inversion 1; auto. Qed.

Lemma added_run_nil current_products w ps w' :
  added_run R current_products [] w ps w' -> ps = [] /\ w' = w.
Proof. inversion 1; auto. Qed.

(** X7: against an empty previous snapshot (the first run of a category)
    nothing is removed or modified, and every key of the current snapshot
    yields one added entry, the current record with its size text filled in. *)
Theorem first_comparison_adds_everything (current_products : Snapshot) (w : World) :
  exists changes w',
    compare_snapshots R [] current_products w = (Ok changes, w')
    /\ removed changes = [] /\ modified changes = []
    /\ total_previous changes = 0
    /\ total_current changes = length current_products
    /\ Forall2 (fun k p => exists current s,
                  Dict.get current_products k = Some current
                  /\ p = Dict.with_sizes s current)
         (set_iter R (py_set (Dict.keys current_products))) (added changes).
Proof.
  assert (Hcommon : common_images [] current_products = ∅)
    by (unfold common_images; rewrite py_set_nil; apply intersection_empty_r_L).
  destruct (compare_snapshots_run R [] current_products w)
    as (changes & w1 & w' & Hrun & Hm & Ha & Hr & Hc & Hp & _).
  { right. intros k c p Hk. rewrite Hcommon in Hk. set_solver. }
  exists changes, w'. split; [exact Hrun|].
  assert (Hremoved : removed_images [] current_products = ∅)
    by (unfold removed_images; rewrite py_set_nil; apply difference_disjoint_L,
          disjoint_empty_l).
  assert (Hadded : added_images [] current_products
                   = py_set (Dict.keys current_products))
    by (unfold added_images; rewrite py_set_nil; apply difference_empty_L).
  rewrite Hcommon, set_iter_empty in Hm. apply modified_run_nil in Hm as [Hms _].
  rewrite Hremoved, set_iter_empty in Hr. inversion Hr as [Hnil|]; subst.
  rewrite Hadded in Ha. apply added_run_entries in Ha.
  repeat split; auto.
Qed.

(** X8: against an empty current snapshot (a page that lists nothing)
    every previous record is removed verbatim, nothing is added or modified,
    no parser is called and the world stays as it is; the snapshot handed on
    for storage is empty. *)
Theorem vanished_page_removes_everything (previous_products : Snapshot) (w : World) :
  exists changes,
    compare_snapshots R previous_products [] w = (Ok changes, w)
    /\ added changes = [] /\ modified changes = []
    /\ total_current changes = 0
    /\ snapshot_of changes = []
    /\ Forall2 (fun k p => Dict.get previous_products k = Some p)
         (set_iter R (py_set (Dict.keys previous_products))) (removed changes).
Proof.
  assert (Hcommon : common_images previous_products [] = ∅)
    by (unfold common_images; rewrite py_set_nil; apply intersection_empty_l_L).
  destruct (compare_snapshots_run R previous_products [] w)
    as (changes & w1 & w' & Hrun & Hm & Ha & Hr & Hc & Hp & Hk).
  { right. intros k c p Hin. rewrite Hcommon in Hin. set_solver. }
  assert (Hadded : added_images previous_products [] = ∅)
    by (unfold added_images; rewrite py_set_nil; apply difference_disjoint_L,
          disjoint_empty_l).
  assert (Hremoved : removed_images previous_products []
                     = py_set (Dict.keys previous_products))
    by (unfold removed_images; rewrite py_set_nil; apply difference_empty_L).
  rewrite Hcommon, set_iter_empty in Hm. apply modified_run_nil in Hm as [Hms ->].
  rewrite Hadded, set_iter_empty in Ha. apply added_run_nil in Ha as [Hps ->].
  rewrite Hremoved in Hr.
  exists changes. split; [exact Hrun|]. repeat split; auto.
  unfold Dict.keys in Hk. cbn in Hk. now apply map_eq_nil in Hk.
Qed.

End BeforeTheComparison.

(** ** Two runs over an unchanged page *)






Section QuietRun.
Context (R : Runtime).







End QuietRun.

Section QuietRunClaim.
Context (R : Runtime).



End QuietRunClaim.

(** After a save that was cut short the history file does not decode: the
    next run reports nothing and leaves the file as it is. *)
Lemma failure_before_comparison_changes_nothing_witness :
  analyze_product_changes (Demo.runtime (Ok Demo.today)) shoes_url "schuhe"
    world_after_cut_save
  = (Ok no_changes,
     with_owner_error
       "Error analyzing changes for schuhe: Expecting value: line 1 column 1 (char 0)"
       world_after_cut_save).
Proof.
  apply (failure_before_comparison_changes_nothing (Demo.runtime (Ok Demo.today))
           shoes_url "schuhe" "Expecting value: line 1 column 1 (char 0)"
           world_after_cut_save).
  right. exists Demo.today, (PyStr.slice (Demo.dump_snapshot Demo.today) 0 20).
  split; [reflexivity|]. split; vm_compute; reflexivity.
Defined.





(** A null among the sizes.  The model answers with a null for the
    available sizes of the shirt, whose description changed: the comparison
    raises after the two parser calls, the run reports no changes, tells the
    owner and leaves the history file as it was; the next run makes the same
    calls and tells the owner again. *)
Example null_answer_is_not_saved :
  let R := runtime_with_null_answer in
  let w := world seen_yesterday in
  let run1 := analyze_product_changes R shoes_url "schuhe" w in
  let run2 := analyze_product_changes R shoes_url "schuhe" (snd run1) in
  fst (compare_snapshots R Demo.yesterday Demo.today w)
  = Raise "'NoneType' object is not iterable"
  /\ fst run1 = Ok no_changes /\ fst run2 = Ok no_changes
  /\ files (snd run1) = files w /\ files (snd run2) = files w
  /\ parser_calls (snd run1)
     = ["S, M, L (=komplett)"; "S, M, L (=nur ausverkauft in L)"]
  /\ parser_calls (snd run2)
     = ["S, M, L (=komplett)"; "S, M, L (=nur ausverkauft in L)";
        "S, M, L (=komplett)"; "S, M, L (=nur ausverkauft in L)"]
  /\ owner_errors (snd run2)
     = ["Error analyzing changes for schuhe: 'NoneType' object is not iterable";
        "Error analyzing changes for schuhe: 'NoneType' object is not iterable"]
  /\ ~ answers_are_lists R.
Proof.
  cbv zeta. repeat split; try (vm_compute; reflexivity).
  intros H. specialize (H answer_null _ eq_refl). discriminate.
Qed.

(** ** The size delta *)

Section SizeDelta.
Context (R : Runtime).


End SizeDelta.


(** ** The products table *)

Section Tables.
Context (R : Runtime).

Lemma max_id_app a b : max_id (a ++ b) = Nat.max (max_id a) (max_id b).
Proof.
  unfold max_id. induction a as [|r a IH]; [reflexivity|].
  cbn [app map foldr]. rewrite IH. apply Nat.max_assoc.
Qed.

Lemma pending_sizes_nonempty : pending_sizes <> "".
Proof. vm_compute. discriminate. Qed.

Lemma truthy_true_nonempty s : PyStr.truthy s = true -> s <> "".
Proof. destruct s; [discriminate | discriminate]. Qed.

Lemma insert_product_shape category_name rows entry :
  exists r, insert_product R category_name rows entry = (rows ++ [r])%list
            /\ row_id r = S (max_id rows)
            /\ row_last_seen r = CURRENT_TIMESTAMP R
            /\ row_of_entry category_name entry r.
Proof.
  destruct entry as [image_url product_data]. unfold insert_product.
  eexists. split; [reflexivity|]. cbn.
  split; [reflexivity|]. split; [reflexivity|].
  repeat (split; [reflexivity|]).
  destruct (sizes product_data) as [s|]; [|apply pending_sizes_nonempty].
  destruct (PyStr.truthy s) eqn:Hs;
    [apply truthy_true_nonempty, Hs | apply pending_sizes_nonempty].
Qed.

Lemma fold_insert_product category_name products_dict : forall rows,
  exists news,
    fold_left (insert_product R category_name) products_dict rows = (rows ++ news)%list
    /\ map row_id news = seq (S (max_id rows)) (length products_dict)
    /\ Forall (fun r => row_last_seen r = CURRENT_TIMESTAMP R) news
    /\ Forall2 (row_of_entry category_name) products_dict news.
Proof.
  induction products_dict as [|entry rest IH]; intros rows.
  - exists []. cbn. rewrite app_nil_r. repeat split; constructor.
  - destruct (insert_product_shape category_name rows entry) as (r & Hr & Hid & Hts & Hentry).
    destruct (IH (rows ++ [r])%list) as (news & Hfold & Hids & Htss & Hall).
    exists (r :: news). cbn [fold_left]. rewrite Hr, Hfold, <- app_assoc.
    split; [reflexivity|]. split; [|split; constructor; assumption].
    cbn [map length seq]. rewrite Hid. apply (f_equal2 cons); [reflexivity|].
    rewrite Hids, max_id_app. unfold max_id at 2. cbn [map foldr]. rewrite Hid.
    f_equal. lia.
Qed.

Lemma with_databases_twice d d' w :
  with_databases d (with_databases d' w) = with_databases d w.
Proof. reflexivity. Qed.

Lemma store_products_from_dict_run products_dict category_name w :
  products_dict <> [] ->
  store_products_from_dict R products_dict category_name w
  = (Ok tt,
     with_databases
       (<[db_path category_name :=
            fold_left (insert_product R category_name) products_dict
              (kept_rows category_name
                 (default [] (databases w !! db_path category_name)))]>
          (databases w)) w).
Proof.
  intros Hne. destruct products_dict as [|entry rest]; [congruence|].
  unfold store_products_from_dict, try_except, bind, init_db, modify, kept_rows.
  destruct (databases w !! db_path category_name) as [rows|] eqn:Hrows.
  - rewrite Hrows. reflexivity.
  - cbn [with_databases databases]. rewrite lookup_insert_eq.
    rewrite insert_insert_eq. reflexivity.
Qed.

Lemma in_kept_rows category_name rows r :
  r ∈ kept_rows category_name rows <-> row_type r <> category_name /\ r ∈ rows.
Proof.
  unfold kept_rows. rewrite list_elem_of_filter.
  destruct (String.eqb_spec (row_type r) category_name) as [->|Hne]; cbn; intuition.
Qed.

Lemma store_products_from_dict_rows products_dict category_name w :
  products_dict <> [] ->
  exists news,
    store_products_from_dict R products_dict category_name w
    = (Ok tt,
       with_databases
         (<[db_path category_name :=
              (kept_rows category_name
                 (default [] (databases w !! db_path category_name)) ++ news)%list]>
            (databases w)) w)
    /\ Forall2 (row_of_entry category_name) products_dict news
    /\ map row_id news
       = seq (S (max_id (kept_rows category_name
                           (default [] (databases w !! db_path category_name)))))
           (length products_dict).
Proof.
  intros Hne.
  destruct (fold_insert_product category_name products_dict
              (kept_rows category_name
                 (default [] (databases w !! db_path category_name))))
    as (news & Hfold & Hids & _ & Hall).
  exists news. rewrite store_products_from_dict_run by exact Hne.
  rewrite Hfold. split; [reflexivity|]. split; [exact Hall | exact Hids].
Qed.

Lemma filter_none {A} (f : A -> bool) l :
  (forall x, x ∈ l -> f x = false) -> List.filter f l = [].
Proof.
  induction l as [|x l IH]; intros H; [reflexivity|]. cbn [List.filter].
  rewrite (H x) by (apply elem_of_cons; auto).
  apply IH. intros y Hy. apply H, elem_of_cons. auto.
Qed.

Lemma Forall2_in_right {A B} (P : A -> B -> Prop) l k y :
  Forall2 P l k -> y ∈ k -> exists x, x ∈ l /\ P x y.
Proof.
  induction 1 as [|x y' l k Hxy Hlk IH]; intros Hin.
  - apply elem_of_nil in Hin. contradiction.
  - apply elem_of_cons in Hin as [->|Hin].
    + exists x. split; [apply elem_of_cons; auto | exact Hxy].
    + destruct (IH Hin) as (x0 & Hx0 & HP). exists x0.
      split; [apply elem_of_cons; auto | exact HP].
Qed.

(** X11: storing a dictionary with entries, for a category, never raises and
    replaces the rows of that category in the category's table: the rows of
    other categories stay, in their order, and after them comes one row for
    every entry, in the order of the dictionary, that carries the entry's name,
    key, price and original description, the category, a size text that is not
    empty, and the next free row ids.  Nothing else in the world moves; in
    particular the size parser is not called. *)
Theorem store_replaces_the_category (products_dict : Snapshot)
    (category_name : string) (w : World) :
  products_dict <> [] ->
  let kept :=
    kept_rows category_name (default [] (databases w !! db_path category_name)) in
  exists news,
    store_products_from_dict R products_dict category_name w
    = (Ok tt,
       with_databases (<[db_path category_name := (kept ++ news)%list]> (databases w)) w)
    /\ Forall2 (row_of_entry category_name) products_dict news
    /\ map row_id news = seq (S (max_id kept)) (length products_dict)
    /\ (forall r, r ∈ kept <->
          row_type r <> category_name
          /\ r ∈ default [] (databases w !! db_path category_name)).
Proof.
  intros Hne kept.
  destruct (store_products_from_dict_rows products_dict category_name w Hne)
    as (news & Hrun & Hall & Hids).
  exists news. split; [exact Hrun|]. split; [exact Hall|]. split; [exact Hids|].
  intros r. apply in_kept_rows.
Qed.

Lemma filter_filter_andb {A} (f g : A -> bool) l :
  List.filter g (List.filter f l) = List.filter (fun x => f x && g x) l.
Proof.
  induction l as [|x l IH]; [reflexivity|]. cbn [List.filter].
  destruct (f x); cbn [andb List.filter]; [destruct (g x)|]; rewrite IH; reflexivity.
Qed.

Lemma same_but_sizes_refl r : same_but_sizes r r.
Proof. repeat split. Qed.

(** *** The size parser does not look at the tables *)

Lemma gemini_attempts_blind D max_retries attempts prompt : forall w,
  gemini_attempts R max_retries attempts prompt (with_databases D w)
  = (fst (gemini_attempts R max_retries attempts prompt w),
     with_databases D (snd (gemini_attempts R max_retries attempts prompt w))).
Proof.
  induction attempts as [|attempt rest IH]; intros w; [reflexivity|].
  cbn [gemini_attempts]. unfold try_except, bind, request, ret, raise, sleep, modify.
  cbn [with_databases requests current_model].
  destruct (generate_content R (requests w) (current_model w) prompt) as [text|e];
    [reflexivity|].
  destruct (gemini_rate_limited e); [|reflexivity].
  destruct (Nat.ltb attempt (max_retries - 1)); [|reflexivity].
  cbn [fst snd current_provider current_model requests sleeps parser_calls files
       disk_fault databases owner_errors].
  match goal with |- context [snd (gemini_attempts R _ rest prompt ?w1)] =>
    exact (IH w1) end.
Qed.

Lemma qwen_attempts_blind D max_retries attempts thinking prompt : forall w,
  qwen_attempts R max_retries attempts thinking prompt (with_databases D w)
  = (fst (qwen_attempts R max_retries attempts thinking prompt w),
     with_databases D (snd (qwen_attempts R max_retries attempts thinking prompt w))).
Proof.
  induction attempts as [|attempt rest IH]; intros w; [reflexivity|].
  cbn [qwen_attempts]. unfold try_except, bind, request, ret, raise, sleep, modify.
  cbn [with_databases requests current_model].
  destruct (chat_completions R (requests w) (current_model w) prompt thinking)
    as [text|e]; [reflexivity|].
  destruct (qwen_rate_limited e); [|reflexivity].
  destruct (Nat.ltb attempt (max_retries - 1)); [|reflexivity].
  cbn [fst snd current_provider current_model requests sleeps parser_calls files
       disk_fault databases owner_errors].
  match goal with |- context [snd (qwen_attempts R _ rest thinking prompt ?w1)] =>
    exact (IH w1) end.
Qed.

Lemma analyze_sizes_blind D description w :
  analyze_sizes R description (with_databases D w)
  = (fst (analyze_sizes R description w),
     with_databases D (snd (analyze_sizes R description w))).
Proof.
  unfold analyze_sizes, record_call, modify, bind at 1 3 5.
  destruct (PyStr.truthy description); cbn [negb]; [|reflexivity].
  unfold bind, get_world.
  cbn [with_databases current_provider current_model requests sleeps parser_calls
       files disk_fault databases owner_errors].
  destruct (String.eqb (current_provider w) "gemini").
  - unfold _send_to_gemini. destruct (GEMINI_AVAILABLE R); cbn [negb]; [|reflexivity].
    unfold try_except. destruct (genai_Client R) as [[]|e]; [|reflexivity].
    match goal with |- context [snd (let (r, _) := gemini_attempts R 3 ?a ?p ?w1 in _)] =>
      pose proof (gemini_attempts_blind D 3 a p w1) as H;
      unfold with_databases at 1 in H;
      cbn [current_provider current_model requests sleeps parser_calls
           files disk_fault databases owner_errors] in H; rewrite H;
      destruct (gemini_attempts R 3 a p w1) as [[v|e] w2] end; reflexivity.
  - destruct (String.eqb (current_provider w) "qwen"); [|reflexivity].
    unfold _send_to_qwen.
    destruct (PyStr.truthy (QWEN_API_KEY R)); cbn [negb]; [|reflexivity].
    unfold try_except. destruct (qwen_Client R) as [[]|e]; [|reflexivity].
    unfold bind, get_world. cbn [current_model].
    match goal with |- context [snd (let (r, _) := qwen_attempts R 3 ?a ?t ?p ?w1 in _)] =>
      pose proof (qwen_attempts_blind D 3 a t p w1) as H;
      unfold with_databases at 1 in H;
      cbn [current_provider current_model requests sleeps parser_calls
           files disk_fault databases owner_errors] in H; rewrite H;
      destruct (qwen_attempts R 3 a t p w1) as [[v|e] w2] end; reflexivity.
Qed.

Lemma parse_all_returns descriptions : forall w,
  exists results wq,
    parse_all R descriptions w = (Ok results, wq)
    /\ length results = length descriptions
    /\ parser_calls wq = (parser_calls w ++ descriptions)%list
    /\ diff_step w wq.
Proof.
  induction descriptions as [|d rest IH]; intros w.
  - exists [], w. split; [reflexivity|]. split; [reflexivity|].
    split; [now rewrite app_nil_r | apply diff_step_refl].
  - destruct (analyze_sizes_returns R d w) as (v & w1 & Hv & Hstep & _).
    destruct (IH w1) as (vs & wq & Hvs & Hlen & Hcalls & Hframe).
    exists (v :: vs), wq. cbn [parse_all]. unfold bind at 1. rewrite Hv.
    unfold bind at 1. rewrite Hvs. split; [reflexivity|].
    split; [cbn; congruence|]. split.
    + rewrite Hcalls. destruct Hstep as (_ & _ & -> & _). now rewrite <- app_assoc.
    + eapply diff_step_trans; [eapply parser_step_diff_step|]; eauto.
Qed.

(** *** The loop over the selected rows *)

Lemma set_row_sizes_run path product_id sizes_json rows0 D w :
  set_row_sizes path product_id sizes_json (with_databases (<[path := rows0]> D) w)
  = (Ok tt, with_databases (<[path := set_by_id product_id sizes_json rows0]> D) w).
Proof.
  unfold set_row_sizes, modify. cbn [with_databases databases].
  rewrite lookup_insert_eq, insert_insert_eq. reflexivity.
Qed.

(** The loop stores, row by row, what the parser gives for the descriptions
    of the selected rows in turn. *)
Lemma update_loop_fill path products_to_update : forall rows0 D w results wq,
  parse_all R (map row_description (described products_to_update)) w = (Ok results, wq) ->
  update_loop R path products_to_update (with_databases (<[path := rows0]> D) w)
  = (Ok tt,
     with_databases
       (<[path := fold_left (fun rows (p : Row * SizeInfo) =>
                               set_by_id (row_id (fst p)) (json_dumps R (snd p)) rows)
                    (combine (described products_to_update) results) rows0]> D) wq).
Proof.
  induction products_to_update as [|r rest IH]; intros rows0 D w results wq Hparse.
  - cbn in Hparse. injection Hparse as <- <-. reflexivity.
  - cbn [update_loop]. unfold described in *. cbn [List.filter] in *.
    destruct (PyStr.truthy (row_description r)) eqn:Ht.
    + cbn [map parse_all] in Hparse. unfold bind at 1 in Hparse.
      destruct (analyze_sizes R (row_description r) w) as [[v|e] w1] eqn:Hv;
        [|discriminate].
      unfold bind at 1 in Hparse.
      destruct (parse_all R _ w1) as [[vs|e] wq'] eqn:Hvs; [|discriminate].
      injection Hparse as <- <-.
      unfold bind at 1. unfold bind at 1. rewrite analyze_sizes_blind, Hv. cbn [fst snd].
      rewrite set_row_sizes_run. cbn [combine fold_left fst snd].
      apply IH. exact Hvs.
    + unfold bind at 1. cbn [ret]. apply IH. exact Hparse.
Qed.

(** *** From updates by row id to the rows in table order *)

Lemma set_by_id_other product_id sizes_json rows :
  (forall r, r ∈ rows -> row_id r <> product_id) ->
  set_by_id product_id sizes_json rows = rows.
Proof.
  induction rows as [|r rows IH]; intros H; [reflexivity|]. cbn [set_by_id map].
  destruct (Nat.eqb_spec (row_id r) product_id) as [Heq|Hne].
  - exfalso. apply (H r); [apply list_elem_of_here | exact Heq].
  - f_equal. apply IH. intros r' Hr'. apply H. now apply list_elem_of_further.
Qed.

Lemma set_by_id_app product_id sizes_json a b :
  set_by_id product_id sizes_json (a ++ b)%list
  = (set_by_id product_id sizes_json a ++ set_by_id product_id sizes_json b)%list.
Proof. apply map_app. Qed.

Lemma fold_updates_fill category_name : forall rows results before,
  NoDup (map row_id (before ++ rows)%list) ->
  length results = length (List.filter (to_analyse category_name) rows) ->
  fold_left (fun rows (p : Row * SizeInfo) =>
               set_by_id (row_id (fst p)) (json_dumps R (snd p)) rows)
    (combine (List.filter (to_analyse category_name) rows) results) (before ++ rows)%list
  = (before ++ fill_sizes R category_name rows results)%list.
Proof.
  induction rows as [|r rest IH]; intros results before Hnd Hlen; [reflexivity|].
  cbn [List.filter fill_sizes] in *.
  assert (Hnext : forall r', row_id r' = row_id r ->
            NoDup (map row_id ((before ++ [r']) ++ rest)%list)).
  { intros r' Hid. rewrite <- app_assoc. cbn [app].
    rewrite map_app in *. cbn [map] in *. now rewrite Hid. }
  destruct (to_analyse category_name r) eqn:Hr.
  - destruct results as [|v vs]; [discriminate|].
    cbn [combine fold_left fst snd length] in *.
    assert (Hset : set_by_id (row_id r) (json_dumps R v) (before ++ r :: rest)%list
                   = ((before ++ [with_row_sizes (json_dumps R v) r]) ++ rest)%list).
    { rewrite <- app_assoc. cbn [app]. rewrite set_by_id_app.
      rewrite map_app in Hnd. apply NoDup_app in Hnd as (_ & Hdisj & Hnd).
      cbn [map] in Hdisj, Hnd. apply NoDup_cons in Hnd as [Hfresh _].
      rewrite set_by_id_other.
      - f_equal. cbn [set_by_id map]. rewrite Nat.eqb_refl. f_equal.
        apply set_by_id_other. intros r' Hr' Hid. apply Hfresh.
        rewrite <- Hid. apply list_elem_of_fmap. eauto.
      - intros r' Hr' Hid. apply (Hdisj (row_id r')).
        + apply list_elem_of_fmap. eauto.
        + rewrite Hid. apply list_elem_of_here. }
    rewrite Hset, IH.
    + now rewrite <- app_assoc.
    + now apply Hnext.
    + lia.
  - replace (before ++ r :: rest)%list with ((before ++ [r]) ++ rest)%list
      by (now rewrite <- app_assoc).
    rewrite IH.
    + now rewrite <- app_assoc.
    + now apply Hnext.
    + exact Hlen.
Qed.

Lemma fill_sizes_rows category_name rows : forall results,
  Forall2 (fun r r' => same_but_sizes r r' /\ (to_analyse category_name r = false -> r' = r))
    rows (fill_sizes R category_name rows results).
Proof.
  induction rows as [|r rest IH]; intros results; cbn [fill_sizes]; [constructor|].
  destruct (to_analyse category_name r) eqn:Hr.
  - destruct results as [|v vs].
    + constructor; [split; [apply same_but_sizes_refl | reflexivity]|].
      clear. induction rest; constructor; auto.
      split; [apply same_but_sizes_refl | reflexivity].
    + constructor; [|apply IH]. split; [repeat split | intros H; congruence].
  - constructor; [|apply IH]. split; [apply same_but_sizes_refl | reflexivity].
Qed.

Lemma with_databases_same path rows w :
  databases w !! path = Some rows ->
  with_databases (<[path := rows]> (databases w)) w = w.
Proof. intros H. rewrite (insert_id _ _ _ H). now destruct w. Qed.

Lemma table_step_refl path w : table_step path w w.
Proof. repeat split. Qed.

(** X12: the start-up pass over a table never raises and touches only what
    lacks a size text.  The rows of the category with an empty size text and
    a description are analysed once each, in table order: the size parser is
    called on their descriptions in turn, from the world the pass started in,
    and each of these rows gets the serialized result of its own call as its
    size text; every other row stays as it is, and no row changes in anything
    but its size text.  Other tables, the history files and the provider
    settings are untouched. *)
Theorem update_sizes_touches_only_missing (path category_name : string)
    (rows : list Row) (w : World) :
  NoDup (map row_id rows) ->
  databases w !! path = Some rows ->
  exists results wq,
    parse_all R (map row_description (List.filter (to_analyse category_name) rows)) w
    = (Ok results, wq)
    /\ length results = length (List.filter (to_analyse category_name) rows)
    /\ update_sizes_for_existing_products R path category_name w
       = (Ok tt,
          with_databases
            (<[path := fill_sizes R category_name rows results]> (databases w)) wq)
    /\ Forall2 (fun r r' =>
                  same_but_sizes r r'
                  /\ (to_analyse category_name r = false -> r' = r))
         rows (fill_sizes R category_name rows results)
    /\ parser_calls wq
       = (parser_calls w
          ++ map row_description (List.filter (to_analyse category_name) rows))%list
    /\ table_step path w
         (with_databases
            (<[path := fill_sizes R category_name rows results]> (databases w)) wq).
Proof.
  intros Hnd Hrows.
  destruct (parse_all_returns
              (map row_description (List.filter (to_analyse category_name) rows)) w)
    as (results & wq & Hparse & Hlen & Hcalls & Hstep).
  rewrite length_map in Hlen.
  exists results, wq. split; [exact Hparse|]. split; [exact Hlen|].
  split; [|split; [apply fill_sizes_rows | split; [exact Hcalls|]]].
  - unfold update_sizes_for_existing_products, bind, get_world. rewrite Hrows.
    unfold try_except.
    assert (E : forall l, match l with [] => ret tt | _ :: _ => update_loop R path l end
                          = update_loop R path l) by (intros [|]; reflexivity).
    rewrite E.
    assert (Hsel : described (List.filter (lacks_sizes category_name) rows)
                   = List.filter (to_analyse category_name) rows)
      by (unfold described; apply filter_filter_andb).
    rewrite <- Hsel in Hparse.
    rewrite <- (with_databases_same path rows w Hrows) at 1.
    rewrite (update_loop_fill path _ rows (databases w) w results wq Hparse).
    rewrite Hsel.
    pose proof (fold_updates_fill category_name rows results [] Hnd Hlen) as Hfill.
    cbn [app] in Hfill. rewrite Hfill. reflexivity.
  - destruct Hstep as (Hp & Hm & Hf & Hd & _ & He).
    repeat split; try assumption.
    intros other Hne. cbn [with_databases databases].
    apply lookup_insert_ne. congruence.
Qed.

(** X13: what a store wrote is never analysed afterwards.  After
    [store_products_from_dict] for a category, the start-up pass over the
    table of that category finds no row to analyse: it makes no parser call
    and leaves the world as the store left it, also where the store put the
    note that the analysis is pending. *)
Theorem stored_rows_are_never_analysed (products_dict : Snapshot)
    (category_name : string) (w : World) :
  products_dict <> [] ->
  let w1 := snd (store_products_from_dict R products_dict category_name w) in
  update_sizes_for_existing_products R (db_path category_name) category_name w1
  = (Ok tt, w1).
Proof.
  intros Hne w1.
  destruct (store_products_from_dict_rows products_dict category_name w Hne)
    as (news & Hrun & Hall & _).
  subst w1. rewrite Hrun. cbn [snd].
  unfold update_sizes_for_existing_products, bind, get_world.
  cbn [with_databases databases]. rewrite lookup_insert_eq. unfold try_except.
  match goal with
  | |- context [List.filter ?f ?l] =>
      replace (List.filter f l) with (@nil Row); [reflexivity|]
  end.
  symmetry. rewrite List.filter_app.
  assert (Hk : List.filter (lacks_sizes category_name)
                 (kept_rows category_name
                    (default [] (databases w !! db_path category_name))) = []).
  { apply filter_none. intros r Hr.
    apply in_kept_rows in Hr as [Hty _]. unfold lacks_sizes.
    destruct (String.eqb_spec (row_type r) category_name); [contradiction | reflexivity]. }
  assert (Hn : List.filter (lacks_sizes category_name) news = []).
  { apply filter_none. intros r Hr.
    destruct (Forall2_in_right _ _ _ _ Hall Hr) as (entry & _ & Hentry).
    destruct Hentry as (_&_&_&_&_&Hsz). unfold lacks_sizes.
    destruct (String.eqb_spec (row_sizes r) ""); [contradiction|].
    apply andb_false_r. }
  rewrite Hk, Hn. reflexivity.
Qed.

End Tables.

Lemma store_replaces_the_category_witness :
  exists news,
    store_products_from_dict (Demo.runtime (Ok Demo.today)) Demo.today "schuhe"
      Demo.world_with_rows
    = (Ok tt,
       with_databases
         (<[db_path "schuhe" :=
              (kept_rows "schuhe"
                 (default [] (databases Demo.world_with_rows !! db_path "schuhe"))
               ++ news)%list]> (databases Demo.world_with_rows))
         Demo.world_with_rows)
    /\ map row_name news = ["shirt 10512"; "shb 65z"; "cap"]
    /\ map row_id news = [1; 2; 3].
Proof.
  pose proof (store_replaces_the_category (Demo.runtime (Ok Demo.today)) Demo.today
                "schuhe" Demo.world_with_rows ltac:(discriminate)) as H.
  cbv zeta in H. destruct H as (news & Hrun & Hall & Hids & _).
  exists news. split; [exact Hrun|]. split; [|exact Hids].
  vm_compute in Hrun. injection Hrun as Hnews. rewrite <- Hnews. reflexivity.
Defined.

(** The old shirt is analysed and gets its size text; the shoe of another
    category and the shirt with a pending note stay. *)
Lemma update_sizes_touches_only_missing_witness :
  exists w',
    update_sizes_for_existing_products (Demo.runtime (Ok [])) (db_path "bekleidung")
      "bekleidung" world_with_old_table = (Ok tt, w')
    /\ map row_sizes (default [] (databases w' !! db_path "bekleidung"))
       = [ Demo.dumps {| available := Tokens ["S"; "M"; "L"]; sold_out := Tokens [];
                         error := None |};
           ""; pending_sizes ]
    /\ parser_calls w' = ["S, M, L (=komplett)"].
Proof.
  destruct (update_sizes_touches_only_missing (Demo.runtime (Ok []))
              (db_path "bekleidung") "bekleidung" old_table world_with_old_table)
    as (results & wq & Hparse & _ & Hrun & _ & Hcalls & _).
  - apply NoDup_ListNoDup. repeat constructor; cbn; intuition discriminate.
  - reflexivity.
  - eexists. split; [exact Hrun|].
    vm_compute in Hparse. injection Hparse as <- <-.
    split; [|reflexivity].
    cbn [with_databases databases]. rewrite lookup_insert_eq. reflexivity.
Defined.

Lemma stored_rows_are_never_analysed_witness :
  update_sizes_for_existing_products (Demo.runtime (Ok Demo.today)) (db_path "schuhe")
    "schuhe"
    (snd (store_products_from_dict (Demo.runtime (Ok Demo.today)) Demo.today "schuhe"
            Demo.world_with_rows))
  = (Ok tt,
     snd (store_products_from_dict (Demo.runtime (Ok Demo.today)) Demo.today "schuhe"
            Demo.world_with_rows)).
Proof.
  apply (stored_rows_are_never_analysed (Demo.runtime (Ok Demo.today)) Demo.today
           "schuhe" Demo.world_with_rows).
  discriminate.
Defined.

(** ** Provider settings *)

Section Settings.
Context (R : Runtime).

Lemma lookup_models_nonempty provider models default_model key model :
  lookup_key provider AI_PROVIDERS = Some (models, default_model) ->
  (lookup_key key models = Some model -> model <> "") /\ default_model <> "".
Proof.
  unfold AI_PROVIDERS. cbn [lookup_key].
  destruct (String.eqb provider "gemini"); [|destruct (String.eqb provider "qwen")];
    intros H; try discriminate; injection H as <- <-; (split; [|discriminate]);
    cbn [lookup_key];
    repeat match goal with
           | |- context [String.eqb key ?k] => destruct (String.eqb key k)
           end;
    intros Hm; try discriminate; injection Hm as <-; discriminate.
Qed.

Lemma lookup_provider provider v :
  lookup_key provider AI_PROVIDERS = Some v -> provider = "gemini" \/ provider = "qwen".
Proof.
  unfold AI_PROVIDERS. cbn [lookup_key].
  destruct (String.eqb_spec provider "gemini"); [auto|].
  destruct (String.eqb_spec provider "qwen"); [auto | discriminate].
Qed.

Lemma lookup_provider_none provider :
  lookup_key provider AI_PROVIDERS = None -> provider <> "gemini" /\ provider <> "qwen".
Proof.
  unfold AI_PROVIDERS. cbn [lookup_key].
  destruct (String.eqb_spec provider "gemini"); [discriminate|].
  destruct (String.eqb_spec provider "qwen"); [discriminate | auto].
Qed.

(** X14: [set_ai_provider] either raises and leaves the settings as they
    were, which happens exactly when the lower-cased name is neither "gemini"
    nor "qwen", or it returns with the provider set to that lower-cased name
    and a model name that is not empty.  In both cases nothing but the two
    settings moves. *)
Theorem set_ai_provider_known_or_unchanged (provider : string)
    (model_key : option string) (w : World) :
  (PyStr.lower provider <> "gemini" /\ PyStr.lower provider <> "qwen"
   /\ exists e, set_ai_provider provider model_key w = (Raise e, w))
  \/ ((PyStr.lower provider = "gemini" \/ PyStr.lower provider = "qwen")
      /\ exists model,
           set_ai_provider provider model_key w
           = (Ok tt, with_model model (with_provider (PyStr.lower provider) w))
           /\ model <> "").
Proof.
  unfold set_ai_provider.
  destruct (lookup_key (PyStr.lower provider) AI_PROVIDERS) as [[models default_model]|] eqn:Hp.
  - right. split; [eapply lookup_provider, Hp|].
    unfold bind, modify.
    destruct model_key as [key|].
    + destruct (PyStr.truthy key) eqn:Hk.
      * destruct (lookup_key key models) as [model|] eqn:Hm.
        -- exists model. split; [reflexivity|].
           eapply (lookup_models_nonempty _ _ _ key model Hp), Hm.
        -- exists key. split; [reflexivity|]. destruct key; discriminate.
      * exists default_model. split; [reflexivity|].
        eapply (lookup_models_nonempty _ _ _ "" ""), Hp.
    + exists default_model. split; [reflexivity|].
      eapply (lookup_models_nonempty _ _ _ "" ""), Hp.
  - left. destruct (lookup_provider_none _ Hp) as [Hg Hq].
    split; [exact Hg|]. split; [exact Hq|]. eexists. reflexivity.
Qed.

(** X15: the flags settle the settings and never fail.  [-qwen] wins over the
    Gemini flags and selects qwen-flash; [-gemini2] wins over [-gemini3];
    without a flag the model is gemini-2.5-flash-lite, not the default of the
    provider table.  What [get_current_config] reports afterwards is exactly
    this pair. *)
Theorem setup_ai_provider_config (args : Args) (w : World) :
  exists w',
    setup_ai_provider args w = (Ok tt, w')
    /\ get_current_config w' = (Ok (config_of_flags args), w')
    /\ w' = with_model (snd (config_of_flags args))
              (with_provider (fst (config_of_flags args)) w).
Proof.
  unfold setup_ai_provider, config_of_flags.
  destruct (qwen args); [|destruct (gemini2 args); [|destruct (gemini3 args)]];
    eexists; (split; [reflexivity|]); split; reflexivity.
Qed.

Lemma qwen_attempts_streamed other max_retries attempts prompt : forall w,
  qwen_attempts (with_plain_completions R other) max_retries attempts true prompt w
  = qwen_attempts R max_retries attempts true prompt w.
Proof.
  induction attempts as [|attempt rest IH]; intros w; [reflexivity|].
  cbn [qwen_attempts]. unfold try_except, bind at 1 3, request.
  cbn [with_plain_completions chat_completions].
  destruct (chat_completions R (requests w) (current_model w) prompt true) as [text|e].
  - reflexivity.
  - destruct (qwen_rate_limited e); [|reflexivity].
    destruct (Nat.ltb attempt (max_retries - 1)); [|reflexivity].
    unfold bind, sleep, modify. apply IH.
Qed.

(** X16: with the [-qwen] flag every model request is a streaming request.
    After [setup_ai_provider] with that flag, what a size analysis returns and
    does is the same whatever completions without streaming would answer. *)
Theorem qwen_flag_streams_every_request (args : Args)
    (other : nat -> string -> string -> result string)
    (description : string) (w : World) :
  qwen args = true ->
  let w1 := snd (setup_ai_provider args w) in
  analyze_sizes (with_plain_completions R other) description w1
  = analyze_sizes R description w1.
Proof.
  intros Hq w1.
  assert (Hw1 : w1 = with_model "qwen-flash" (with_provider "qwen" w))
    by (subst w1; unfold setup_ai_provider; rewrite Hq; reflexivity).
  rewrite Hw1. unfold analyze_sizes, record_call, modify, bind at 1 3.
  destruct (PyStr.truthy description); cbn [negb]; [|reflexivity].
  unfold bind, get_world. cbn [with_model with_provider current_provider].
  change (String.eqb "qwen" "gemini") with false.
  change (String.eqb "qwen" "qwen") with true. cbn iota.
  unfold _send_to_qwen. cbn [with_plain_completions QWEN_API_KEY qwen_Client].
  destruct (PyStr.truthy (QWEN_API_KEY R)); cbn [negb]; [|reflexivity].
  unfold try_except. destruct (qwen_Client R) as [[]|e]; [|reflexivity].
  unfold bind, get_world. cbn [current_model].
  change (existsb (String.eqb "qwen-flash") thinking_models) with true.
  cbv beta. rewrite qwen_attempts_streamed. reflexivity.
Qed.

End Settings.

Lemma qwen_flag_streams_every_request_witness :
  analyze_sizes
    (with_plain_completions (Demo.runtime (Ok [])) (fun n model prompt => Raise "plain"))
    "S, M, L (=komplett)"
    (snd (setup_ai_provider (mkArgs false true false true) Demo.world))
  = analyze_sizes (Demo.runtime (Ok [])) "S, M, L (=komplett)"
      (snd (setup_ai_provider (mkArgs false true false true) Demo.world)).
Proof.
  apply (qwen_flag_streams_every_request (Demo.runtime (Ok []))
           (mkArgs false true false true) (fun n model prompt => Raise "plain")
           "S, M, L (=komplett)" Demo.world).
  reflexivity.
Defined.

(** ** Subscribers and messages *)

Section Subscribers.
Context (accepted : nat -> Z -> string -> bool).

Lemma list_remove_absent chat_id chat_ids :
  chat_id ∉ chat_ids -> list_remove chat_id chat_ids = chat_ids.
Proof.
  induction chat_ids as [|x rest IH]; intros Hn; [reflexivity|].
  cbn [list_remove]. rewrite not_elem_of_cons in Hn. destruct Hn as [Hx Hrest].
  destruct (Z.eqb_spec x chat_id) as [->|_]; [congruence|].
  rewrite IH by exact Hrest. reflexivity.
Qed.

Lemma list_remove_last chat_id chat_ids :
  chat_id ∉ chat_ids -> list_remove chat_id (chat_ids ++ [chat_id]) = chat_ids.
Proof.
  induction chat_ids as [|x rest IH]; intros Hn.
  - cbn. rewrite Z.eqb_refl. reflexivity.
  - cbn [app list_remove]. rewrite not_elem_of_cons in Hn. destruct Hn as [Hx Hrest].
    destruct (Z.eqb_spec x chat_id) as [->|_]; [congruence|].
    rewrite IH by exact Hrest. reflexivity.
Qed.

Lemma in_list_remove chat_id chat_ids x :
  x ∈ list_remove chat_id chat_ids -> x ∈ chat_ids.
Proof.
  induction chat_ids as [|y rest IH]; [auto|]. cbn [list_remove].
  destruct (Z.eqb y chat_id); rewrite !elem_of_cons; [auto|].
  intros [->|Hin]; auto.
Qed.

Lemma NoDup_list_remove chat_id chat_ids :
  NoDup chat_ids ->
  NoDup (list_remove chat_id chat_ids) /\ chat_id ∉ list_remove chat_id chat_ids.
Proof.
  induction chat_ids as [|y rest IH]; intros Hnd.
  - split; [constructor | apply not_elem_of_nil].
  - apply NoDup_cons in Hnd as [Hy Hrest]. cbn [list_remove].
    destruct (Z.eqb_spec y chat_id) as [->|Hne]; [auto|].
    destruct (IH Hrest) as [Hnd' Hout]. split.
    + apply NoDup_cons. split; [|exact Hnd'].
      intros Hin. apply Hy. eapply in_list_remove, Hin.
    + rewrite not_elem_of_cons. split; [congruence | exact Hout].
Qed.

Lemma subscribers_saved t : subscribers (_save_subscribers t) = subscribers t.
Proof. destruct t as [o s f [] p]; reflexivity. Qed.

Lemma posted_saved t : posted (_save_subscribers t) = posted t.
Proof. destruct t as [o s f [] p]; reflexivity. Qed.

Lemma owner_saved t : owner_id (_save_subscribers t) = owner_id t.
Proof. destruct t as [o s f [] p]; reflexivity. Qed.

Lemma writable_saved t : file_writable (_save_subscribers t) = file_writable t.
Proof. destruct t as [o s f [] p]; reflexivity. Qed.

Lemma add_subscriber_new chat_id t :
  chat_id ∉ subscribers t ->
  add_subscriber chat_id t
  = (true, _save_subscribers (with_subscribers (subscribers t ++ [chat_id]) t)).
Proof.
  intros Hn. unfold add_subscriber. rewrite bool_decide_eq_false_2 by exact Hn.
  reflexivity.
Qed.

Lemma add_subscriber_known chat_id t :
  chat_id ∈ subscribers t -> add_subscriber chat_id t = (false, t).
Proof.
  intros Hin. unfold add_subscriber. rewrite bool_decide_eq_true_2 by exact Hin.
  reflexivity.
Qed.

Lemma remove_subscriber_known chat_id t :
  chat_id ∈ subscribers t ->
  remove_subscriber chat_id t
  = (true, _save_subscribers (with_subscribers (list_remove chat_id (subscribers t)) t)).
Proof.
  intros Hin. unfold remove_subscriber. rewrite bool_decide_eq_true_2 by exact Hin.
  reflexivity.
Qed.

Lemma remove_subscriber_absent chat_id t :
  chat_id ∉ subscribers t -> remove_subscriber chat_id t = (false, t).
Proof.
  intros Hn. unfold remove_subscriber. rewrite bool_decide_eq_false_2 by exact Hn.
  reflexivity.
Qed.

Lemma add_subscriber_distinct chat_id t :
  NoDup (subscribers t) ->
  NoDup (subscribers (snd (add_subscriber chat_id t)))
  /\ chat_id ∈ subscribers (snd (add_subscriber chat_id t)).
Proof.
  intros Hnd. destruct (decide (chat_id ∈ subscribers t)) as [Hin|Hn].
  - rewrite add_subscriber_known by exact Hin. auto.
  - rewrite add_subscriber_new by exact Hn. cbn [snd].
    rewrite subscribers_saved. cbn [with_subscribers subscribers]. split.
    + apply NoDup_app. split; [exact Hnd|]. split; [|apply NoDup_singleton].
      intros x Hx Hx'. apply list_elem_of_singleton in Hx'. congruence.
    + apply elem_of_app. right. apply list_elem_of_singleton. reflexivity.
Qed.

Lemma remove_subscriber_distinct chat_id t :
  NoDup (subscribers t) ->
  NoDup (subscribers (snd (remove_subscriber chat_id t)))
  /\ chat_id ∉ subscribers (snd (remove_subscriber chat_id t)).
Proof.
  intros Hnd. destruct (decide (chat_id ∈ subscribers t)) as [Hin|Hn].
  - rewrite remove_subscriber_known by exact Hin. cbn [snd].
    rewrite subscribers_saved. cbn [with_subscribers subscribers].
    apply NoDup_list_remove, Hnd.
  - rewrite remove_subscriber_absent by exact Hn. auto.
Qed.

Lemma handle_update_distinct update t :
  NoDup (subscribers t) -> NoDup (subscribers (handle_update accepted update t)).
Proof.
  intros Hnd. unfold handle_update.
  destruct (update_chat_id update) as [chat_id|]; [|exact Hnd].
  destruct (truthy_id (Some chat_id)); cbn [negb]; [|exact Hnd].
  destruct (String.eqb (update_text update) "/start").
  { pose proof (add_subscriber_distinct chat_id t Hnd) as [H _].
    destruct (add_subscriber chat_id t) as [added t']. exact H. }
  destruct (String.eqb (update_text update) "/stop").
  { pose proof (remove_subscriber_distinct chat_id t Hnd) as [H _].
    destruct (remove_subscriber chat_id t) as [removed t']. exact H. }
  destruct (String.eqb (update_text update) "/status"); exact Hnd.
Qed.

Lemma handle_updates_distinct updates : forall t,
  NoDup (subscribers t) -> NoDup (subscribers (handle_updates accepted updates t)).
Proof.
  unfold handle_updates.
  induction updates as [|update rest IH]; intros t Hnd; [exact Hnd|].
  cbn [fold_left]. apply IH, handle_update_distinct, Hnd.
Qed.

(** X17: subscribing and then unsubscribing gives back the list.  For a chat
    that is not subscribed, [add_subscriber] returns True, a following
    [remove_subscriber] returns True, and afterwards the subscribers, in their
    order, the owner and the messages posted are what they were. *)
Theorem subscribe_then_unsubscribe_restores (chat_id : Z) (t : Telegram) :
  chat_id ∉ subscribers t ->
  let '(added, t1) := add_subscriber chat_id t in
  let '(removed, t2) := remove_subscriber chat_id t1 in
  added = true /\ removed = true
  /\ subscribers t1 = (subscribers t ++ [chat_id])%list
  /\ subscribers t2 = subscribers t
  /\ owner_id t2 = owner_id t /\ posted t2 = posted t.
Proof.
  intros Hn. rewrite add_subscriber_new by exact Hn.
  rewrite remove_subscriber_known
    by (rewrite subscribers_saved; cbn; apply elem_of_app; right;
        apply list_elem_of_singleton; reflexivity).
  rewrite !subscribers_saved, !owner_saved, !posted_saved.
  cbn [with_subscribers subscribers owner_id posted].
  rewrite ?subscribers_saved. cbn [with_subscribers subscribers].
  rewrite list_remove_last by exact Hn.
  rewrite ?owner_saved, ?posted_saved. repeat split.
Qed.

(** X18: the subscriber list never gains a repetition.  From a list without
    repetitions, any sequence of updates leaves one without repetitions, and
    right after a [/stop] from a chat that chat is not in the list. *)
Theorem subscribers_stay_distinct (updates : list Update) (update_id : Z)
    (chat_id : Z) (t : Telegram) :
  NoDup (subscribers t) ->
  chat_id <> 0%Z ->
  let t' := handle_updates accepted updates t in
  NoDup (subscribers t')
  /\ chat_id ∉ subscribers
                 (handle_update accepted (mkUpdate update_id (Some chat_id) "/stop") t').
Proof.
  intros Hnd Hid t'.
  assert (Hnd' : NoDup (subscribers t')) by apply handle_updates_distinct, Hnd.
  split; [exact Hnd'|].
  unfold handle_update. cbn [update_chat_id update_text truthy_id].
  destruct (Z.eqb_spec chat_id 0) as [|_]; [contradiction|]. cbn [negb].
  change (String.eqb "/stop" "/start") with false.
  change (String.eqb "/stop" "/stop") with true. cbn iota.
  pose proof (remove_subscriber_distinct chat_id t' Hnd') as [_ Hout].
  destruct (remove_subscriber chat_id t') as [removed t'']. exact Hout.
Qed.

(** X19: what a subscription leaves on disk.  For a chat that is not
    subscribed, [add_subscriber] returns True and appends the chat in memory
    whether or not the file can be opened for writing; when it can, a notifier started
    from the file afterwards has the same subscribers, and when it cannot, the
    file is as before, so the subscription does not outlive the process. *)
Theorem add_subscriber_persistence (chat_id : Z) (t : Telegram) (posts : list (Z * string)) :
  chat_id ∉ subscribers t ->
  let '(added, t') := add_subscriber chat_id t in
  added = true
  /\ subscribers t' = (subscribers t ++ [chat_id])%list
  /\ (if file_writable t
      then subscribers (Notifier (subscribers_file t') true posts) = subscribers t'
           /\ owner_id (Notifier (subscribers_file t') true posts)
              = (if truthy_id (owner_id t) then owner_id t else None)
      else subscribers_file t' = subscribers_file t).
Proof.
  intros Hn. rewrite add_subscriber_new by exact Hn.
  rewrite subscribers_saved. cbn [with_subscribers subscribers].
  split; [reflexivity|]. split; [reflexivity|].
  unfold _save_subscribers. cbn [with_subscribers file_writable].
  destruct (file_writable t); [|reflexivity].
  cbn. split; reflexivity.
Qed.

Lemma send_to_all_run message chat_ids : forall success_count t,
  let '(count, t') := send_to_all accepted chat_ids message success_count t in
  posted t' = (posted t ++ map (fun chat_id => (chat_id, message)) chat_ids)%list
  /\ subscribers t' = subscribers t /\ owner_id t' = owner_id t
  /\ subscribers_file t' = subscribers_file t
  /\ success_count <= count <= success_count + length chat_ids
  /\ ((forall n chat_id, accepted n chat_id message = true) ->
      count = success_count + length chat_ids).
Proof.
  induction chat_ids as [|chat_id rest IH]; intros success_count t.
  - cbn. rewrite app_nil_r. repeat split; lia.
  - cbn [send_to_all]. unfold _send_telegram_message.
    match goal with
    | |- context [send_to_all accepted rest message ?c ?t1] =>
        specialize (IH c t1); destruct (send_to_all accepted rest message c t1)
          as [count t'] eqn:Hrun
    end.
    cbn [posted subscribers owner_id subscribers_file] in IH.
    destruct IH as (Hposted & Hsubs & Howner & Hfile & Hcount & Hall).
    split; [rewrite Hposted, <- app_assoc; reflexivity|].
    split; [exact Hsubs|]. split; [exact Howner|]. split; [exact Hfile|].
    cbn [length]. split.
    + destruct (accepted (length (posted t)) chat_id message); lia.
    + intros Hyes. specialize (Hall Hyes). rewrite Hyes in Hall. lia.
Qed.

(** X20: a notification is posted once to every subscriber, in the order of
    the list and with the same text, the title in bold above the body, and to
    nobody else; the count returned is at most the number of subscribers and
    equals it when every request is accepted.  Without subscribers nothing is
    posted and the count is 0. *)
Theorem send_notification_posts_to_each_subscriber (title body : string) (t : Telegram) :
  let '(count, t') := send_notification accepted title body t in
  posted t'
  = (posted t
     ++ map (fun chat_id => (chat_id, telegram_message title body)) (subscribers t))%list
  /\ subscribers t' = subscribers t
  /\ count <= length (subscribers t)
  /\ ((forall n chat_id, accepted n chat_id (telegram_message title body) = true) ->
      count = length (subscribers t)).
Proof.
  unfold send_notification. destruct (subscribers t) as [|chat_id rest] eqn:Hsubs.
  - cbn. rewrite app_nil_r, Hsubs. repeat split; lia.
  - pose proof (send_to_all_run (telegram_message title body) (chat_id :: rest) 0 t) as H.
    destruct (send_to_all accepted (chat_id :: rest) (telegram_message title body) 0 t)
      as [count t'].
    destruct H as (Hposted & Hs & _ & _ & Hcount & Hall).
    split; [exact Hposted|]. split; [congruence|]. split; [lia|].
    intros Hyes. rewrite (Hall Hyes). reflexivity.
Qed.

(** X21: an error text goes to the owner and to nobody else.  Without an
    owner nothing is posted and the result is False; with one, exactly one
    message is posted, to the owner's chat, and it ends with the error text. *)
Theorem errors_go_to_the_owner_only (error_message : string) (t : Telegram) :
  let '(sent, t') := notifier_send_error_to_owner accepted error_message t in
  subscribers t' = subscribers t
  /\ ((truthy_id (owner_id t) = false /\ sent = false /\ t' = t)
      \/ (exists owner text,
            owner_id t = Some owner /\ owner <> 0%Z
            /\ posted t' = (posted t ++ [(owner, text +:+ error_message)])%list
            /\ sent = accepted (length (posted t)) owner (text +:+ error_message))).
Proof.
  unfold notifier_send_error_to_owner.
  destruct (owner_id t) as [owner|] eqn:Ho; [|split; [reflexivity|left; auto]].
  cbn [truthy_id]. destruct (Z.eqb_spec owner 0) as [->|Hne]; cbn [negb].
  - split; [reflexivity|]. left. auto.
  - unfold _send_telegram_message. cbn [subscribers posted].
    split; [reflexivity|]. right.
    exists owner, ("🚨 <b>ERROR</b>" +:+ nl +:+ nl).
    split; [reflexivity|]. split; [exact Hne|].
    rewrite <- !PyStrFacts.append_assoc. split; reflexivity.
Qed.

(** X22: every command gets one answer, sent to the chat it came from.  An
    update with a chat id and the text [/start], [/stop] or [/status] posts
    exactly one message, to that chat; any other update posts nothing and
    leaves the subscribers as they are. *)
Theorem every_command_is_answered_once (update : Update) (t : Telegram) :
  let t' := handle_update accepted update t in
  (exists chat_id reply,
     update_chat_id update = Some chat_id /\ chat_id <> 0%Z
     /\ (update_text update = "/start" \/ update_text update = "/stop"
         \/ update_text update = "/status")
     /\ posted t' = (posted t ++ [(chat_id, reply)])%list)
  \/ (t' = t
      /\ (update_chat_id update = None \/ update_chat_id update = Some 0%Z
          \/ (update_text update <> "/start" /\ update_text update <> "/stop"
              /\ update_text update <> "/status"))).
Proof.
  unfold handle_update.
  destruct (update_chat_id update) as [chat_id|]; [|right; auto].
  cbn [truthy_id]. destruct (Z.eqb_spec chat_id 0) as [->|Hne]; cbn [negb];
    [right; auto|].
  destruct (String.eqb_spec (update_text update) "/start") as [Hstart|Hnstart].
  { left. destruct (add_subscriber chat_id t) as [added t1] eqn:Hadd.
    exists chat_id, (if added then subscribed_text else already_subscribed_text).
    split; [reflexivity|]. split; [exact Hne|]. split; [auto|].
    cbn [_send_telegram_message snd posted]. f_equal.
    unfold add_subscriber in Hadd.
    destruct (bool_decide (chat_id ∈ subscribers t)); cbn [negb] in Hadd;
      injection Hadd as _ Ht1; rewrite <- Ht1, ?posted_saved; reflexivity. }
  destruct (String.eqb_spec (update_text update) "/stop") as [Hstop|Hnstop].
  { left. destruct (remove_subscriber chat_id t) as [removed t1] eqn:Hrem.
    exists chat_id, (if removed then unsubscribed_text else not_subscribed_text).
    split; [reflexivity|]. split; [exact Hne|]. split; [auto|].
    cbn [_send_telegram_message snd posted]. f_equal.
    unfold remove_subscriber in Hrem.
    destruct (bool_decide (chat_id ∈ subscribers t));
      injection Hrem as _ Ht1; rewrite <- Ht1, ?posted_saved; reflexivity. }
  destruct (String.eqb_spec (update_text update) "/status") as [Hstatus|Hnstatus].
  { left. exists chat_id, (status_text (length (subscribers t))).
    split; [reflexivity|]. split; [exact Hne|]. split; [auto|]. reflexivity. }
  right. split; [reflexivity|]. right. right. auto.
Qed.

End Subscribers.

Lemma subscribe_then_unsubscribe_restores_witness :
  let '(added, t1) := add_subscriber 33 club in
  let '(removed, t2) := remove_subscriber 33 t1 in
  added = true /\ removed = true
  /\ subscribers t1 = (subscribers club ++ [33%Z])%list
  /\ subscribers t2 = subscribers club
  /\ owner_id t2 = owner_id club /\ posted t2 = posted club.
Proof.
  apply (subscribe_then_unsubscribe_restores 33 club).
  vm_compute. intros H. repeat (apply elem_of_cons in H as [H|H]; [discriminate|]).
  apply elem_of_nil in H. exact H.
Defined.

Lemma subscribers_stay_distinct_witness :
  NoDup (subscribers
           (handle_updates all_but_group
              [mkUpdate 1 (Some 33%Z) "/start"; mkUpdate 2 (Some 33%Z) "/start"] club))
  /\ 33%Z ∉ subscribers
              (handle_update all_but_group (mkUpdate 3 (Some 33%Z) "/stop")
                 (handle_updates all_but_group
                    [mkUpdate 1 (Some 33%Z) "/start"; mkUpdate 2 (Some 33%Z) "/start"]
                    club)).
Proof.
  apply (subscribers_stay_distinct all_but_group
           [mkUpdate 1 (Some 33%Z) "/start"; mkUpdate 2 (Some 33%Z) "/start"]
           3 33 club).
  - apply NoDup_ListNoDup. vm_compute. repeat constructor; cbn; intuition discriminate.
  - discriminate.
Defined.

Lemma add_subscriber_persistence_witness :
  let '(added, t') := add_subscriber 33 club in
  added = true
  /\ subscribers t' = (subscribers club ++ [33%Z])%list
  /\ (if file_writable club
      then subscribers (Notifier (subscribers_file t') true []) = subscribers t'
           /\ owner_id (Notifier (subscribers_file t') true [])
              = (if truthy_id (owner_id club) then owner_id club else None)
      else subscribers_file t' = subscribers_file club).
Proof.
  apply (add_subscriber_persistence 33 club []).
  vm_compute. intros H. repeat (apply elem_of_cons in H as [H|H]; [discriminate|]).
  apply elem_of_nil in H. exact H.
Defined.

Lemma send_notification_posts_to_each_subscriber_witness :
  fst (send_notification (fun n chat_id message => true) "Update" "one new product" club)
  = 2.
Proof.
  pose proof (send_notification_posts_to_each_subscriber
                (fun n chat_id message => true) "Update" "one new product" club) as H.
  destruct (send_notification (fun n chat_id message => true) "Update"
              "one new product" club) as [count t'].
  destruct H as (_ & _ & _ & Hall). cbn [fst].
  rewrite Hall; [reflexivity|]. intros n chat_id. reflexivity.
Defined.

(** ** Normalized text *)

Module TextFacts.
Import PyStr PyStrFacts.

Lemma quote_lower_char c :
  (Ascii.eqb (lower_char c) dq || Ascii.eqb (lower_char c) "'")
  = (Ascii.eqb c dq || Ascii.eqb c "'").
Proof. destruct c as [[] [] [] [] [] [] [] []]; reflexivity. Qed.

Lemma space_is_no_quote c :
  is_space c = true -> Ascii.eqb c dq || Ascii.eqb c "'" = false.
Proof. destruct c as [[] [] [] [] [] [] [] []]; intros H; try reflexivity; discriminate. Qed.

Lemma quote_free_cons c r :
  quote_free (String c r) = negb (Ascii.eqb c dq || Ascii.eqb c "'") && quote_free r.
Proof. reflexivity. Qed.

Lemma quote_free_remove_quotes text : quote_free (remove_quotes text) = true.
Proof.
  induction text as [|c r IH]; [reflexivity|]. cbn [remove_quotes].
  destruct (Ascii.eqb c dq || Ascii.eqb c "'") eqn:E; [exact IH|].
  rewrite quote_free_cons, E, IH. reflexivity.
Qed.

Lemma remove_quotes_quote_free text : quote_free text = true -> remove_quotes text = text.
Proof.
  induction text as [|c r IH]; [reflexivity|]. rewrite quote_free_cons.
  intros H. apply andb_true_iff in H as [Hc Hr]. cbn [remove_quotes].
  apply negb_true_iff in Hc. rewrite Hc, IH by exact Hr. reflexivity.
Qed.

Lemma count_quotes_quote_free text : quote_free text = true -> count_quotes text = 0.
Proof.
  induction text as [|c r IH]; [reflexivity|]. rewrite quote_free_cons.
  intros H. apply andb_true_iff in H as [Hc Hr]. cbn [count_quotes].
  apply negb_true_iff, orb_false_iff in Hc as [Hc _]. rewrite Hc, IH by exact Hr.
  reflexivity.
Qed.

Lemma remove_keyed_no_quotes key text :
  count_quotes text = 0 -> remove_keyed key 0 text = text.
Proof.
  induction text as [|c r IH]; [reflexivity|]. intros H.
  cbn [remove_keyed]. rewrite H. cbn [Nat.leb]. rewrite andb_false_r.
  cbn [count_quotes] in H. rewrite IH by lia. reflexivity.
Qed.

Lemma remove_keyed_quote_free key text :
  quote_free text = true -> remove_keyed key 0 text = text.
Proof. intros H. apply remove_keyed_no_quotes, count_quotes_quote_free, H. Qed.

Lemma quote_free_lower text : quote_free (lower text) = quote_free text.
Proof.
  induction text as [|c r IH]; [reflexivity|].
  rewrite lower_cons, !quote_free_cons, quote_lower_char, IH. reflexivity.
Qed.

Lemma quote_free_collapse text : forall in_run,
  quote_free text = true -> quote_free (collapse_spaces in_run text) = true.
Proof.
  induction text as [|c r IH]; intros in_run H; [reflexivity|].
  rewrite quote_free_cons in H. apply andb_true_iff in H as [Hc Hr].
  cbn [collapse_spaces]. destruct (is_space c).
  - destruct in_run; [apply IH, Hr|]. rewrite quote_free_cons, IH by exact Hr. reflexivity.
  - rewrite quote_free_cons, Hc, IH by exact Hr. reflexivity.
Qed.

Lemma quote_free_lstrip text : quote_free text = true -> quote_free (lstrip text) = true.
Proof.
  induction text as [|c r IH]; intros H; [reflexivity|]. cbn [lstrip].
  destruct (is_space c); [|exact H].
  rewrite quote_free_cons in H. apply andb_true_iff in H as [_ Hr]. apply IH, Hr.
Qed.

Lemma quote_free_rstrip text : quote_free text = true -> quote_free (rstrip text) = true.
Proof.
  induction text as [|c r IH]; intros H; [reflexivity|].
  rewrite quote_free_cons in H. apply andb_true_iff in H as [Hc Hr].
  specialize (IH Hr). cbn [rstrip]. destruct (rstrip r) as [|d t].
  - destruct (is_space c); [reflexivity|]. rewrite quote_free_cons, Hc. reflexivity.
  - rewrite quote_free_cons, Hc. exact IH.
Qed.

Lemma quote_free_strip text : quote_free text = true -> quote_free (strip text) = true.
Proof. intros H. apply quote_free_rstrip, quote_free_lstrip, H. Qed.

Lemma collapse_lower text : forall in_run,
  collapse_spaces in_run (lower text) = lower (collapse_spaces in_run text).
Proof.
  induction text as [|c r IH]; intros in_run; [reflexivity|].
  rewrite lower_cons. cbn [collapse_spaces]. rewrite is_space_lower_char.
  destruct (is_space c).
  - destruct in_run; [apply IH|]. rewrite lower_cons, IH. reflexivity.
  - rewrite lower_cons, IH. reflexivity.
Qed.

Lemma length_collapse text : forall in_run,
  String.length (collapse_spaces in_run text) <= String.length text.
Proof.
  induction text as [|c r IH]; intros in_run; [reflexivity|].
  cbn [collapse_spaces]. destruct (is_space c); [destruct in_run|];
    cbn [String.length]; try (specialize (IH true); lia); specialize (IH false); lia.
Qed.

Lemma collapse_idem text : forall in_run,
  collapse_spaces false (collapse_spaces in_run text) = collapse_spaces in_run text
  /\ collapse_spaces true (collapse_spaces true text) = collapse_spaces true text.
Proof.
  induction text as [|c r IH]; intros in_run; [split; reflexivity|].
  cbn [collapse_spaces]. destruct (is_space c) eqn:Hc.
  - destruct (IH true) as [Hf Ht]. split; [|exact Ht].
    destruct in_run; [exact Hf|].
    cbn [collapse_spaces]. change (is_space " ") with true. cbv iota.
    rewrite Ht. reflexivity.
  - destruct (IH false) as [Hf _]. cbn [collapse_spaces]. rewrite Hc, Hf.
    split; reflexivity.
Qed.

(** Text that [collapse_spaces true] leaves alone does not start with white
    space. *)
Lemma collapsed_true_head c r :
  collapse_spaces true (String c r) = String c r -> is_space c = false.
Proof.
  cbn [collapse_spaces]. destruct (is_space c); [|reflexivity].
  intros H. pose proof (length_collapse r true) as Hl. rewrite H in Hl.
  cbn [String.length] in Hl. lia.
Qed.

Lemma collapsed_lstrip text :
  collapse_spaces false text = text ->
  collapse_spaces false (lstrip text) = lstrip text.
Proof.
  destruct text as [|c r]; [reflexivity|]. intros H. cbn [lstrip].
  destruct (is_space c) eqn:Hc; [|exact H].
  cbn [collapse_spaces] in H. rewrite Hc in H. injection H as _ Hr.
  destruct r as [|d t]; [reflexivity|].
  pose proof (collapsed_true_head d t Hr) as Hd.
  cbn [lstrip]. rewrite Hd. cbn [collapse_spaces] in Hr |- *.
  rewrite Hd in Hr |- *. exact Hr.
Qed.

Lemma collapsed_rstrip text : forall in_run,
  collapse_spaces in_run text = text ->
  collapse_spaces in_run (rstrip text) = rstrip text.
Proof.
  induction text as [|c r IH]; intros in_run H; [reflexivity|].
  cbn [collapse_spaces] in H. cbn [rstrip].
  destruct (is_space c) eqn:Hc.
  - destruct in_run.
    + pose proof (length_collapse r true) as Hl. rewrite H in Hl.
      cbn [String.length] in Hl. lia.
    + injection H as Hsp Hr. specialize (IH true Hr).
      destruct (rstrip r) as [|d t] eqn:E; [reflexivity|].
      cbv beta iota. remember (String d t) as u eqn:Hu.
      cbn [collapse_spaces]. rewrite Hc, IH. rewrite <- Hsp. reflexivity.
  - injection H as Hr. specialize (IH false Hr).
    destruct (rstrip r) as [|d t] eqn:E.
    + cbn [collapse_spaces]. rewrite Hc. reflexivity.
    + cbv beta iota. remember (String d t) as u eqn:Hu.
      cbn [collapse_spaces]. rewrite Hc, IH. reflexivity.
Qed.

Lemma lstrip_idem text : lstrip (lstrip text) = lstrip text.
Proof.
  induction text as [|c r IH]; [reflexivity|]. cbn [lstrip].
  destruct (is_space c) eqn:Hc; [exact IH|]. cbn [lstrip]. rewrite Hc. reflexivity.
Qed.

Lemma lstrip_fixed_head c r : lstrip (String c r) = String c r -> is_space c = false.
Proof.
  cbn [lstrip]. destruct (is_space c); [|reflexivity].
  intros H. pose proof (length_lstrip r) as Hl. rewrite H in Hl.
  cbn [String.length] in Hl. lia.
Qed.

Lemma lstrip_rstrip text : lstrip text = text -> lstrip (rstrip text) = rstrip text.
Proof.
  destruct text as [|c r]; [reflexivity|]. intros H.
  pose proof (lstrip_fixed_head c r H) as Hc.
  rewrite rstrip_cons_keep by exact Hc. cbn [lstrip]. rewrite Hc. reflexivity.
Qed.

Lemma strip_idem text : strip (strip text) = strip text.
Proof.
  unfold strip. rewrite lstrip_rstrip by apply lstrip_idem. apply rstrip_idem.
Qed.

Lemma strip_lower text : strip (lower text) = lower (strip text).
Proof. unfold strip. rewrite lstrip_lower, rstrip_lower. reflexivity. Qed.

(** On text without quotes, [normalize_text] is the lower-cased text with its
    white space collapsed and trimmed. *)
Lemma normalize_text_quote_free text :
  quote_free text = true ->
  normalize_text text = strip (collapse_spaces false (lower text)).
Proof.
  intros H. unfold normalize_text. destruct text as [|c r]; [reflexivity|].
  cbn [truthy negb].
  assert (Hq : quote_free (strip (collapse_spaces false (lower (String c r)))) = true)
    by (apply quote_free_strip, quote_free_collapse; rewrite quote_free_lower; exact H).
  cbv zeta.
  rewrite (remove_keyed_quote_free "timestamp" _ Hq).
  rewrite (remove_keyed_quote_free "session" _ Hq).
  rewrite (remove_keyed_quote_free "csrf" _ Hq).
  rewrite (remove_keyed_quote_free "nonce" _ Hq).
  rewrite (remove_keyed_quote_free "_token" _ Hq).
  apply remove_quotes_quote_free, Hq.
Qed.

Lemma tidy_strip_collapse text : tidy (strip (collapse_spaces false text)).
Proof.
  split; [|apply strip_idem]. unfold strip.
  apply collapsed_rstrip, collapsed_lstrip, collapse_idem.
Qed.

Lemma quote_free_normalize_text text : quote_free (normalize_text text) = true.
Proof.
  unfold normalize_text. destruct (truthy text); cbn [negb]; [|reflexivity].
  apply quote_free_remove_quotes.
Qed.

End TextFacts.

Section NormalizeText.
Import PyStr PyStrFacts TextFacts.

(** X23: normalized text never holds a quote of either kind; and on text
    without quotes [normalize_text] is idempotent, with a result in lower
    case whose only white space is single blanks, none of them at either end.
    With quotes idempotence fails: taking a quote out between two blanks
    leaves two blanks, which a second pass would collapse. *)
Theorem normalize_text_shape (text : string) :
  quote_free (normalize_text text) = true
  /\ (quote_free text = true ->
      normalize_text (normalize_text text) = normalize_text text
      /\ tidy (normalize_text text)
      /\ lower (normalize_text text) = normalize_text text).
Proof.
  split; [apply quote_free_normalize_text|]. intros H.
  assert (Hlow : lower (normalize_text text) = normalize_text text).
  { rewrite normalize_text_quote_free by exact H.
    rewrite <- strip_lower, <- collapse_lower, lower_idem. reflexivity. }
  assert (Htidy : tidy (normalize_text text)).
  { rewrite normalize_text_quote_free by exact H. apply tidy_strip_collapse. }
  split; [|split; assumption].
  rewrite (normalize_text_quote_free (normalize_text text))
    by apply quote_free_normalize_text.
  rewrite Hlow. destruct Htidy as [Hc Hs]. rewrite Hc. exact Hs.
Qed.

End NormalizeText.

Lemma normalize_text_shape_witness :
  normalize_text (normalize_text "  Shirt   10512 (=KOMPLETT) ")
  = normalize_text "  Shirt   10512 (=KOMPLETT) "
  /\ tidy (normalize_text "  Shirt   10512 (=KOMPLETT) ")
  /\ PyStr.lower (normalize_text "  Shirt   10512 (=KOMPLETT) ")
     = normalize_text "  Shirt   10512 (=KOMPLETT) ".
Proof.
  apply (normalize_text_shape "  Shirt   10512 (=KOMPLETT) ").
  reflexivity.
Defined.

(** A quote between two blanks leaves two blanks behind. *)
Example normalize_text_leaves_two_blanks :
  normalize_text "Racket 'Pro' 2025" = "racket pro 2025"
  /\ normalize_text "5 ' grip" = "5  grip"
  /\ normalize_text (normalize_text "5 ' grip") = "5 grip".
Proof. repeat split. Qed.

(** A keyed element goes with everything up to its second double quote; a key
    with fewer than two double quotes after it stays. *)
Example normalize_text_drops_keyed_elements :
  normalize_text (quoted "Price CSRF=`a1b2` CHF 59.00") = "price  chf 59.00"
  /\ normalize_text (quoted "session `one quote only") = "session one quote only".
Proof. split; vm_compute; reflexivity. Qed.

(** ** The scraper's loop *)

Module ScrapeFacts.
Import Dict.

Lemma keys_dict_set d k v :
  keys (dict_set d k v) = if bool_decide (k ∈ keys d) then keys d else (keys d ++ [k])%list.
Proof.
  induction d as [|[k' p] d IH]; [reflexivity|].
  cbn [dict_set]. destruct (String.eqb_spec k k') as [->|Hne].
  - cbn [keys map fst]. rewrite bool_decide_eq_true_2 by (apply elem_of_cons; auto).
    reflexivity.
  - change (keys ((k', p) :: dict_set d k v)) with (k' :: keys (dict_set d k v)).
    rewrite IH. change (keys ((k', p) :: d)) with (k' :: keys d).
    destruct (bool_decide_reflect (k ∈ keys d)) as [Hin|Hn].
    + rewrite bool_decide_eq_true_2 by (apply elem_of_cons; auto). reflexivity.
    + rewrite bool_decide_eq_false_2; [reflexivity|].
      rewrite not_elem_of_cons. auto.
Qed.

Lemma NoDup_keys_dict_set d k v : NoDup (keys d) -> NoDup (keys (dict_set d k v)).
Proof.
  intros Hnd. rewrite keys_dict_set.
  destruct (bool_decide_reflect (k ∈ keys d)) as [Hin|Hn]; [exact Hnd|].
  apply NoDup_app. split; [exact Hnd|]. split; [|apply NoDup_singleton].
  intros x Hx Hx'. apply list_elem_of_singleton in Hx'. congruence.
Qed.

Lemma in_dict_set d k v k' p :
  (k', p) ∈ dict_set d k v -> (k' = k /\ p = v) \/ (k', p) ∈ d.
Proof.
  induction d as [|[k0 p0] d IH]; cbn [dict_set].
  - intros H. apply list_elem_of_singleton in H. injection H as -> ->. auto.
  - destruct (String.eqb_spec k k0) as [->|Hne]; rewrite !elem_of_cons.
    + intros [H|H]; [injection H as -> ->; auto | auto].
    + intros [H|H]; [auto|]. destruct (IH H) as [?|?]; auto.
Qed.

Lemma get_dict_set_eq d k v : get (dict_set d k v) k = Some v.
Proof.
  induction d as [|[k0 p0] d IH]; cbn [dict_set get].
  - rewrite String.eqb_refl. reflexivity.
  - destruct (String.eqb k k0) eqn:E; cbn [get]; rewrite E; [reflexivity | exact IH].
Qed.

Lemma get_dict_set_ne d k v k' : k' <> k -> get (dict_set d k v) k' = get d k'.
Proof.
  intros Hne. induction d as [|[k0 p0] d IH]; cbn [dict_set get].
  - destruct (String.eqb_spec k' k); [contradiction | reflexivity].
  - destruct (String.eqb_spec k k0) as [->|Hk]; cbn [get].
    + destruct (String.eqb_spec k' k0); [contradiction | reflexivity].
    + rewrite IH. reflexivity.
Qed.

Lemma length_dict_set d k v : length (dict_set d k v) <= S (length d).
Proof.
  induction d as [|[k0 p0] d IH]; cbn [dict_set]; [cbn; lia|].
  destruct (String.eqb k k0); cbn [length]; lia.
Qed.

Lemma scrape_header_listed d header :
  scrape_header d header
  = match header with
    | Ok h => if listed header then dict_set d (pic_url_of h) (entry_of h) else d
    | Raise e => d
    end.
Proof.
  destruct header as [h|e]; [|reflexivity]. unfold scrape_header, listed.
  destruct (PyStr.truthy (normalize_text (header_text h))); cbn [negb andb];
    [|reflexivity].
  destruct (PyStr.truthy (pic_url_of h)); reflexivity.
Qed.

Lemma fold_scrape_app headers more d :
  fold_left scrape_header (headers ++ more) d
  = fold_left scrape_header more (fold_left scrape_header headers d).
Proof. apply fold_left_app. Qed.

End ScrapeFacts.

Section Scraper.
Import Dict ScrapeFacts TextFacts.

Lemma entry_of_listed h : listed (Ok h) = true -> scraped_entry (pic_url_of h) (entry_of h).
Proof.
  unfold listed. intros H. apply andb_true_iff in H as [Hname Hpic].
  unfold scraped_entry, entry_of. cbn [image_url name sizes original_description
                                        description price].
  split; [reflexivity|]. split.
  - unfold pic_url_of in *. destruct (header_href h) as [href|]; [|discriminate].
    destruct (normalize_shape href) as [E|[t E]]; rewrite E in *; [discriminate|].
    apply PyStrFacts.startswith_slash.
  - split; [apply truthy_true_nonempty, Hname|]. split; [reflexivity|].
    split; [eexists; split; reflexivity|].
    repeat split; apply quote_free_normalize_text.
Qed.

Lemma fold_scrape_invariant headers : forall d,
  NoDup (keys d) ->
  (forall k p, (k, p) ∈ d -> scraped_entry k p) ->
  NoDup (keys (fold_left scrape_header headers d))
  /\ (forall k p, (k, p) ∈ fold_left scrape_header headers d -> scraped_entry k p)
  /\ (forall k, k ∈ keys (fold_left scrape_header headers d) <->
        k ∈ keys d
        \/ exists h, Ok h ∈ headers /\ listed (Ok h) = true /\ pic_url_of h = k).
Proof.
  induction headers as [|header rest IH]; intros d Hnd Hall.
  - cbn [fold_left]. split; [exact Hnd|]. split; [exact Hall|].
    intros k. split; [auto|]. intros [H|(h & Hin & _)]; [exact H|].
    apply elem_of_nil in Hin. contradiction.
  - cbn [fold_left]. rewrite scrape_header_listed.
    destruct header as [h|e].
    + destruct (listed (Ok h)) eqn:Hl.
      * destruct (IH (dict_set d (pic_url_of h) (entry_of h))) as (Hnd' & Hall' & Hkeys').
        { apply NoDup_keys_dict_set, Hnd. }
        { intros k p Hin. apply in_dict_set in Hin as [[-> ->]|Hin];
            [apply entry_of_listed, Hl | apply Hall, Hin]. }
        split; [exact Hnd'|]. split; [exact Hall'|].
        intros k. rewrite Hkeys', keys_dict_set. split.
        -- intros [Hk|(h' & Hin & Hl' & Hk)].
           ++ destruct (bool_decide_reflect (pic_url_of h ∈ keys d)); [auto|].
              apply elem_of_app in Hk as [Hk|Hk]; [auto|].
              apply list_elem_of_singleton in Hk. right. exists h.
              split; [apply elem_of_cons; auto | auto].
           ++ right. exists h'. split; [apply elem_of_cons; auto | auto].
        -- intros [Hk|(h' & Hin & Hl' & Hk)].
           ++ left. destruct (bool_decide_reflect (pic_url_of h ∈ keys d)); [exact Hk|].
              apply elem_of_app. auto.
           ++ apply elem_of_cons in Hin as [Heq|Hin].
              ** injection Heq as ->. left.
                 destruct (bool_decide_reflect (pic_url_of h ∈ keys d)) as [Hin|Hn];
                   [congruence|].
                 apply elem_of_app. right. apply list_elem_of_singleton. auto.
              ** right. exists h'. auto.
      * destruct (IH d Hnd Hall) as (Hnd' & Hall' & Hkeys').
        split; [exact Hnd'|]. split; [exact Hall'|].
        intros k. rewrite Hkeys'. split.
        -- intros [Hk|(h' & Hin & Hl' & Hk)]; [auto|].
           right. exists h'. split; [apply elem_of_cons; auto | auto].
        -- intros [Hk|(h' & Hin & Hl' & Hk)]; [auto|].
           apply elem_of_cons in Hin as [Heq|Hin]; [injection Heq as ->; congruence|].
           right. exists h'. auto.
    + destruct (IH d Hnd Hall) as (Hnd' & Hall' & Hkeys').
      split; [exact Hnd'|]. split; [exact Hall'|].
      intros k. rewrite Hkeys'. split.
      * intros [Hk|(h' & Hin & Hl' & Hk)]; [auto|].
        right. exists h'. split; [apply elem_of_cons; auto | auto].
      * intros [Hk|(h' & Hin & Hl' & Hk)]; [auto|].
        apply elem_of_cons in Hin as [Heq|Hin]; [discriminate|].
        right. exists h'. auto.
Qed.

(** X24: what the scraper returns is a well-formed snapshot.  No key occurs
    twice; the keys are exactly the normalized image addresses of the headers
    that have a name and an image; and every entry carries its key as
    [image_url], a key that starts with a slash, a name that is not empty, no
    size text yet, its original description together with the normalized one,
    and no quote in name, description or price. *)
Theorem scraped_snapshot_well_formed (page : Page) (d : Snapshot) :
  products_by_image_of page = Ok d ->
  NoDup (Dict.keys d)
  /\ (forall k p, (k, p) ∈ d -> scraped_entry k p)
  /\ (forall k, k ∈ Dict.keys d <->
        exists h, Ok h ∈ headers_of page /\ listed (Ok h) = true /\ pic_url_of h = k).
Proof.
  unfold products_by_image_of. destruct page as [[headers|]|e]; intros H;
    [| |discriminate]; injection H as <-.
  - destruct (fold_scrape_invariant headers [])
      as (Hnd & Hall & Hkeys).
    { constructor. }
    { intros k p Hin. apply elem_of_nil in Hin. contradiction. }
    split; [exact Hnd|]. split; [exact Hall|].
    intros k. rewrite Hkeys. cbn [headers_of]. split; [|auto].
    intros [Hin|Hh]; [|exact Hh]. apply elem_of_nil in Hin. contradiction.
  - split; [constructor|]. split.
    + intros k p Hin. apply elem_of_nil in Hin. contradiction.
    + intros k. cbn. split.
      * intros Hin. apply elem_of_nil in Hin. contradiction.
      * intros (h & Hin & _). apply elem_of_nil in Hin. contradiction.
Qed.

Lemma fold_scrape_keeps headers k v : forall d,
  get d k = Some v ->
  (forall h, Ok h ∈ headers -> listed (Ok h) = true -> pic_url_of h <> k) ->
  get (fold_left scrape_header headers d) k = Some v.
Proof.
  induction headers as [|header rest IH]; intros d Hget Hother; [exact Hget|].
  cbn [fold_left]. apply IH.
  - rewrite scrape_header_listed. destruct header as [h|e]; [|exact Hget].
    destruct (listed (Ok h)) eqn:Hl; [|exact Hget].
    rewrite get_dict_set_ne; [exact Hget|].
    intros Heq. apply (Hother h); [apply elem_of_cons; auto | exact Hl | auto].
  - intros h Hin. apply Hother, elem_of_cons. auto.
Qed.

(** X25: of several headers with one image the last one counts.  The entry
    stored under the image of a listed header is that header's, whatever
    headers came before it, unless a later listed header has the same image. *)
Theorem last_header_of_an_image_counts (before after : list (result Header))
    (h : Header) :
  listed (Ok h) = true ->
  (forall h', Ok h' ∈ after -> listed (Ok h') = true -> pic_url_of h' <> pic_url_of h) ->
  forall d,
    products_by_image_of (Ok (Some (before ++ Ok h :: after)%list)) = Ok d ->
    Dict.get d (pic_url_of h) = Some (entry_of h).
Proof.
  intros Hl Hafter d Hd. cbn [products_by_image_of] in Hd. injection Hd as <-.
  rewrite fold_scrape_app. cbn [fold_left].
  apply fold_scrape_keeps; [|exact Hafter].
  rewrite scrape_header_listed, Hl. apply get_dict_set_eq.
Qed.

End Scraper.

Lemma scraped_snapshot_well_formed_witness :
  exists d,
    products_by_image_of demo_page = Ok d
    /\ Dict.keys d = ["/img/10512.jpg"]
    /\ NoDup (Dict.keys d)
    /\ (forall k p, (k, p) ∈ d -> scraped_entry k p).
Proof.
  eexists. split; [reflexivity|]. split; [reflexivity|].
  destruct (scraped_snapshot_well_formed demo_page _ eq_refl) as (Hnd & Hall & _).
  split; [exact Hnd | exact Hall].
Defined.

Lemma last_header_of_an_image_counts_witness :
  exists d,
    products_by_image_of demo_page = Ok d
    /\ Dict.get d "/img/10512.jpg"
       = Some (entry_of (mkHeader "Shirt 10512 NEW" (Some "/img/10512.jpg")
                           (Some "S, M (=komplett)") (Some "CHF 49.00"))).
Proof.
  exists (fold_left scrape_header (headers_of demo_page) []).
  split; [reflexivity|].
  apply (last_header_of_an_image_counts
           [ Ok (mkHeader "Shirt 10512" (Some "https://www.yonex.ch/img/10512.JPG")
                   (Some "S, M, L (=komplett)") (Some "CHF 59.00"));
             Ok (mkHeader "" (Some "/img/none.jpg") None None);
             Ok (mkHeader "Cap" None (Some "one size") (Some "CHF 19.00"));
             Raise "list index out of range" ]
           []
           (mkHeader "Shirt 10512 NEW" (Some "/img/10512.jpg")
              (Some "S, M (=komplett)") (Some "CHF 49.00"))).
  - reflexivity.
  - intros h' Hin. apply elem_of_nil in Hin. contradiction.
  - reflexivity.
Defined.

(** ** One check of a site *)

Section SiteCheck.
Context (R : Runtime).

Lemma last_char_append a c b : last_char (a +:+ String c b) = last_char (String c b).
Proof.
  induction a as [|d a IH]; [reflexivity|].
  cbn [String.append]. cbn [last_char]. rewrite IH.
  destruct (a +:+ String c b) eqn:E; [|reflexivity].
  destruct a; discriminate.
Qed.

Lemma master_log_is_no_history_file site_name : master_log <> history_file site_name.
Proof.
  intros H. apply (f_equal last_char) in H. unfold history_file in H.
  rewrite <- PyStrFacts.append_assoc, last_char_append in H. discriminate.
Qed.

Lemma save_current_frame site_name snapshot w :
  exists r w',
    save_current R site_name snapshot w = (r, w')
    /\ owner_errors w' = owner_errors w
    /\ databases w' = databases w
    /\ disk_fault w' = disk_fault w
    /\ (forall path, path <> history_file site_name -> files w' !! path = files w !! path)
    /\ match r with
       | Ok _ => files w' !! history_file site_name
                 = Some (json_dump_snapshot R snapshot)
       | Raise _ => True
       end.
Proof.
  unfold save_current, bind, open_for_writing, modify, file_write.
  cbn [files disk_fault with_files].
  rewrite lookup_insert_eq. cbn [default].
  destruct (disk_fault w) as [n|] eqn:Hfault;
    [destruct (Nat.ltb n (String.length (json_dump_snapshot R snapshot)))|];
    eexists _, _; (split; [reflexivity|]); cbn [with_files owner_errors databases
                                                  disk_fault files];
    (split; [reflexivity|]); (split; [reflexivity|]); (split; [exact Hfault|]);
    (split; [intros path Hne; rewrite !lookup_insert_ne by congruence; reflexivity|]);
    try exact I; apply lookup_insert_eq.
Qed.

(** The analysis returns; it leaves the tables, the device and every file but
    the history file alone; and a change set that is not empty has been saved
    without an error for the owner. *)
Lemma analyze_product_changes_frame url site_name w :
  exists changes w',
    analyze_product_changes R url site_name w = (Ok changes, w')
    /\ databases w' = databases w
    /\ disk_fault w' = disk_fault w
    /\ (forall path, path <> history_file site_name -> files w' !! path = files w !! path)
    /\ (any_changes changes = true ->
        owner_errors w' = owner_errors w
        /\ files w' !! history_file site_name
           = Some (json_dump_snapshot R (snapshot_of changes))).
Proof.
  unfold analyze_product_changes, try_except, load_previous, bind, lift, get_world, ret.
  destruct (get_products_with_image_ids R url) as [cur|e].
  2:{ eexists _, _. split; [reflexivity|]. repeat split; discriminate. }
  destruct (files w !! history_file site_name) as [text|];
    [destruct (json_load_snapshot R text) as [prev|e]|].
  2:{ eexists _, _. split; [reflexivity|]. repeat split; discriminate. }
  all: match goal with |- context [compare_snapshots R ?prev ?cur ?w0] =>
         destruct (compare_snapshots_diff_step R prev cur w0)
           as ([ch|e] & w1 & Hrun & Hstep); rewrite Hrun end;
       destruct Hstep as (_ & _ & Hfiles & Hfault & Hdb & Herr);
       [ destruct (save_current_frame site_name (snapshot_of ch) w1)
           as (r & w2 & Hsave & Herr2 & Hdb2 & Hfault2 & Hfiles2 & Hr);
         rewrite Hsave; destruct r as [[]|e];
         eexists _, _; (split; [reflexivity|]);
         cbn [send_error_to_owner modify databases disk_fault files owner_errors];
         (split; [congruence|]); (split; [congruence|]);
         (split; [intros path Hne; rewrite Hfiles2 by exact Hne; congruence|]);
         [ intros _; split; [congruence | exact Hr] | discriminate ]
       | eexists _, _; (split; [reflexivity|]);
         cbn [send_error_to_owner modify databases disk_fault files owner_errors];
         (split; [congruence|]); (split; [congruence|]);
         (split; [intros path Hne; congruence|]); discriminate ].
Qed.

Lemma append_changes_run changes site_name log_time w :
  any_changes changes = true ->
  append_changes changes site_name log_time w
  = file_write master_log (written (Log.writes changes site_name log_time)) w.
Proof. intros H. unfold append_changes. rewrite H. reflexivity. Qed.

Lemma file_write_ok path text w :
  match disk_fault w with
  | Some n => String.length text <= n
  | None => True
  end ->
  file_write path text w
  = (Ok tt, with_files (<[path := default "" (files w !! path) +:+ text]> (files w)) w).
Proof.
  unfold file_write. destruct (disk_fault w) as [n|]; [|reflexivity].
  intros H. destruct (Nat.ltb_spec n (String.length text)); [lia | reflexivity].
Qed.

Lemma file_write_fails path text n w :
  disk_fault w = Some n -> n < String.length text ->
  file_write path text w
  = (Raise "[Errno 28] No space left on device",
     with_files (<[path := default "" (files w !! path) +:+ PyStr.slice text 0 n]>
                   (files w)) w).
Proof.
  unfold file_write. intros -> H.
  destruct (Nat.ltb_spec n (String.length text)); [reflexivity | lia].
Qed.

(** X26: a check that reports changes has told the subscribers and the log.
    When [has_site_changed] returns a change set, it is the one the analysis
    found and it is not empty; the notifier was called exactly once, with the
    text rendered for messages; the master log grew by exactly the text
    rendered for the log; and the owner got no error. *)
Theorem reported_changes_are_notified_and_logged (url site_name : string)
    (message_time log_time : string) (s s' : Station) (reported : Changes) :
  has_site_changed R url site_name message_time log_time s = (Some reported, s') ->
  exists w1,
    analyze_product_changes R url site_name (world s) = (Ok reported, w1)
    /\ any_changes reported = true
    /\ notified s'
       = (notified s
          ++ [(notification_title site_name,
               Message.full_message reported site_name message_time)])%list
    /\ send_notifications_for_changes reported site_name message_time
       = Some (telegram_message (notification_title site_name)
                 (Message.full_message reported site_name message_time))
    /\ files (world s') !! master_log
       = Some (default "" (files w1 !! master_log)
               +:+ written (Log.writes reported site_name log_time))
    /\ log_changes reported site_name log_time
       = Some (written (Log.writes reported site_name log_time))
    /\ owner_errors (world s') = owner_errors w1.
Proof.
  unfold has_site_changed, in_world.
  destruct (analyze_product_changes_frame url site_name (world s))
    as (changes & w1 & Hrun & _).
  rewrite Hrun. cbn [world notified].
  destruct (any_changes changes) eqn:Hany; cbn [negb]; [|discriminate].
  unfold notify_changes. rewrite Hany. cbn [negb world notified].
  rewrite append_changes_run by exact Hany.
  unfold file_write.
  destruct (disk_fault w1) as [n|];
    [destruct (Nat.ltb n (String.length (written (Log.writes changes site_name log_time))))|];
    cbn [send_error_to_owner modify snd world notified]; intros H;
    try discriminate; injection H as <- <-; exists w1;
    (split; [reflexivity|]); (split; [exact Hany|]); (split; [reflexivity|]);
    (split; [unfold send_notifications_for_changes; rewrite Hany; reflexivity|]);
    (split; [cbn [world files with_files]; apply lookup_insert_eq|]);
    (split; [unfold log_changes; rewrite Hany; reflexivity|]); reflexivity.
Qed.

(** X27: a check that finds nothing touches nothing.  When the analysis
    returns a change set without removed, added or modified entries, which
    it also does after a failure, the whole loop body notifies nobody, leaves
    the master log and every table as they were, and ends in the world the
    analysis left. *)
Theorem quiet_check_touches_nothing (url site_name : string)
    (message_time log_time : string) (s : Station) (changes : Changes) (w1 : World) :
  analyze_product_changes R url site_name (world s) = (Ok changes, w1) ->
  any_changes changes = false ->
  check_site R url site_name message_time log_time s = mkStation w1 (notified s)
  /\ databases w1 = databases (world s)
  /\ files w1 !! master_log = files (world s) !! master_log.
Proof.
  intros Hrun Hany.
  destruct (analyze_product_changes_frame url site_name (world s))
    as (changes' & w1' & Hrun' & Hdb & _ & Hfiles & _).
  rewrite Hrun in Hrun'. injection Hrun' as <- <-.
  split; [|split; [exact Hdb | apply Hfiles, master_log_is_no_history_file]].
  unfold check_site, has_site_changed, in_world. rewrite Hrun, Hany. reflexivity.
Qed.

(** X28: when the master log cannot take the text, the update is lost.  If
    the analysis found changes and the device then accepts fewer characters
    than the log text has, the subscribers have been notified and the new
    snapshot is already in the history file, but [has_site_changed] returns
    nothing: the owner gets an error and the loop body writes no table. *)
Theorem log_failure_loses_the_update (url site_name : string)
    (message_time log_time : string) (s : Station) (changes : Changes) (w1 : World)
    (n : nat) :
  analyze_product_changes R url site_name (world s) = (Ok changes, w1) ->
  any_changes changes = true ->
  disk_fault w1 = Some n ->
  n < String.length (written (Log.writes changes site_name log_time)) ->
  let s' := check_site R url site_name message_time log_time s in
  notified s'
  = (notified s
     ++ [(notification_title site_name,
          Message.full_message changes site_name message_time)])%list
  /\ databases (world s') = databases (world s)
  /\ files (world s') !! history_file site_name
     = Some (json_dump_snapshot R (snapshot_of changes))
  /\ owner_errors (world s')
     = (owner_errors w1
        ++ ["Error checking for changes on " +:+ site_name
            +:+ ": [Errno 28] No space left on device"])%list.
Proof.
  intros Hrun Hany Hfault Hshort s'.
  destruct (analyze_product_changes_frame url site_name (world s))
    as (changes' & w1' & Hrun' & Hdb & _ & _ & Hsaved).
  rewrite Hrun in Hrun'. injection Hrun' as <- <-.
  destruct (Hsaved Hany) as [_ Hhist].
  subst s'. unfold check_site, has_site_changed, in_world.
  rewrite Hrun, Hany. cbn [negb world notified].
  unfold notify_changes. rewrite Hany. cbn [negb world notified].
  rewrite append_changes_run by exact Hany.
  rewrite (file_write_fails _ _ n) by assumption.
  cbn [send_error_to_owner modify snd world notified with_files databases files
       owner_errors].
  split; [reflexivity|]. split; [exact Hdb|]. split; [|reflexivity].
  rewrite lookup_insert_ne by apply master_log_is_no_history_file. exact Hhist.
Qed.

Lemma has_site_changed_tables url site_name message_time log_time s :
  databases (world (snd (has_site_changed R url site_name message_time log_time s)))
  = databases (world s).
Proof.
  destruct (analyze_product_changes_frame url site_name (world s))
    as (changes & w1 & Hrun & Hdb & _).
  unfold has_site_changed, in_world. rewrite Hrun. cbn [world notified].
  destruct (any_changes changes) eqn:Hany; cbn [negb snd world]; [|exact Hdb].
  unfold notify_changes. rewrite Hany. cbn [negb world notified].
  rewrite append_changes_run by exact Hany. unfold file_write.
  destruct (disk_fault w1) as [n|];
    [destruct (Nat.ltb n (String.length (written (Log.writes changes site_name log_time))))|];
    cbn [send_error_to_owner modify snd world notified with_files databases];
    exact Hdb.
Qed.

(** X29: a page that lists nothing never empties the table.  When the
    analysis comes back with an empty current snapshot, the loop body leaves
    every table as it was, also when it reports every stored product as
    removed: the store returns at once on an empty dictionary. *)
Theorem empty_page_never_empties_the_table (url site_name : string)
    (message_time log_time : string) (s : Station) (changes : Changes) (w1 : World) :
  analyze_product_changes R url site_name (world s) = (Ok changes, w1) ->
  snapshot_of changes = [] ->
  databases (world (check_site R url site_name message_time log_time s))
  = databases (world s).
Proof.
  intros Hrun Hempty.
  pose proof (has_site_changed_tables url site_name message_time log_time s) as Hdb.
  unfold check_site.
  destruct (has_site_changed R url site_name message_time log_time s)
    as [[reported|] s1] eqn:Hcheck; cbn [snd] in Hdb; [|exact Hdb].
  assert (reported = changes) as ->.
  { revert Hcheck. unfold has_site_changed, in_world. rewrite Hrun.
    cbn [world notified]. destruct (any_changes changes); cbn [negb]; [|discriminate].
    destruct (append_changes changes site_name log_time
                (world (notify_changes changes site_name message_time
                          (mkStation w1 (notified s))))) as [[[]|e] w2];
      cbn; intros H; [injection H as <- _; reflexivity | discriminate]. }
  rewrite Hempty. unfold in_world.
  change (store_products_from_dict R [] site_name (world s1)) with (Ok tt, world s1).
  cbn [world]. exact Hdb.
Qed.

(** X30: a reported change reaches the table.  When [has_site_changed]
    returns a change set whose current snapshot has entries, the loop body
    replaces the rows of the category by one row per entry of that snapshot,
    in its order, keeps the rows of other categories, and notifies nobody a
    second time. *)
Theorem changed_page_is_stored (url site_name : string)
    (message_time log_time : string) (s s1 : Station) (reported : Changes) :
  has_site_changed R url site_name message_time log_time s = (Some reported, s1) ->
  snapshot_of reported <> [] ->
  let s' := check_site R url site_name message_time log_time s in
  let kept :=
    kept_rows site_name (default [] (databases (world s) !! db_path site_name)) in
  exists news,
    databases (world s')
    = <[db_path site_name := (kept ++ news)%list]> (databases (world s))
    /\ Forall2 (row_of_entry site_name) (snapshot_of reported) news
    /\ notified s' = notified s1
    /\ files (world s') = files (world s1)
    /\ parser_calls (world s') = parser_calls (world s1).
Proof.
  intros Hcheck Hne s' kept.
  pose proof (has_site_changed_tables url site_name message_time log_time s) as Hdb.
  rewrite Hcheck in Hdb. cbn [snd] in Hdb.
  subst s'. unfold check_site. rewrite Hcheck. unfold in_world.
  destruct (store_products_from_dict_rows R (snapshot_of reported) site_name (world s1) Hne)
    as (news & Hstore & Hall & _).
  rewrite Hstore. cbn [world notified with_databases databases files parser_calls].
  exists news. subst kept. rewrite Hdb.
  split; [reflexivity|]. split; [exact Hall|]. repeat split.
Qed.

End SiteCheck.

Lemma reported_changes_are_notified_and_logged_witness :
  exists reported s' w1,
    has_site_changed (Demo.runtime (Ok Demo.today)) shoes_url "schuhe"
      Demo.clock Demo.clock first_check = (Some reported, s')
    /\ analyze_product_changes (Demo.runtime (Ok Demo.today)) shoes_url "schuhe"
         (world first_check) = (Ok reported, w1)
    /\ any_changes reported = true
    /\ length (notified s') = 1
    /\ owner_errors (world s') = [].
Proof.
  assert (Hr : exists reported s',
             has_site_changed (Demo.runtime (Ok Demo.today)) shoes_url "schuhe"
               Demo.clock Demo.clock first_check = (Some reported, s')).
  { vm_compute. eexists _, _. reflexivity. }
  destruct Hr as (reported & s' & Hr).
  destruct (reported_changes_are_notified_and_logged (Demo.runtime (Ok Demo.today))
              shoes_url "schuhe" Demo.clock Demo.clock first_check s' reported Hr)
    as (w1 & Hrun & Hany & Hn & _ & _ & _ & Herr).
  exists reported, s', w1. split; [exact Hr|]. split; [exact Hrun|].
  split; [exact Hany|]. split; [rewrite Hn; reflexivity|].
  rewrite Herr. vm_compute in Hrun. injection Hrun as _ <-. reflexivity.
Defined.

Lemma quiet_check_touches_nothing_witness :
  check_site (Demo.runtime (Raise "timed out")) shoes_url "schuhe"
    Demo.clock Demo.clock first_check
  = mkStation
      (with_owner_error "Error analyzing changes for schuhe: timed out" Demo.world) [].
Proof.
  apply (quiet_check_touches_nothing (Demo.runtime (Raise "timed out")) shoes_url
           "schuhe" Demo.clock Demo.clock first_check no_changes
           (with_owner_error "Error analyzing changes for schuhe: timed out" Demo.world)).
  - reflexivity.
  - reflexivity.
Defined.

Lemma log_failure_loses_the_update_witness :
  length (notified (check_site (Demo.runtime (Ok Demo.today)) shoes_url "schuhe"
                      Demo.clock Demo.clock first_check_small_disk)) = 1
  /\ databases (world (check_site (Demo.runtime (Ok Demo.today)) shoes_url "schuhe"
                         Demo.clock Demo.clock first_check_small_disk))
     = databases (world first_check_small_disk).
Proof.
  assert (Hrun : exists changes w1,
             analyze_product_changes (Demo.runtime (Ok Demo.today)) shoes_url "schuhe"
               (world first_check_small_disk) = (Ok changes, w1)
             /\ any_changes changes = true
             /\ disk_fault w1 = Some 400
             /\ 400 < String.length (written (Log.writes changes "schuhe" Demo.clock))).
  { eexists _, _. split; [vm_compute; reflexivity|].
    split; [reflexivity|]. split; [reflexivity|]. vm_compute. lia. }
  destruct Hrun as (changes & w1 & Hrun & Hany & Hfault & Hshort).
  pose proof (log_failure_loses_the_update (Demo.runtime (Ok Demo.today)) shoes_url
                "schuhe" Demo.clock Demo.clock first_check_small_disk changes w1 400
                Hrun Hany Hfault Hshort) as H.
  cbv zeta in H. destruct H as (Hn & Hdb & _).
  split; [rewrite Hn; reflexivity | exact Hdb].
Defined.

Lemma empty_page_never_empties_the_table_witness :
  databases (world (check_site (Demo.runtime (Ok [])) shoes_url "schuhe"
                      Demo.clock Demo.clock seen_yesterday))
  = databases (world seen_yesterday)
  /\ length (notified (check_site (Demo.runtime (Ok [])) shoes_url "schuhe"
                         Demo.clock Demo.clock seen_yesterday)) = 1.
Proof.
  split; [|vm_compute; reflexivity].
  assert (Hrun : exists changes w1,
             analyze_product_changes (Demo.runtime (Ok [])) shoes_url "schuhe"
               (world seen_yesterday) = (Ok changes, w1)
             /\ snapshot_of changes = []).
  { eexists _, _. split; [vm_compute; reflexivity | reflexivity]. }
  destruct Hrun as (changes & w1 & Hrun & Hempty).
  apply (empty_page_never_empties_the_table (Demo.runtime (Ok [])) shoes_url "schuhe"
           Demo.clock Demo.clock seen_yesterday changes w1 Hrun Hempty).
Defined.

Lemma changed_page_is_stored_witness :
  exists news,
    databases (world (check_site (Demo.runtime (Ok Demo.today)) shoes_url "schuhe"
                        Demo.clock Demo.clock seen_yesterday))
    = <[db_path "schuhe" :=
          (kept_rows "schuhe"
             (default [] (databases (world seen_yesterday) !! db_path "schuhe"))
           ++ news)%list]> (databases (world seen_yesterday))
    /\ length news = 3.
Proof.
  assert (Hr : exists reported s1,
             has_site_changed (Demo.runtime (Ok Demo.today)) shoes_url "schuhe"
               Demo.clock Demo.clock seen_yesterday = (Some reported, s1)
             /\ length (snapshot_of reported) = 3).
  { vm_compute. eexists _, _. split; reflexivity. }
  destruct Hr as (reported & s1 & Hr & Hlen).
  assert (Hne : snapshot_of reported <> [])
    by (destruct (snapshot_of reported); [discriminate Hlen | discriminate]).
  pose proof (changed_page_is_stored (Demo.runtime (Ok Demo.today)) shoes_url "schuhe"
                Demo.clock Demo.clock seen_yesterday s1 reported Hr Hne) as H.
  cbv zeta in H. destruct H as (news & Hdb & Hall & _).
  exists news. split; [exact Hdb|].
  rewrite <- (Forall2_length _ _ _ Hall). exact Hlen.
Defined.
